(** * bite: output controller, application registry and build lifecycle

    A shallow embedding of [bite.go] (package [bite]) and the properties
    of it that the specification states.

    The package is a thin layer over three collaborators: the command tree
    engine (cobra), its flag sets (pflag) and the Go runtime ([fmt],
    [strings], [io]).  Each of them is embedded as far as [bite.go] calls
    into it, in a module of its own; the package itself sits at top level
    and keeps the names of the source.

    Go pointers are addresses into typed stores: [new(bool)] cells,
    [*Application] objects, root [*cobra.Command] objects and
    [io.Writer]s.  A Go function is a state transformer over the stores
    which either returns or panics. *)

From Stdlib Require Import ZArith String Ascii List Lia.
From stdpp Require Import gmap strings list.

Set Warnings "-register-all".
Open Scope string_scope.
Open Scope list_scope.

(** ** The Go runtime: pointers, panics, state *)

(** An address in one of the stores; [nil] is the [None] of [option loc]. *)
Abbreviation loc := nat.

Inductive Panic :=
| NilDereference                 (* invalid memory address or nil pointer dereference *)
| IndexOutOfRange
| FlagRedefined (name : string)  (* pflag: "flag redefined: <name>" *)
| CallbackPanic (msg : string).  (* raised inside caller-supplied code *)

Inductive Outcome (A : Type) :=
| Returns (a : A)
| Panics (p : Panic).
Arguments Returns {A} a.
Arguments Panics {A} p.

(** Go's [error] interface: [None] is the nil error. *)
Definition error := option string.

(** An allocate-only store, addressed by position. *)
Definition alloc {A} (h : list A) (x : A) : loc * list A := (List.length h, h ++ [x]).

(** ** Package strings *)

Module gostrings.

Definition LF : ascii := ascii_of_nat 10.
Definition CR : ascii := ascii_of_nat 13.
Definition newline : string := String LF EmptyString.
Definition crlf : string := String CR (String LF EmptyString).

Fixpoint drop (n : nat) (s : string) : string :=
  match n, s with
  | O, _ => s
  | S n', String _ s' => drop n' s'
  | S _, EmptyString => EmptyString
  end.

(** [len(s) >= len(suffix) && s[len(s)-len(suffix):] == suffix] *)
Definition HasSuffix (s suffix : string) : bool :=
  (String.length suffix <=? String.length s)%nat
  && String.eqb (drop (String.length s - String.length suffix) s) suffix.

(** Index of the last byte equal to [c], or [-1]. *)
Fixpoint LastIndexByte (s : string) (c : ascii) : Z :=
  match s with
  | EmptyString => (-1)%Z
  | String a s' =>
      let r := LastIndexByte s' c in
      if (r <? 0)%Z then (if Ascii.eqb a c then 0%Z else (-1)%Z) else (r + 1)%Z
  end.

(** [strings.Split(s, sep)] for a one-byte separator, the only way the
    package calls it: the pieces between the occurrences of [sep]; never
    the empty slice. *)
Fixpoint Split (s : string) (sep : ascii) : list string :=
  match s with
  | EmptyString => [EmptyString]
  | String a s' =>
      if Ascii.eqb a sep then EmptyString :: Split s' sep
      else match Split s' sep with
           | piece :: pieces => String a piece :: pieces
           | [] => [String a EmptyString]
           end
  end.

Fixpoint contains_byte (c : ascii) (s : string) : bool :=
  match s with
  | EmptyString => false
  | String a s' => Ascii.eqb a c || contains_byte c s'
  end.

End gostrings.

(** ** Package strconv *)

Module strconv.

Definition FormatBool (b : bool) : string := if b then "true" else "false".

(** [ParseBool] accepts exactly these spellings. *)
Definition ParseBool (s : string) : option bool :=
  if existsb (String.eqb s) ["1"; "t"; "T"; "TRUE"; "true"; "True"] then Some true
  else if existsb (String.eqb s) ["0"; "f"; "F"; "FALSE"; "false"; "False"] then Some false
  else None.

End strconv.

(** ** Package io *)

Module io.

(** A writer is the text it has accepted so far and, for a writer whose
    [Write] fails, the error it reports. *)
Record Writer := { written : string; broken : error }.

Definition Write (w : Writer) (b : string) : Writer * error :=
  match broken w with
  | Some e => (w, Some e)
  | None => ({| written := String.append (written w) b; broken := None |}, None)
  end.

(** An [io.Writer] value: [os.Stdout] or a caller's writer. *)
Inductive Ref := Stdout | At (l : loc).

End io.

(** ** Package pflag *)

Module pflag.

(** A flag's [Value]: [BoolVar] binds the flag to a [*bool], so reading
    the flag reads the cell; every other kind of value is kept as what
    its [Type()] and [String()] methods answer. *)
Inductive Value :=
| BoolCell (p : loc)
| Held (type text : string).

Record Flag := {
  Name : string;
  Usage : string;
  value : Value;
  DefValue : string;
  NoOptDefVal : string }.

(** The [formal] map of a flag set. *)
Abbreviation FlagSet := (gmap string Flag).

Definition Type_ (v : Value) : string :=
  match v with BoolCell _ => "bool" | Held t _ => t end.

Definition String_ (bools : list bool) (v : Value) : Outcome string :=
  match v with
  | BoolCell p =>
      match bools !! p with
      | Some b => Returns (strconv.FormatBool b)
      | None => Panics NilDereference
      end
  | Held _ s => Returns s
  end.

Definition Lookup (f : FlagSet) (name : string) : option Flag := f !! name.

(** [GetBool]: the flag must be defined, of type bool, and its text must
    parse; otherwise [false] and an error. *)
Definition GetBool (bools : list bool) (f : FlagSet) (name : string)
  : Outcome (bool * error) :=
  match Lookup f name with
  | None => Returns (false, Some ("flag accessed but not defined: " +:+ name))
  | Some flag =>
      if negb (String.eqb (Type_ (value flag)) "bool")
      then Returns (false, Some ("trying to get bool value of flag of type "
                                   +:+ Type_ (value flag)))
      else match String_ bools (value flag) with
           | Panics p => Panics p
           | Returns sval =>
               match strconv.ParseBool sval with
               | Some b => Returns (b, None)
               | None => Returns (false, Some ("strconv.ParseBool: parsing " +:+ sval))
               end
           end
  end.

(** [AddFlag] panics when the name is already defined. *)
Definition AddFlag (f : FlagSet) (flag : Flag) : Outcome FlagSet :=
  match f !! Name flag with
  | Some _ => Panics (FlagRedefined (Name flag))
  | None => Returns (<[Name flag := flag]> f)
  end.

(** [BoolVar(p, name, value, usage)]: [newBoolValue] stores the default
    through [p], then the flag is added with [NoOptDefVal] "true". *)
Definition BoolVar (bools : list bool) (f : FlagSet) (p : option loc)
    (name : string) (dflt : bool) (usage : string)
  : Outcome (FlagSet * list bool) :=
  match p with
  | None => Panics NilDereference
  | Some l =>
      match bools !! l with
      | None => Panics NilDereference
      | Some _ =>
          let bools' := <[l := dflt]> bools in
          match AddFlag f {| Name := name; Usage := usage; value := BoolCell l;
                             DefValue := strconv.FormatBool dflt;
                             NoOptDefVal := "true" |} with
          | Panics e => Panics e
          | Returns f' => Returns (f', bools')
          end
      end
  end.

(** [Set(name, value)]: a bool cell takes what [ParseBool] reads from the
    text, [false] together with the error when the text does not parse;
    any other value keeps the text. *)
Definition Set_ (bools : list bool) (f : FlagSet) (name text : string)
  : Outcome (FlagSet * list bool * error) :=
  match f !! name with
  | None => Returns (f, bools, Some ("no such flag -" +:+ name))
  | Some flag =>
      match value flag with
      | BoolCell p =>
          match bools !! p with
          | None => Panics NilDereference
          | Some _ =>
              match strconv.ParseBool text with
              | Some b => Returns (f, <[p := b]> bools, None)
              | None =>
                  Returns (f, <[p := false]> bools,
                           Some ("strconv.ParseBool: parsing " +:+ text))
              end
          end
      | Held t _ =>
          Returns (<[name := {| Name := Name flag; Usage := Usage flag;
                                value := Held t text; DefValue := DefValue flag;
                                NoOptDefVal := NoOptDefVal flag |}]> f,
                   bools, None)
      end
  end.

End pflag.

(** ** Package cobra *)

Module cobra.

(** The two closures [Build] installs capture the application; any other
    hook belongs to the caller. *)
Inductive Hook :=
| BindAndSetup (app : loc)
| RunShutdown (app : loc)
| Foreign.

(** A command node with the fields the package reads or writes.
    [Runnable] stands for [Run != nil || RunE != nil].  [commands] holds
    the children in the order [Commands()] yields them: cobra sorts
    siblings by name before handing them out unless command sorting is
    switched off, so a tree is written with its siblings in that order. *)
Inductive Command := mkCommand {
  Use : string;
  Version : string;
  Short : string;
  Long : string;
  Example : string;
  Deprecated : string;
  Hidden : bool;
  Runnable : bool;
  SilenceUsage : bool;
  SilenceErrors : bool;
  TraverseChildren : bool;
  DisableFlagParsing : bool;
  SuggestionsMinimumDistance : Z;
  PersistentPreRunE : option Hook;
  PersistentPostRunE : option Hook;
  flags : pflag.FlagSet;
  pflags : pflag.FlagSet;
  outWriter : option io.Ref;
  versionTemplate : string;
  commands : list Command }.

(** A [*cobra.Command]: the root object it belongs to and the child
    indices leading from the root to the node. *)
Record Ptr := { root : loc; path : list nat }.

Definition at_root (r : loc) : Ptr := {| root := r; path := [] |}.

Fixpoint descend (c : Command) (p : list nat) : option Command :=
  match p with
  | [] => Some c
  | i :: p' =>
      match commands c !! i with
      | Some c' => descend c' p'
      | None => None
      end
  end.

(** [Name()]: the first word of [Use]. *)
Definition Name (c : Command) : string :=
  match gostrings.Split (Use c) " "%char with
  | w :: _ => w
  | [] => Use c
  end.

Definition Commands (c : Command) : list Command := commands c.

Definition with_commands (c : Command) (cs : list Command) : Command :=
  mkCommand (Use c) (Version c) (Short c) (Long c) (Example c) (Deprecated c)
    (Hidden c) (Runnable c) (SilenceUsage c) (SilenceErrors c)
    (TraverseChildren c) (DisableFlagParsing c) (SuggestionsMinimumDistance c)
    (PersistentPreRunE c) (PersistentPostRunE c) (flags c) (pflags c)
    (outWriter c) (versionTemplate c) cs.

Definition with_pflags (c : Command) (fs : pflag.FlagSet) : Command :=
  mkCommand (Use c) (Version c) (Short c) (Long c) (Example c) (Deprecated c)
    (Hidden c) (Runnable c) (SilenceUsage c) (SilenceErrors c)
    (TraverseChildren c) (DisableFlagParsing c) (SuggestionsMinimumDistance c)
    (PersistentPreRunE c) (PersistentPostRunE c) (flags c) fs
    (outWriter c) (versionTemplate c) (commands c).

Definition with_flags (c : Command) (fs : pflag.FlagSet) : Command :=
  mkCommand (Use c) (Version c) (Short c) (Long c) (Example c) (Deprecated c)
    (Hidden c) (Runnable c) (SilenceUsage c) (SilenceErrors c)
    (TraverseChildren c) (DisableFlagParsing c) (SuggestionsMinimumDistance c)
    (PersistentPreRunE c) (PersistentPostRunE c) fs (pflags c)
    (outWriter c) (versionTemplate c) (commands c).

Definition with_hooks (c : Command) (pre post : option Hook) : Command :=
  mkCommand (Use c) (Version c) (Short c) (Long c) (Example c) (Deprecated c)
    (Hidden c) (Runnable c) (SilenceUsage c) (SilenceErrors c)
    (TraverseChildren c) (DisableFlagParsing c) (SuggestionsMinimumDistance c)
    pre post (flags c) (pflags c)
    (outWriter c) (versionTemplate c) (commands c).

Definition with_Example (c : Command) (e : string) : Command :=
  mkCommand (Use c) (Version c) (Short c) (Long c) e (Deprecated c)
    (Hidden c) (Runnable c) (SilenceUsage c) (SilenceErrors c)
    (TraverseChildren c) (DisableFlagParsing c) (SuggestionsMinimumDistance c)
    (PersistentPreRunE c) (PersistentPostRunE c) (flags c) (pflags c)
    (outWriter c) (versionTemplate c) (commands c).

(** [SetVersionTemplate] *)
Definition SetVersionTemplate (c : Command) (t : string) : Command :=
  mkCommand (Use c) (Version c) (Short c) (Long c) (Example c) (Deprecated c)
    (Hidden c) (Runnable c) (SilenceUsage c) (SilenceErrors c)
    (TraverseChildren c) (DisableFlagParsing c) (SuggestionsMinimumDistance c)
    (PersistentPreRunE c) (PersistentPostRunE c) (flags c) (pflags c)
    (outWriter c) t (commands c).

(** [SetOutput] *)
Definition SetOutput (c : Command) (w : option io.Ref) : Command :=
  mkCommand (Use c) (Version c) (Short c) (Long c) (Example c) (Deprecated c)
    (Hidden c) (Runnable c) (SilenceUsage c) (SilenceErrors c)
    (TraverseChildren c) (DisableFlagParsing c) (SuggestionsMinimumDistance c)
    (PersistentPreRunE c) (PersistentPostRunE c) (flags c) (pflags c)
    w (versionTemplate c) (commands c).

(** [AddCommand] appends the child and [Commands()] sorts the children by
    name before handing them out (cobra.EnableCommandSorting, on by
    default); with [commands] kept in the order [Commands()] yields,
    adding a child is inserting it in name order.  (cobra panics only when
    a command is added to itself, which a value tree cannot express.) *)
Fixpoint insert_by_name (x : Command) (cs : list Command) : list Command :=
  match cs with
  | [] => [x]
  | c :: cs' =>
      if String.ltb (Name x) (Name c) then x :: c :: cs'
      else c :: insert_by_name x cs'
  end.

Definition AddCommand (c : Command) (x : Command) : Command :=
  with_commands c (insert_by_name x (commands c)).

(** [IsAvailableCommand]: not deprecated, not hidden, and runnable or
    with an available sub command.  [HasAvailableSubCommands] is the
    search over the children. *)
Fixpoint IsAvailableCommand (c : Command) : bool :=
  if negb (String.eqb (Deprecated c) "") || Hidden c then false
  else Runnable c || existsb IsAvailableCommand (commands c).

Definition HasAvailableSubCommands (c : Command) : bool :=
  existsb IsAvailableCommand (commands c).

(** [OutOrStdout] on a root command (it has no parent to ask). *)
Definition OutOrStdout (c : Command) : io.Ref :=
  match outWriter c with
  | Some w => w
  | None => io.Stdout
  end.

(** [Flags()] and [PersistentFlags()] *)
Definition Flags (c : Command) : pflag.FlagSet := flags c.
Definition PersistentFlags (c : Command) : pflag.FlagSet := pflags c.

End cobra.

(** * Package bite *)

(** ** Data model *)

(** [CobraRunner]: a lifecycle callback; it answers an error or nil. *)
Definition CobraRunner := cobra.Ptr -> list string -> error.

(** Modelled from the spec: the friendly-error table ([errors.go] is not
    part of the sources at hand): a mapping from a raw failure to the
    message shown instead. *)
Definition FriendlyErrorTable := list (string * string).

(** Modelled from the spec: the auxiliary memory store and [makeMemory]
    ([memory.go] is not part of the sources at hand): a fresh store is
    empty. *)
Definition MemoryStore := list (string * string).
Definition makeMemory : MemoryStore := [].

(** A [fmt.Stringer] is what its [String()] call does. *)
Definition Stringer := Outcome string.

(** The persistent-flags configurator works on the root's persistent flag
    set through the pflag API: it may define flags, which binds cells, and
    set flags, which writes through the cells bound to them; it hands back
    the flag set and the cells, or panics. *)
Definition FlagsConfigurator :=
  pflag.FlagSet -> list bool -> Outcome (pflag.FlagSet * list bool).

Record Application := mkApplication {
  Name : string;
  Version : string;
  Description : string;
  Long : string;
  HelpTemplate : option Stringer;
  ShowSpinner : bool;
  DisableOutputFormatController : bool;
  MachineFriendly : option loc;
  PersistentFlags : option FlagsConfigurator;
  Setup : option CobraRunner;
  Shutdown : option CobraRunner;
  commands : list cobra.Command;
  currentCommand : option cobra.Ptr;
  FriendlyErrors : option FriendlyErrorTable;
  Memory : option MemoryStore;
  CobraCommand : option loc }.

Definition set_Long (x : Application) (v : string) : Application :=
  mkApplication (Name x) (Version x) (Description x) v (HelpTemplate x)
    (ShowSpinner x) (DisableOutputFormatController x) (MachineFriendly x)
    (PersistentFlags x) (Setup x) (Shutdown x) (commands x) (currentCommand x)
    (FriendlyErrors x) (Memory x) (CobraCommand x).

Definition set_MachineFriendly (x : Application) (v : option loc) : Application :=
  mkApplication (Name x) (Version x) (Description x) (Long x) (HelpTemplate x)
    (ShowSpinner x) (DisableOutputFormatController x) v
    (PersistentFlags x) (Setup x) (Shutdown x) (commands x) (currentCommand x)
    (FriendlyErrors x) (Memory x) (CobraCommand x).

Definition set_commands (x : Application) (v : list cobra.Command) : Application :=
  mkApplication (Name x) (Version x) (Description x) (Long x) (HelpTemplate x)
    (ShowSpinner x) (DisableOutputFormatController x) (MachineFriendly x)
    (PersistentFlags x) (Setup x) (Shutdown x) v (currentCommand x)
    (FriendlyErrors x) (Memory x) (CobraCommand x).

Definition set_currentCommand (x : Application) (v : option cobra.Ptr) : Application :=
  mkApplication (Name x) (Version x) (Description x) (Long x) (HelpTemplate x)
    (ShowSpinner x) (DisableOutputFormatController x) (MachineFriendly x)
    (PersistentFlags x) (Setup x) (Shutdown x) (commands x) v
    (FriendlyErrors x) (Memory x) (CobraCommand x).

Definition set_FriendlyErrors (x : Application) (v : option FriendlyErrorTable) : Application :=
  mkApplication (Name x) (Version x) (Description x) (Long x) (HelpTemplate x)
    (ShowSpinner x) (DisableOutputFormatController x) (MachineFriendly x)
    (PersistentFlags x) (Setup x) (Shutdown x) (commands x) (currentCommand x)
    v (Memory x) (CobraCommand x).

Definition set_Memory (x : Application) (v : option MemoryStore) : Application :=
  mkApplication (Name x) (Version x) (Description x) (Long x) (HelpTemplate x)
    (ShowSpinner x) (DisableOutputFormatController x) (MachineFriendly x)
    (PersistentFlags x) (Setup x) (Shutdown x) (commands x) (currentCommand x)
    (FriendlyErrors x) v (CobraCommand x).

Definition set_CobraCommand (x : Application) (v : option loc) : Application :=
  mkApplication (Name x) (Version x) (Description x) (Long x) (HelpTemplate x)
    (ShowSpinner x) (DisableOutputFormatController x) (MachineFriendly x)
    (PersistentFlags x) (Setup x) (Shutdown x) (commands x) (currentCommand x)
    (FriendlyErrors x) (Memory x) v.

(** ** The stores and the package-level registry *)

Record World := mkWorld {
  bools : list bool;             (* cells made by [new(bool)] *)
  apps : list Application;       (* [*Application] objects *)
  roots : list cobra.Command;    (* root [*cobra.Command] objects *)
  stdout : io.Writer;            (* [os.Stdout] *)
  writers : list io.Writer;      (* the callers' writers *)
  applications : list loc }.     (* [var applications []*Application] *)

Definition set_bools (w : World) (v : list bool) : World :=
  mkWorld v (apps w) (roots w) (stdout w) (writers w) (applications w).
Definition set_apps (w : World) (v : list Application) : World :=
  mkWorld (bools w) v (roots w) (stdout w) (writers w) (applications w).
Definition set_roots (w : World) (v : list cobra.Command) : World :=
  mkWorld (bools w) (apps w) v (stdout w) (writers w) (applications w).
Definition set_stdout (w : World) (v : io.Writer) : World :=
  mkWorld (bools w) (apps w) (roots w) v (writers w) (applications w).
Definition set_writers (w : World) (v : list io.Writer) : World :=
  mkWorld (bools w) (apps w) (roots w) (stdout w) v (applications w).
Definition set_applications (w : World) (v : list loc) : World :=
  mkWorld (bools w) (apps w) (roots w) (stdout w) (writers w) v.

(** ** Go functions as state transformers that may panic *)

Definition M (A : Type) : Type := World -> Outcome (A * World).

Definition ret {A} (a : A) : M A := fun w => Returns (a, w).

Definition bind {A B} (m : M A) (k : A -> M B) : M B :=
  fun w => match m w with
           | Returns (a, w') => k a w'
           | Panics p => Panics p
           end.

Definition panic {A} (p : Panic) : M A := fun _ => Panics p.

Definition lift {A} (o : Outcome A) : M A :=
  fun w => match o with Returns a => Returns (a, w) | Panics p => Panics p end.

Notation "x <~ m ;; k" := (bind m (fun x => k))
  (at level 63, m at next level, right associativity).
Notation "m ;;; k" := (bind m (fun _ => k))
  (at level 63, right associativity).

(** [*p] for a pointer that may be nil. *)
Definition deref {A} (store : World -> list A) (p : option loc) : M A :=
  fun w => match p with
           | None => Panics NilDereference
           | Some l => match store w !! l with
                       | Some x => Returns (x, w)
                       | None => Panics NilDereference
                       end
           end.

Definition load_app (a : loc) : M Application := deref apps (Some a).
Definition load_root (r : option loc) : M cobra.Command := deref roots r.

Definition store_app (a : loc) (x : Application) : M unit :=
  fun w => match apps w !! a with
           | Some _ => Returns (tt, set_apps w (<[a := x]> (apps w)))
           | None => Panics NilDereference
           end.

Definition store_root (r : loc) (c : cobra.Command) : M unit :=
  fun w => match roots w !! r with
           | Some _ => Returns (tt, set_roots w (<[r := c]> (roots w)))
           | None => Panics NilDereference
           end.

(** [new(bool)]: a fresh cell holding [false]. *)
Definition new_bool : M loc :=
  fun w => let '(l, h) := alloc (bools w) false in Returns (l, set_bools w h).

(** [&cobra.Command{...}]: a fresh root object. *)
Definition new_root (c : cobra.Command) : M loc :=
  fun w => let '(l, h) := alloc (roots w) c in Returns (l, set_roots w h).

(** [app.PersistentFlags(fs)] *)
Definition call_configurator (configure : FlagsConfigurator)
    (fs : pflag.FlagSet) : M pflag.FlagSet :=
  fun w => match configure fs (bools w) with
           | Returns (fs', h) => Returns (fs', set_bools w h)
           | Panics p => Panics p
           end.

(** [xs[0]] *)
Definition index0 {A} (xs : list A) : M A :=
  match xs with
  | x :: _ => ret x
  | [] => panic IndexOutOfRange
  end.

(** The node a command pointer designates. *)
Definition load_cmd (c : option cobra.Ptr) : M cobra.Command :=
  match c with
  | None => panic NilDereference
  | Some p =>
      top <~ load_root (Some (cobra.root p)) ;;
      match cobra.descend top (cobra.path p) with
      | Some node => ret node
      | None => panic NilDereference
      end
  end.

(** ** The machine-friendly flag *)

Definition machineFriendlyFlagKey : string := "machine-friendly".

Definition machineFriendlyUsage : string :=
  "--" +:+ machineFriendlyFlagKey +:+ " to output JSON results and hide all the info messages".

(** [b, _ := set.GetBool(machineFriendlyFlagKey); return b] *)
Definition GetMachineFriendlyFlagFrom (set : pflag.FlagSet) : M bool :=
  fun w => match pflag.GetBool (bools w) set machineFriendlyFlagKey with
           | Returns (b, _) => Returns (b, w)
           | Panics p => Panics p
           end.

Definition GetMachineFriendlyFlag (cmd : option cobra.Ptr) : M bool :=
  c <~ load_cmd cmd ;;
  GetMachineFriendlyFlagFrom (cobra.Flags c).

(** The flag set is passed by reference in the source; here the updated
    set is the result. *)
Definition RegisterMachineFriendlyFlagTo (set : pflag.FlagSet) (ptr : option loc)
  : M pflag.FlagSet :=
  b <~ GetMachineFriendlyFlagFrom set ;;
  if negb b then
    ptr <~ match ptr with
           | None => (l <~ new_bool ;; ret (Some l))
           | Some _ => ret ptr
           end ;;
    (fun w =>
       match pflag.BoolVar (bools w) set ptr machineFriendlyFlagKey false
               machineFriendlyUsage with
       | Returns (set', h) => Returns (set', set_bools w h)
       | Panics p => Panics p
       end)
  else ret set.

(** ** The application registry *)

(** The [for i, a := range applications] loop of [registerApplication]:
    the slot of the first entry with the name of [app], if any. *)
Fixpoint registerApplication_range (store : list Application) (app : loc)
    (entries : list loc) (i : nat) : Outcome (option nat) :=
  match entries with
  | [] => Returns None
  | a :: entries' =>
      match store !! a, store !! app with
      | Some x, Some y =>
          if String.eqb (Name x) (Name y) then Returns (Some i)
          else registerApplication_range store app entries' (S i)
      | _, _ => Panics NilDereference
      end
  end.

Definition registerApplication (app : loc) : M unit :=
  fun w =>
    match registerApplication_range (apps w) app (applications w) 0 with
    | Panics p => Panics p
    | Returns (Some i) =>
        (* override the existing and exit. *)
        Returns (tt, set_applications w (<[i := app]> (applications w)))
    | Returns None =>
        Returns (tt, set_applications w (applications w ++ [app]))
    end.

(** The loop of [GetByName]. *)
Fixpoint GetByName_range (store : list Application) (applicationName : string)
    (entries : list loc) : Outcome (option loc) :=
  match entries with
  | [] => Returns None
  | app :: entries' =>
      match store !! app with
      | Some x =>
          if String.eqb (Name x) applicationName then Returns (Some app)
          else GetByName_range store applicationName entries'
      | None => Panics NilDereference
      end
  end.

Definition GetByName (applicationName : string) : M (option loc) :=
  fun w => lift (GetByName_range (apps w) applicationName (applications w)) w.

(** [Get]: try the command's own name, then its parent's, up to the
    root.  [up] is the path of [cmd] read from the node upwards. *)
Fixpoint Get_from (r : loc) (up : list nat) : M (option loc) :=
  cmd <~ load_cmd (Some {| cobra.root := r; cobra.path := rev up |}) ;;
  app <~ GetByName (cobra.Name cmd) ;;
  match app with
  | Some a => ret (Some a)
  | None =>
      match up with
      | _ :: parent => Get_from r parent     (* cmd.HasParent() *)
      | [] => ret None
      end
  end.

Definition Get (cmd : option cobra.Ptr) : M (option loc) :=
  match cmd with
  | None => panic NilDereference
  | Some p => Get_from (cobra.root p) (rev (cobra.path p))
  end.

(** [getCommand]: the result is the path of the command found, relative
    to [from].  The body of the [range] loop returns on both branches, so
    only its first iteration ever runs. *)
Fixpoint getCommand (from : cobra.Command) (subCommandName : string)
  : option (list nat) :=
  match cobra.Commands from with
  | c :: _ =>
      if String.eqb (cobra.Name c) subCommandName then Some [0]
      else cons 0 <$> getCommand c subCommandName
  | [] => None
  end.

Definition GetCommand (applicationName commandName : string)
  : M (option cobra.Ptr) :=
  app <~ GetByName applicationName ;;
  match app with
  | None => ret None
  | Some a =>
      x <~ load_app a ;;
      from <~ load_root (CobraCommand x) ;;
      match CobraCommand x, getCommand from commandName with
      | Some r, Some p => ret (Some {| cobra.root := r; cobra.path := p |})
      | _, _ => ret None
      end
  end.

Definition Application_GetCommand (app : loc) (commandName : string)
  : M (option cobra.Ptr) :=
  x <~ load_app app ;;
  GetCommand (Name x) commandName.

(** [AddCommand]: queued before [Build], attached to the root after. *)
Definition AddCommand (app : loc) (cmd : cobra.Command) : M unit :=
  x <~ load_app app ;;
  match CobraCommand x with
  | None => store_app app (set_commands x (commands x ++ [cmd]))
  | Some r =>
      top <~ load_root (Some r) ;;
      store_root r (cobra.AddCommand top cmd)
  end.

(** ** Build *)

(** The usage line of the root: the name alone when its last '[' lies
    beyond its first word, otherwise the name followed by the default
    bracketed part. *)
Definition useText (x : Application) : M string :=
  first_word <~ index0 (gostrings.Split (Name x) " "%char) ;;
  (if (gostrings.LastIndexByte (Name x) "["%char <? Z.of_nat (String.length first_word))%Z
   then ret (Name x +:+ " [command] [flags]")
   else ret (Name x)).

(** The [&cobra.Command{...}] literal of [Build]. *)
Definition rootLiteral (x : Application) (use : string) : cobra.Command :=
  {| cobra.Use := use;
     cobra.Version := Version x;
     cobra.Short := Description x;
     cobra.Long := Long x;
     cobra.Example := "";
     cobra.Deprecated := "";
     cobra.Hidden := false;
     cobra.Runnable := false;
     cobra.SilenceUsage := true;
     cobra.SilenceErrors := true;
     cobra.TraverseChildren := true;
     cobra.DisableFlagParsing := false;
     cobra.SuggestionsMinimumDistance := 1;
     cobra.PersistentPreRunE := None;
     cobra.PersistentPostRunE := None;
     cobra.flags := ∅;
     cobra.pflags := ∅;
     cobra.outWriter := None;
     cobra.versionTemplate := "";
     cobra.commands := [] |}.

(** [Build], stage by stage in the order of the source.  The application
    is updated on a local copy [x] and written back once the root exists;
    the root is a local value until it is published through
    [CobraCommand]. *)

(** [FriendlyErrors] and [Memory] are initialized when absent. *)
Definition Build_defaults (x : Application) : Application :=
  let x := match FriendlyErrors x with
           | None => set_FriendlyErrors x (Some [])
           | Some _ => x
           end in
  match Memory x with
  | None => set_Memory x (Some makeMemory)
  | Some _ => x
  end.

(** [Long] defaults to [Description]. *)
Definition Build_long (x : Application) : Application :=
  if String.eqb (Long x) "" then set_Long x (Description x) else x.

(** The mode cell is allocated, the flag registered unless the output
    format controller is disabled, and the configurator run on the
    root's persistent flags. *)
Definition Build_flags (x : Application) (rootCmd : cobra.Command)
  : M (Application * cobra.Command) :=
  p <~ new_bool ;;
  let x := set_MachineFriendly x (Some p) in
  fs <~ (if negb (DisableOutputFormatController x)
         then RegisterMachineFriendlyFlagTo (cobra.PersistentFlags rootCmd)
                (MachineFriendly x)
         else ret (cobra.PersistentFlags rootCmd)) ;;
  fs <~ match PersistentFlags x with
        | Some configure => call_configurator configure fs
        | None => ret fs
        end ;;
  ret (x, cobra.with_pflags rootCmd fs).

(** The pending commands are attached and the pending list cleared. *)
Definition Build_attach (x : Application) (rootCmd : cobra.Command)
  : Application * cobra.Command :=
  if (0 <? List.length (commands x))%nat
  then (set_commands x [], fold_left cobra.AddCommand (commands x) rootCmd)
  else (x, rootCmd).

(** The example text of the first child, when a child is available. *)
Definition Build_example (rootCmd : cobra.Command) : M cobra.Command :=
  if cobra.HasAvailableSubCommands rootCmd
  then c0 <~ index0 (cobra.Commands rootCmd) ;;
       ret (cobra.with_Example rootCmd (cobra.Example c0))
  else ret rootCmd.

(** The version template, when a non-empty help template is supplied. *)
Definition Build_template (x : Application) (rootCmd : cobra.Command)
  : M cobra.Command :=
  match HelpTemplate x with
  | Some stringer =>
      helpTmpl <~ lift stringer ;;
      (if negb (String.eqb helpTmpl "")
       then ret (cobra.SetVersionTemplate rootCmd helpTmpl)
       else ret rootCmd)
  | None => ret rootCmd
  end.

(** The root is published and the application registered. *)
Definition Build_publish (app : loc) (x : Application) (rootCmd : cobra.Command)
  : M loc :=
  r <~ new_root rootCmd ;;
  let x := set_currentCommand x (Some (cobra.at_root r)) in
  let x := set_CobraCommand x (Some r) in
  store_app app x ;;;
  registerApplication app ;;;
  ret r.

(** Everything [Build] does once it has found the application unbuilt. *)
Definition Build_fresh (app : loc) (x : Application) : M loc :=
  let x := Build_defaults x in
  use <~ useText x ;;
  let x := Build_long x in
  xr <~ Build_flags x (rootLiteral x use) ;;
  let rootCmd :=
    cobra.with_hooks (snd xr) (Some (cobra.BindAndSetup app))
      (Some (cobra.RunShutdown app)) in
  let xr := Build_attach (fst xr) rootCmd in
  rootCmd <~ Build_example (snd xr) ;;
  rootCmd <~ Build_template (fst xr) rootCmd ;;
  Build_publish app (fst xr) rootCmd.

Definition Build (app : loc) : M loc :=
  x <~ load_app app ;;
  match CobraCommand x with
  | Some r => ret r
  | None => Build_fresh app x
  end.

(** The bodies of the two hooks [Build] installs on the root. *)
Definition PersistentPreRunE (app : loc) (cmd : cobra.Ptr) (args : list string)
  : M error :=
  x <~ load_app app ;;
  store_app app (set_currentCommand x (Some cmd)) ;;;  (* bind current command here. *)
  match Setup x with
  | Some setup => ret (setup cmd args)
  | None => ret None
  end.

Definition PersistentPostRunE (app : loc) (cmd : cobra.Ptr) (args : list string)
  : M error :=
  x <~ load_app app ;;
  match Shutdown x with
  | Some shutdown => ret (shutdown cmd args)
  | None => ret None
  end.

(** ** Output: Print, PrintInfo, PrintObject, Run *)

(** Modelled from the spec: [GetSilentFlag] ([flags.go] is not part of the
    sources at hand): the boolean flag "silent" of the command, false
    when the flag is absent or unset; like its sibling
    [GetMachineFriendlyFlag] it reads the command's flag set. *)
Definition silentFlagKey : string := "silent".

Definition GetSilentFlag (cmd : option cobra.Ptr) : M bool :=
  c <~ load_cmd cmd ;;
  (fun w => match pflag.GetBool (bools w) (cobra.Flags c) silentFlagKey with
            | Returns (b, _) => Returns (b, w)
            | Panics p => Panics p
            end).

(** [w.Write(b)] on a writer reference. *)
Definition write_to (out : io.Ref) (b : string) : M error :=
  fun w =>
    match out with
    | io.Stdout =>
        let '(o, err) := io.Write (stdout w) b in Returns (err, set_stdout w o)
    | io.At l =>
        match writers w !! l with
        | Some o0 =>
            let '(o, err) := io.Write o0 b in
            Returns (err, set_writers w (<[l := o]> (writers w)))
        | None => Panics NilDereference
        end
    end.

(** [Application.Write]: standard output until the root exists. *)
Definition Write (app : loc) (b : string) : M error :=
  x <~ load_app app ;;
  match CobraCommand x with
  | None => write_to io.Stdout b
  | Some r =>
      top <~ load_root (Some r) ;;
      write_to (cobra.OutOrStdout top) b
  end.

Section Collaborators.

(** What the package takes from outside: the formatter of [fmt], the
    structured serializer and its two flags, the table renderer, and the
    execution engine. *)
Variable Arg : Type.                         (* an [interface{}] argument *)
Variable Sprintf : string -> list Arg -> string.
Variable Object : Type.                      (* the value given to PrintObject *)
Variable Filter : Type.                      (* a table-only filter *)
Variable GetJSONNoPrettyFlag : option cobra.Ptr -> M bool.
Variable GetJSONQueryFlag : option cobra.Ptr -> M string.
Variable WriteJSON : io.Ref -> Object -> bool -> string -> M error.
Variable tableprinter_Print : io.Ref -> Object -> list Filter -> M unit.

(** [fmt.Fprintf(app, format, args...)]: one [Write] of the formatted text. *)
Definition Fprintf (app : loc) (format : string) (args : list Arg) : M error :=
  Write app (Sprintf format args).

Definition Print (app : loc) (format : string) (args : list Arg) : M error :=
  let format :=
    if negb (gostrings.HasSuffix format gostrings.newline)
    then format +:+ gostrings.crlf   (* add a new line. *)
    else format in
  Fprintf app format args.

Definition PrintInfo (app : loc) (format : string) (args : list Arg) : M error :=
  x <~ load_app app ;;
  mf <~ deref bools (MachineFriendly x) ;;
  (if mf then ret None
   else silent <~ GetSilentFlag (currentCommand x) ;;
        (if silent then ret None else Print app format args)).

Definition PrintObject (cmd : option cobra.Ptr) (v : Object)
    (tableOnlyFilters : list Filter) : M error :=
  p <~ match cmd with
       | Some p => ret p
       | None => panic NilDereference
       end ;;
  top <~ load_root (Some (cobra.root p)) ;;          (* cmd.Root() *)
  let out := cobra.OutOrStdout top in
  machineFriendlyFlagValue <~ GetMachineFriendlyFlag cmd ;;
  (if machineFriendlyFlagValue
   then noPretty <~ GetJSONNoPrettyFlag cmd ;;
        let prettyFlagValue := negb noPretty in
        jmesQueryPathFlagValue <~ GetJSONQueryFlag cmd ;;
        WriteJSON out v prettyFlagValue jmesQueryPathFlagValue
   else tableprinter_Print out v tableOnlyFilters ;;;
        ret None).

Definition Application_PrintObject (app : loc) (v : Object) : M error :=
  x <~ load_app app ;;
  PrintObject (currentCommand x) v [].

(** [FindCommand], over the engine's resolver [Find]. *)
Variable cobra_Find :
  cobra.Command -> list string -> option (list nat * list string).

Definition FindCommand (applicationName : string) (args : list string)
  : M (option (cobra.Ptr * list string)) :=
  app <~ GetByName applicationName ;;
  match app with
  | None => ret None
  | Some a =>
      x <~ load_app a ;;
      top <~ load_root (CobraCommand x) ;;
      match CobraCommand x, cobra_Find top args with
      | Some r, Some (p, cArgs) =>
          ret (Some ({| cobra.root := r; cobra.path := p |}, cArgs))
      | _, _ => ret None
      end
  end.

(** [Run], over the engine's [ParseFlags] and [Execute], the spinner
    wrapper and the friendly-error translation. *)
Variable os_Args : list string.
Variable cobra_ParseFlags : loc -> list string -> M error.
Variable cobra_Execute : loc -> M error.
Variable ExecuteWithSpinner : loc -> M error.
Variable ackError : option FriendlyErrorTable -> error -> error.

Definition Run (app : loc) (output : option io.Ref) (args : list string)
  : M error :=
  let output := match output with None => io.Stdout | Some o => o end in
  rootCmd <~ Build app ;;
  top <~ load_root (Some rootCmd) ;;
  store_root rootCmd (cobra.SetOutput top (Some output)) ;;;
  let args :=
    if ((List.length args =? 0) && (0 <? List.length os_Args))%nat
    then tl os_Args else args in
  top <~ load_root (Some rootCmd) ;;
  (if negb (cobra.DisableFlagParsing top)
   then cobra_ParseFlags rootCmd args ;;; ret tt
   else ret tt) ;;;
  x <~ load_app app ;;
  store_app app (set_commands x []) ;;;
  x <~ load_app app ;;
  spin <~ (if ShowSpinner x
           then mf <~ deref bools (MachineFriendly x) ;; ret (negb mf)
           else ret false) ;;
  (if spin
   then err <~ ExecuteWithSpinner rootCmd ;; ret (ackError (FriendlyErrors x) err)
   else err <~ cobra_Execute rootCmd ;; ret (ackError (FriendlyErrors x) err)).

End Collaborators.

(** Modelled from the spec: [WriteJSON] ([json.go] is not part of the
    sources at hand): the value is filtered by the query path when that is
    not empty, serialized as structured text, indented when [pretty] is
    set and compact otherwise, and written; a failure of the filter, of
    the serializer or of the write is the error returned. *)
Section Serializer.

Variable Object : Type.
Variable search : string -> Object -> Object + string.   (* the query filter *)
Variable marshal : Object -> string + string.            (* compact text *)
Variable marshalIndent : Object -> string + string.      (* indented text *)

Definition WriteJSON (out : io.Ref) (v : Object) (pretty : bool)
    (jmespathQuery : string) : M error :=
  match (if String.eqb jmespathQuery "" then inl v else search jmespathQuery v) with
  | inr e => ret (Some e)
  | inl v' =>
      match (if pretty then marshalIndent v' else marshal v') with
      | inr e => ret (Some e)
      | inl text => write_to out text
      end
  end.

End Serializer.

(** * Vocabulary of the specification *)

(** ** Usage text *)

(** The first word of a name: its text up to the first space. *)
Fixpoint first_word (s : string) : string :=
  match s with
  | EmptyString => EmptyString
  | String a s' =>
      if Ascii.eqb a " "%char then EmptyString else String a (first_word s')
  end.

(** The test [Build] makes on the name, in terms of the name alone: an
    opening bracket occurs in what follows the first word. *)
Definition bracket_after_first_word (name : string) : bool :=
  gostrings.contains_byte "["%char
    (gostrings.drop (String.length (first_word name)) name).

(** The words of the specification, "the name already contains bracketed
    usage text": somewhere in the name an opening bracket is followed,
    later on, by a closing one. *)
Fixpoint contains_bracketed_text (name : string) : bool :=
  match name with
  | EmptyString => false
  | String a rest =>
      (Ascii.eqb a "["%char && gostrings.contains_byte "]"%char rest)
      || contains_bracketed_text rest
  end.

Definition default_usage : string := " [command] [flags]".

(** Two values of a command that agree on the usage line, the local
    flags and the output writer. *)
Definition same_head (c c' : cobra.Command) : Prop :=
  cobra.Use c' = cobra.Use c
  /\ cobra.flags c' = cobra.flags c
  /\ cobra.outWriter c' = cobra.outWriter c.

(** ** Where Print writes *)

(** The writer [Application.Write] addresses in a given world. *)
Definition target (w : World) (app : loc) : option io.Ref :=
  match apps w !! app with
  | None => None
  | Some x =>
      match CobraCommand x with
      | None => Some io.Stdout
      | Some r => cobra.OutOrStdout <$> roots w !! r
      end
  end.

Definition writer_at (w : World) (out : io.Ref) : option io.Writer :=
  match out with
  | io.Stdout => Some (stdout w)
  | io.At l => writers w !! l
  end.

Definition with_writer (w : World) (out : io.Ref) (o : io.Writer) : World :=
  match out with
  | io.Stdout => set_stdout w o
  | io.At l => set_writers w (<[l := o]> (writers w))
  end.

(** A formatter for evaluation: "%s" takes the next argument, "%%" is a
    percent sign, any other text is copied. *)
Fixpoint plain_Sprintf (format : string) (args : list string) : string :=
  match format with
  | String "%" (String "s" rest) =>
      match args with
      | a :: args' => a +:+ plain_Sprintf rest args'
      | [] => "%!s(MISSING)" +:+ plain_Sprintf rest []
      end
  | String "%" (String "%" rest) => String "%" (plain_Sprintf rest args)
  | String c rest => String c (plain_Sprintf rest args)
  | EmptyString => EmptyString
  end.

(** ** The flag Build registers *)

(** The flag [BoolVar] defines for the cell [p]. *)
Definition machineFriendlyFlag (p : loc) : pflag.Flag :=
  {| pflag.Name := machineFriendlyFlagKey;
     pflag.Usage := machineFriendlyUsage;
     pflag.value := pflag.BoolCell p;
     pflag.DefValue := "false";
     pflag.NoOptDefVal := "true" |}.


(** ** Sample worlds *)

Definition empty_world : World :=
  mkWorld [] [] [] {| io.written := ""; io.broken := None |} [] [].

(** An application as [&Application{Name: name}] leaves it. *)
Definition blank (name : string) : Application :=
  mkApplication name "" "" "" None false false None None None None [] None
    None None None.

Definition world_of (xs : list Application) : World := set_apps empty_world xs.

(** The world in which [Build] has run on the one application "app". *)
Definition built_world : World :=
  Eval vm_compute in
    match Build 0 (world_of [blank "app"]) with
    | Returns (_, w) => w
    | Panics _ => empty_world
    end.

(** The same world once the command line has set the flag:
    [--machine-friendly] makes the engine call [Set] on the root's
    persistent flag, which writes [true] through the bound cell. *)
Definition flagged_world : World :=
  Eval vm_compute in
    match roots built_world !! 0 with
    | Some top =>
        match pflag.Set_ (bools built_world) (cobra.pflags top)
                machineFriendlyFlagKey "true" with
        | Returns (_, h, _) => set_bools built_world h
        | Panics _ => built_world
        end
    | None => built_world
    end.

(** ** The registry *)

(** Every entry of the registry is an application that exists. *)
Definition registry_ok (w : World) : Prop :=
  Forall (fun a => is_Some (apps w !! a)) (applications w).

(** The name registered in each slot. *)
Definition name_at (w : World) (a : loc) : string :=
  match apps w !! a with
  | Some x => Name x
  | None => ""
  end.

Definition registered_names (w : World) : list string :=
  name_at w <$> applications w.

(** The first position of a name in a list of names. *)
Fixpoint first_slot (name : string) (names : list string) : option nat :=
  match names with
  | [] => None
  | n :: names' =>
      if String.eqb n name then Some 0 else S <$> first_slot name names'
  end.

(** The configurator and the help template of an application return. *)
Definition callbacks_return (x : Application) : Prop :=
  (forall configure fs h, PersistentFlags x = Some configure ->
     exists fs' h', configure fs h = Returns (fs', h'))
  /\ (forall stringer, HelpTemplate x = Some stringer ->
       exists text, stringer = Returns text).

(** The cells as the configurator of [x], if there is one, turns them. *)
Definition configured (x : Application) (h h' : list bool) : Prop :=
  match PersistentFlags x with
  | Some configure => exists fs fs', configure fs h = Returns (fs', h')
  | None => h' = h
  end.

(** Go never frees a cell: whatever the configurator does, the cells
    that existed before it ran still exist after. *)
Definition cells_persist (x : Application) : Prop :=
  forall configure fs h fs' h',
    PersistentFlags x = Some configure ->
    configure fs h = Returns (fs', h') ->
    List.length h <= List.length h'.

(** The configurator does not write to the cells that exist when it is
    called (in particular it does not set the mode flag). *)
Definition configurator_keeps_cells (x : Application) : Prop :=
  forall configure fs h fs' h',
    PersistentFlags x = Some configure ->
    configure fs h = Returns (fs', h') ->
    forall q (b : bool), h !! q = Some b -> h' !! q = Some b.

(** ** States of a running program *)

(** In a Go program a pointer that is not nil designates an object.  The
    flags of a set that are bound to cells are bound to cells that
    exist. *)
Definition flags_allocated (w : World) (fs : pflag.FlagSet) : Prop :=
  forall name flag c,
    fs !! name = Some flag ->
    pflag.value flag = pflag.BoolCell c ->
    is_Some (bools w !! c).

(** A [*cobra.Command] that is not nil: it designates a node of a stored
    tree, and the output of the tree's root is a writer that exists. *)
Definition live_command (w : World) (p : cobra.Ptr) : Prop :=
  exists top node,
    roots w !! cobra.root p = Some top
    /\ cobra.descend top (cobra.path p) = Some node
    /\ flags_allocated w (cobra.Flags node)
    /\ is_Some (writer_at w (cobra.OutOrStdout top)).

(** An application that [Build] has built: the root, the mode cell and
    the current command are set.  [Build] sets the three (the current
    command to the root), the pre-run hook moves the current command to
    the command about to run, and flag parsing and [SetOutput] act on
    the flag sets and the output of the root. *)
Definition built (w : World) (app : loc) : Prop :=
  exists x r c p,
    apps w !! app = Some x
    /\ CobraCommand x = Some r /\ live_command w (cobra.at_root r)
    /\ MachineFriendly x = Some c /\ is_Some (bools w !! c)
    /\ currentCommand x = Some p /\ live_command w p.

(** Every entry of the registry is an application that exists and has
    its root: [registerApplication] is called by [Build] only, once the
    root is set. *)
Definition registry_built (w : World) : Prop :=
  Forall (fun a => exists x r,
            apps w !! a = Some x /\ CobraCommand x = Some r
            /\ is_Some (roots w !! r))
    (applications w).

(** What is assumed of the collaborators: a flag getter reads, that is
    it returns and leaves the state alone; the table renderer returns
    when its writer exists; the flag parser returns, leaves the
    applications alone and frees no cell; executing returns. *)
Definition reads_flag {A} (getter : option cobra.Ptr -> M A) : Prop :=
  forall p w, live_command w p -> exists a, getter (Some p) w = Returns (a, w).

Definition renders {Object Filter}
    (print : io.Ref -> Object -> list Filter -> M unit) : Prop :=
  forall out v filters w,
    is_Some (writer_at w out) ->
    exists w', print out v filters w = Returns (tt, w').

Definition parses (parse : loc -> list string -> M error) : Prop :=
  forall r args w,
    exists e w',
      parse r args w = Returns (e, w')
      /\ apps w' = apps w
      /\ List.length (bools w) <= List.length (bools w').

Definition executes (execute : loc -> M error) : Prop :=
  forall r w, exists e w', execute r w = Returns (e, w').

(** Three applications, the first two registered; the third carries the
    name of the first. *)
Definition registry_world : World :=
  set_applications (world_of [blank "alpha"; blank "beta"; blank "alpha"]) [0; 1].

(** ** Flag sets for the registration of the mode flag *)

(** One allocated cell, holding [false]. *)
Definition cell_world : World := set_bools empty_world [false].

(** A fresh flag set after one registration of the mode flag on cell 0. *)
Definition registered_once : pflag.FlagSet :=
  <[machineFriendlyFlagKey := machineFriendlyFlag 0]> ∅.

(** ** Printing *)

(** The text [Print] hands to the writer. *)
Definition printed_format (format : string) : string :=
  if gostrings.HasSuffix format gostrings.newline then format
  else format +:+ gostrings.crlf.

(** One unbuilt application and an empty standard output. *)
Definition unbuilt_world : World := world_of [blank "app"].

(** The built world in which the root carries the flag "silent", set. *)
Definition silent_flag : pflag.Flag :=
  {| pflag.Name := silentFlagKey;
     pflag.Usage := "run in silent mode";
     pflag.value := pflag.Held "bool" "true";
     pflag.DefValue := "false";
     pflag.NoOptDefVal := "true" |}.

Definition silent_world : World :=
  Eval vm_compute in
    match roots built_world !! 0 with
    | Some top =>
        set_roots built_world
          [cobra.with_flags top (<[silentFlagKey := silent_flag]> ∅)]
    | None => built_world
    end.

(** The same world once the engine has parsed [--machine-friendly]:
    before it parses, cobra merges the persistent flags of a command and
    of its parents into the flag set [Flags()] hands out, so the root's
    flag set holds the mode flag, and the cell it is bound to holds
    [true]. *)
Definition parsed_world : World :=
  Eval vm_compute in
    match roots flagged_world !! 0 with
    | Some top =>
        set_roots flagged_world [cobra.with_flags top (cobra.pflags top)]
    | None => flagged_world
    end.

(** ** The output mode of a command *)

(** The machine-friendly flag of a flag set holds [b]: the flag is
    defined, and either it is bound to a cell that holds [b], or it keeps
    a bool value of its own whose text reads [b]. *)
Definition mode_flag_holds (w : World) (fs : pflag.FlagSet) (b : bool) : Prop :=
  exists flag,
    fs !! machineFriendlyFlagKey = Some flag
    /\ match pflag.value flag with
       | pflag.BoolCell c => bools w !! c = Some b
       | pflag.Held type text =>
           type = "bool" /\ strconv.ParseBool text = Some b
       end.

(** Table mode: the flag is absent from the command's flag set, or holds
    [false].  Machine-friendly mode: the flag holds [true]. *)
Definition table_mode (w : World) (fs : pflag.FlagSet) : Prop :=
  fs !! machineFriendlyFlagKey = None \/ mode_flag_holds w fs false.

Definition machine_friendly_mode (w : World) (fs : pflag.FlagSet) : Prop :=
  mode_flag_holds w fs true.

(** Collaborators for evaluation: objects are their own table text, the
    table renderer writes it, and the two flags of the serializer must
    not be asked for. *)
Definition table_writes (out : io.Ref) (v : string) (filters : list unit) : M unit :=
  write_to out v ;;; ret tt.

Definition never_asked {A} (cmd : option cobra.Ptr) : M A :=
  panic (CallbackPanic "flag consulted").

Definition no_serializer (out : io.Ref) (v : string) (pretty : bool)
    (query : string) : M error :=
  panic (CallbackPanic "serializer called").

(** A flag getter that answers a fixed value, and a serializer for
    evaluation: no query language, braces around the text, spaced when
    indented. *)
Definition answers {A} (a : A) (cmd : option cobra.Ptr) : M A := ret a.

Definition no_search (query : string) (v : string) : string + string :=
  inr ("unknown query: " +:+ query).
Definition compact (v : string) : string + string := inl ("{" +:+ v +:+ "}").
Definition indented (v : string) : string + string := inl ("{ " +:+ v +:+ " }").

(** ** Command trees *)

(** The first-child chain below a command: its first child, that
    child's first child, and so on. *)
Fixpoint first_children (c : cobra.Command) : list cobra.Command :=
  match cobra.Commands c with
  | c1 :: _ => c1 :: first_children c1
  | [] => []
  end.

(** A runnable command with the given usage line and children. *)
Definition command (use : string) (children : list cobra.Command) : cobra.Command :=
  {| cobra.Use := use;
     cobra.Version := "";
     cobra.Short := "";
     cobra.Long := "";
     cobra.Example := "";
     cobra.Deprecated := "";
     cobra.Hidden := false;
     cobra.Runnable := true;
     cobra.SilenceUsage := false;
     cobra.SilenceErrors := false;
     cobra.TraverseChildren := false;
     cobra.DisableFlagParsing := false;
     cobra.SuggestionsMinimumDistance := 0;
     cobra.PersistentPreRunE := None;
     cobra.PersistentPostRunE := None;
     cobra.flags := ∅;
     cobra.pflags := ∅;
     cobra.outWriter := None;
     cobra.versionTemplate := "";
     cobra.commands := children |}.

(** app -> connector -> [ config -> [ list ] ; list ] *)
Definition config_list : cobra.Command := command "list" [].
Definition config : cobra.Command := command "config" [config_list].
Definition connector_list : cobra.Command := command "list" [].
Definition connector : cobra.Command := command "connector" [config; connector_list].

Definition tree_world : World :=
  Eval vm_compute in
    match Build 0 (world_of [set_commands (blank "app") [connector]]) with
    | Returns (_, w) => w
    | Panics _ => empty_world
    end.

(** app -> connector -> [ config ; list ]: the same tree without the
    command below config. *)
Definition flat_connector : cobra.Command :=
  command "connector" [command "config" []; command "list" []].

Definition flat_tree_world : World :=
  Eval vm_compute in
    match Build 0 (world_of [set_commands (blank "app") [flat_connector]]) with
    | Returns (_, w) => w
    | Panics _ => empty_world
    end.

(** An application whose configurator switches the mode flag on. *)
Definition sets_mode_flag : FlagsConfigurator :=
  fun fs h =>
    match pflag.Set_ h fs machineFriendlyFlagKey "true" with
    | Returns (fs', h', _) => Returns (fs', h')
    | Panics p => Panics p
    end.

Definition eager_app : Application :=
  mkApplication "app" "" "" "" None false false None (Some sets_mode_flag) None
    None [] None None None None.

(** * The rest of bite.go *)

(** ** More of the Go runtime *)

Module strconv10.

Definition digit (c : ascii) : option Z :=
  let n := Z.of_nat (nat_of_ascii c) in
  if ((48 <=? n) && (n <=? 57))%Z then Some (n - 48)%Z else None.

Fixpoint digits (s : string) (acc : Z) : option Z :=
  match s with
  | EmptyString => Some acc
  | String c s' =>
      match digit c with
      | Some d => digits s' (10 * acc + d)%Z
      | None => None
      end
  end.

(** [strconv.ParseInt(s, 10, 64)]: an optional sign and decimal digits;
    the value is 0 with a syntax error for anything else, and the nearest
    end of the int64 range with a range error when it does not fit. *)
Definition ParseInt (s : string) : Z * error :=
  let syntax := (0%Z, Some ("strconv.ParseInt: parsing " +:+ s +:+ ": invalid syntax")) in
  let range v := (v, Some ("strconv.ParseInt: parsing " +:+ s +:+ ": value out of range")) in
  match s with
  | EmptyString => syntax
  | String c rest =>
      let '(neg, body) :=
        if Ascii.eqb c "+"%char then (false, rest)
        else if Ascii.eqb c "-"%char then (true, rest)
        else (false, s) in
      match body with
      | EmptyString => syntax
      | _ =>
          match digits body 0 with
          | None => syntax
          | Some un =>
              let cutoff := (2 ^ 63)%Z in
              if negb neg && (cutoff <=? un)%Z then range (cutoff - 1)%Z
              else if neg && (cutoff <? un)%Z then range (- cutoff)%Z
              else ((if neg then - un else un)%Z, None)
          end
      end
  end.

End strconv10.

(** [strings.Repeat] *)
Fixpoint Repeat (s : string) (count : nat) : string :=
  match count with
  | O => EmptyString
  | S n => s +:+ Repeat s n
  end.

(** ** HelpTemplate *)

Module Help.

Record HelpTemplate := {
  BuildTime : string;
  BuildRevision : string;
  ShowGoRuntimeVersion : bool;
  Template : option Stringer }.

Definition double_quote : string := String (ascii_of_nat 34) EmptyString.

(** The first, raw-string part of the default template. *)
Definition versionLine : string :=
  "{{with .Name}}{{printf " +:+ double_quote +:+ "%s " +:+ double_quote
  +:+ " .}}{{end}}{{printf " +:+ double_quote +:+ "version %s" +:+ double_quote
  +:+ " .Version}}".

Section WithClock.

(** [time.Unix(n, 0).Format(time.UnixDate)] and [runtime.Version()]. *)
Variable time_UnixDate : Z -> string.
Variable runtime_Version : string.

(** [HelpTemplate.String].  The [Sprintf] calls of the source have only
    "%s" verbs and string arguments: they are concatenations. *)
Definition String_ (h : HelpTemplate) : Outcome string :=
  match Template h with
  | None => Panics NilDereference
  | Some (Panics p) => Panics p
  | Some (Returns custom) =>
      if negb (String.eqb custom "") then Returns custom
      else
        let buildTitle := ">>>> build" in
        let tab := Repeat " " (String.length buildTitle) in
        let '(n, _) := strconv10.ParseInt (BuildTime h) in
        let buildTimeStr := time_UnixDate n in
        let tmpl :=
          versionLine
          +:+ (gostrings.newline +:+ buildTitle +:+ gostrings.newline)
          +:+ (tab +:+ " revision " +:+ BuildRevision h +:+ gostrings.newline)
          +:+ (tab +:+ " datetime " +:+ buildTimeStr +:+ gostrings.newline) in
        Returns
          (if ShowGoRuntimeVersion h
           then tmpl +:+ (tab +:+ " go       " +:+ runtime_Version
                          +:+ gostrings.newline)
           else tmpl)
  end.

End WithClock.

End Help.

(** ** exampleText and the by-name methods *)

(** [fmt.Sprintf("%s %s", app.Name, str)] *)
Definition exampleText (app : loc) (str : string) : M string :=
  x <~ load_app app ;;
  ret (Name x +:+ " " +:+ str).

Section ByName.

Variable cobra_Find :
  cobra.Command -> list string -> option (list nat * list string).

Definition Application_FindCommand (app : loc) (args : list string)
  : M (option (cobra.Ptr * list string)) :=
  x <~ load_app app ;;
  FindCommand cobra_Find (Name x) args.

End ByName.

(** ** RegisterMachineFriendlyFlag *)

(** The tree with the node at a path replaced. *)
Fixpoint replace_at (c : cobra.Command) (p : list nat) (node : cobra.Command)
  : option cobra.Command :=
  match p with
  | [] => Some node
  | i :: p' =>
      match cobra.commands c !! i with
      | Some child =>
          match replace_at child p' node with
          | Some child' =>
              Some (cobra.with_commands c (<[i := child']> (cobra.commands c)))
          | None => None
          end
      | None => None
      end
  end.

(** Writing a node back through a command pointer. *)
Definition store_cmd (c : cobra.Ptr) (node : cobra.Command) : M unit :=
  top <~ load_root (Some (cobra.root c)) ;;
  match replace_at top (cobra.path c) node with
  | Some top' => store_root (cobra.root c) top'
  | None => panic NilDereference
  end.

(** [RegisterMachineFriendlyFlagTo(cmd.Flags(), ptr)]: the flag set of
    the command is updated in place. *)
Definition RegisterMachineFriendlyFlag (cmd : option cobra.Ptr) (ptr : option loc)
  : M unit :=
  node <~ load_cmd cmd ;;
  set <~ RegisterMachineFriendlyFlagTo (cobra.Flags node) ptr ;;
  match cmd with
  | Some c => store_cmd c (cobra.with_flags node set)
  | None => panic NilDereference
  end.

(** ** ApplicationBuilder *)

Definition set_Description (x : Application) (v : string) : Application :=
  mkApplication (Name x) (Version x) v (Long x) (HelpTemplate x)
    (ShowSpinner x) (DisableOutputFormatController x) (MachineFriendly x)
    (PersistentFlags x) (Setup x) (Shutdown x) (commands x) (currentCommand x)
    (FriendlyErrors x) (Memory x) (CobraCommand x).

Definition set_Version (x : Application) (v : string) : Application :=
  mkApplication (Name x) v (Description x) (Long x) (HelpTemplate x)
    (ShowSpinner x) (DisableOutputFormatController x) (MachineFriendly x)
    (PersistentFlags x) (Setup x) (Shutdown x) (commands x) (currentCommand x)
    (FriendlyErrors x) (Memory x) (CobraCommand x).

Definition set_Setup (x : Application) (v : option CobraRunner) : Application :=
  mkApplication (Name x) (Version x) (Description x) (Long x) (HelpTemplate x)
    (ShowSpinner x) (DisableOutputFormatController x) (MachineFriendly x)
    (PersistentFlags x) v (Shutdown x) (commands x) (currentCommand x)
    (FriendlyErrors x) (Memory x) (CobraCommand x).

Definition set_PersistentFlags (x : Application) (v : option FlagsConfigurator)
  : Application :=
  mkApplication (Name x) (Version x) (Description x) (Long x) (HelpTemplate x)
    (ShowSpinner x) (DisableOutputFormatController x) (MachineFriendly x)
    v (Setup x) (Shutdown x) (commands x) (currentCommand x)
    (FriendlyErrors x) (Memory x) (CobraCommand x).

(** [&Application{...}]: a fresh application object. *)
Definition new_app (x : Application) : M loc :=
  fun w => let '(l, h) := alloc (apps w) x in Returns (l, set_apps w h).

(** A builder holds the pointer to its application. *)
Record ApplicationBuilder := { app : loc }.

Module Builder.

(** [Name(name)], the constructor of the package. *)
Definition New (name : string) : M ApplicationBuilder :=
  a <~ new_app (blank name) ;;
  ret {| app := a |}.

Definition Get (b : ApplicationBuilder) : loc := app b.

Definition Description (b : ApplicationBuilder) (description : string)
  : M ApplicationBuilder :=
  x <~ load_app (app b) ;;
  store_app (app b) (set_Description x description) ;;;
  ret b.

Definition Version (b : ApplicationBuilder) (version : string)
  : M ApplicationBuilder :=
  x <~ load_app (app b) ;;
  store_app (app b) (set_Version x version) ;;;
  ret b.

Definition Setup (b : ApplicationBuilder) (setupFunc : option CobraRunner)
  : M ApplicationBuilder :=
  x <~ load_app (app b) ;;
  store_app (app b) (set_Setup x setupFunc) ;;;
  ret b.

Definition Flags (b : ApplicationBuilder) (fn : option FlagsConfigurator)
  : M ApplicationBuilder :=
  x <~ load_app (app b) ;;
  store_app (app b) (set_PersistentFlags x fn) ;;;
  ret b.

(** [b.app.CobraCommand.Flags()] *)
Definition GetFlags (b : ApplicationBuilder) : M pflag.FlagSet :=
  x <~ load_app (app b) ;;
  top <~ load_root (CobraCommand x) ;;
  ret (cobra.Flags top).

Section Engine.

Variable cobra_ParseFlags : loc -> list string -> M error.

Definition Parse (b : ApplicationBuilder) (args : list string) : M error :=
  rootCmd <~ Build (app b) ;;
  cobra_ParseFlags rootCmd args.

End Engine.

End Builder.

(** ** Vocabulary for the further properties *)

(** The flag set the root gets before the configurator runs. *)
Definition registered_flags (x : Application) (p : loc) : pflag.FlagSet :=
  if DisableOutputFormatController x then ∅
  else <[machineFriendlyFlagKey := machineFriendlyFlag p]> ∅.

(** The root a building call creates for application object [app] in
    state [x], given the persistent flags [fs] the configurator left. *)
Definition built_root (app : loc) (x : Application) (fs : pflag.FlagSet)
  : cobra.Command :=
  let use := if bracket_after_first_word (Name x) then Name x
             else Name x +:+ default_usage in
  let x1 := Build_long (Build_defaults x) in
  let c := cobra.with_hooks (cobra.with_pflags (rootLiteral x1 use) fs)
             (Some (cobra.BindAndSetup app)) (Some (cobra.RunShutdown app)) in
  let c := fold_left cobra.AddCommand (commands x) c in
  let c := if cobra.HasAvailableSubCommands c
           then match cobra.Commands c with
                | c0 :: _ => cobra.with_Example c (cobra.Example c0)
                | [] => c
                end
           else c in
  match HelpTemplate x with
  | Some (Returns helpTmpl) =>
      if negb (String.eqb helpTmpl "") then cobra.SetVersionTemplate c helpTmpl
      else c
  | _ => c
  end.

(** The configurator leaves the mode flag as it found it. *)
Definition configurator_keeps_flag (x : Application) : Prop :=
  forall configure fs h fs' h',
    PersistentFlags x = Some configure ->
    configure fs h = Returns (fs', h') ->
    fs' !! machineFriendlyFlagKey = fs !! machineFriendlyFlagKey.

(** app -> connector -> config -> list, with "app" registered: the built
    tree of the sample world, looked at from its deepest command. *)
Definition deepest : cobra.Ptr := {| cobra.root := 0; cobra.path := [0; 0; 0] |}.

(** An application named with its own usage text, and the world in which
    it has been built. *)
Definition usage_named_world : World :=
  Eval vm_compute in
    match Build 0 (world_of [blank "app [flags]"]) with
    | Returns (_, w) => w
    | Panics _ => empty_world
    end.

(** An application with two pending commands, not in name order. *)
Definition pending_world : World :=
  world_of [set_commands (blank "app") [command "zeta" []; command "alpha" []]].

(** An engine for evaluation: parsing and execution succeed and do
    nothing, the spinner must not be started, errors are not translated. *)
Definition parse_nothing (r : loc) (args : list string) : M error := ret None.
Definition execute_nothing (r : loc) : M error := ret None.
Definition no_spinner (r : loc) : M error := panic (CallbackPanic "spinner started").
Definition keep_error (table : option FriendlyErrorTable) (e : error) : error := e.

(** The arguments [Run] hands to the flag parser. *)
Definition effective_args (os_Args args : list string) : list string :=
  match args, os_Args with
  | [], _ :: rest => rest
  | _, _ => args
  end.

(** What the engine's flag parser does to the state for a command line
    that gives [--machine-friendly=text], or does not give the flag:
    the text is set on the flag through the root's persistent flag set
    ([Set] of pflag, which hands it to the flag's value), and the error
    of that is the parser's. *)
Definition set_persistent_flag (name text : string) (r : loc) : M error :=
  top <~ load_root (Some r) ;;
  res <~ (fun w =>
            match pflag.Set_ (bools w) (cobra.PersistentFlags top) name text with
            | Returns (fs, h, e) => Returns ((fs, e), set_bools w h)
            | Panics p => Panics p
            end) ;;
  store_root r (cobra.with_pflags top (fst res)) ;;;
  ret (snd res).

Definition parse_mode_flag (given : option string) (r : loc)
    (args : list string) : M error :=
  match given with
  | Some text => set_persistent_flag machineFriendlyFlagKey text r
  | None => ret None
  end.

(** The mode the command line asks for: what the text of the flag reads
    as, [false] when it does not read as a bool, when the flag is not
    given, and when the application has no such flag. *)
Definition mode_asked (x : Application) (given : option string) : bool :=
  if DisableOutputFormatController x then false
  else match given with
       | Some text =>
           match strconv.ParseBool text with
           | Some b => b
           | None => false
           end
       | None => false
       end.

(** An application that asks for the spinner. *)
Definition spinning_app : Application :=
  mkApplication "app" "" "" "" None true false None None None None [] None
    None None None.

(** A text is a decimal integer when it is a non-empty run of digits
    after an optional sign. *)
Fixpoint all_digits (s : string) : bool :=
  match s with
  | EmptyString => true
  | String c s' =>
      match strconv10.digit c with
      | Some _ => all_digits s'
      | None => false
      end
  end.

Definition is_decimal (s : string) : bool :=
  match s with
  | EmptyString => false
  | String c rest =>
      let body := if Ascii.eqb c "+"%char || Ascii.eqb c "-"%char then rest else s in
      negb (String.eqb body "") && all_digits body
  end.

Definition with_BuildTime (h : Help.HelpTemplate) (t : string) : Help.HelpTemplate :=
  {| Help.BuildTime := t;
     Help.BuildRevision := Help.BuildRevision h;
     Help.ShowGoRuntimeVersion := Help.ShowGoRuntimeVersion h;
     Help.Template := Help.Template h |}.

Definition with_ShowGoRuntimeVersion (h : Help.HelpTemplate) (b : bool)
  : Help.HelpTemplate :=
  {| Help.BuildTime := Help.BuildTime h;
     Help.BuildRevision := Help.BuildRevision h;
     Help.ShowGoRuntimeVersion := b;
     Help.Template := Help.Template h |}.

(** A clock for evaluation. *)
Definition seconds_text (n : Z) : string :=
  if (n =? 0)%Z then "Thu Jan  1 00:00:00 UTC 1970" else "later".

Definition undated : Help.HelpTemplate :=
  {| Help.BuildTime := "yesterday";
     Help.BuildRevision := "abc123";
     Help.ShowGoRuntimeVersion := false;
     Help.Template := Some (Returns "") |}.

(** An application whose help template is a [HelpTemplate] without an
    inner template. *)
Definition helpless_app : Application :=
  mkApplication "app" "" "" "" (Some (Help.String_ seconds_text "go1.10"
                                        {| Help.BuildTime := "0";
                                           Help.BuildRevision := "";
                                           Help.ShowGoRuntimeVersion := false;
                                           Help.Template := None |}))
    false false None None None None [] None None None None.

(** * Properties *)

(** ** Strings *)

Lemma Split_nonempty s sep : gostrings.Split s sep <> [].
Proof.
  destruct s as [|a s]; simpl; [discriminate|].
  destruct (Ascii.eqb a sep); [discriminate|].
  destruct (gostrings.Split s sep); discriminate.
Qed.

Lemma Split_head s : exists rest, gostrings.Split s " "%char = first_word s :: rest.
Proof.
  induction s as [|a s [rest IH]]; simpl.
  - by exists [].
  - destruct (Ascii.eqb a " "%char); [by eexists|].
    rewrite IH. by eexists.
Qed.

Lemma LastIndexByte_before s c : forall n : nat,
  (gostrings.LastIndexByte s c <? Z.of_nat n)%Z
  = negb (gostrings.contains_byte c (gostrings.drop n s)).
Proof.
  induction s as [|a s IH]; intros n.
  - destruct n; simpl; apply Z.ltb_lt; lia.
  - cbn [gostrings.LastIndexByte].
    destruct n as [|n].
    + cbn [gostrings.drop gostrings.contains_byte].
      specialize (IH 0%nat). cbn [gostrings.drop] in IH.
      change (Z.of_nat 0) with 0%Z in *.
      rewrite IH.
      destruct (gostrings.contains_byte c s); simpl.
      * rewrite orb_true_r. simpl.
        apply Z.ltb_ge. simpl in IH. apply Z.ltb_ge in IH. lia.
      * rewrite orb_false_r. by destruct (Ascii.eqb a c).
    + cbn [gostrings.drop]. rewrite <- IH.
      destruct (gostrings.LastIndexByte s c <? 0)%Z eqn:E.
      * apply Z.ltb_lt in E.
        transitivity true; [|symmetry]; apply Z.ltb_lt;
          [destruct (Ascii.eqb a c)|]; lia.
      * apply Z.ltb_ge in E.
        destruct (gostrings.LastIndexByte s c <? Z.of_nat n)%Z eqn:E2.
        -- apply Z.ltb_lt in E2. apply Z.ltb_lt. lia.
        -- apply Z.ltb_ge in E2. apply Z.ltb_ge. lia.
Qed.

Lemma useText_spec x :
  useText x = ret (if bracket_after_first_word (Name x) then Name x
                   else Name x +:+ default_usage).
Proof.
  unfold useText, bracket_after_first_word.
  destruct (Split_head (Name x)) as [rest ->]. simpl.
  unfold bind, ret. rewrite LastIndexByte_before.
  by destruct (gostrings.contains_byte _ _).
Qed.

(** ** Reasoning about state transformers *)

Lemma bind_Returns {A B} (m : M A) (k : A -> M B) w b w' :
  bind m k w = Returns (b, w') ->
  exists a w1, m w = Returns (a, w1) /\ k a w1 = Returns (b, w').
Proof.
  unfold bind. destruct (m w) as [[a w1]|p]; [|discriminate].
  intros H. by exists a, w1.
Qed.

Lemma ret_Returns {A} (a b : A) w w' :
  ret a w = Returns (b, w') -> b = a /\ w' = w.
Proof. unfold ret. intros [= -> ->]. done. Qed.

Lemma lift_Returns {A} (o : Outcome A) b w w' :
  lift o w = Returns (b, w') -> o = Returns b /\ w' = w.
Proof. unfold lift. destruct o; intros [= -> ->]; done. Qed.

Lemma index0_Returns {A} (xs : list A) b w w' :
  index0 xs w = Returns (b, w') -> w' = w.
Proof. destruct xs; simpl; [discriminate|]. by intros [_ ->]%ret_Returns. Qed.

Tactic Notation "inv_bind" hyp(H) "as" ident(a) ident(w1) ident(H1) :=
  apply bind_Returns in H as (a & w1 & H1 & H).

(** ** The machine-friendly flag on a flag set *)

Lemma GetMachineFriendlyFlagFrom_absent (set : pflag.FlagSet) w :
  set !! machineFriendlyFlagKey = None ->
  GetMachineFriendlyFlagFrom set w = Returns (false, w).
Proof.
  intros H. unfold GetMachineFriendlyFlagFrom, pflag.GetBool, pflag.Lookup.
  by rewrite H.
Qed.

Lemma Register_absent (set : pflag.FlagSet) p b w :
  set !! machineFriendlyFlagKey = None ->
  bools w !! p = Some b ->
  RegisterMachineFriendlyFlagTo set (Some p) w
  = Returns (<[machineFriendlyFlagKey := machineFriendlyFlag p]> set,
             set_bools w (<[p := false]> (bools w))).
Proof.
  intros Hset Hp. unfold RegisterMachineFriendlyFlagTo, bind.
  rewrite GetMachineFriendlyFlagFrom_absent by done. simpl.
  unfold pflag.BoolVar, pflag.AddFlag. rewrite Hp. simpl.
  by rewrite Hset.
Qed.

(** ** What a building call leaves behind *)

Lemma registerApplication_frame app w w' :
  registerApplication app w = Returns (tt, w') ->
  w' = set_applications w (applications w').
Proof.
  unfold registerApplication.
  destruct (registerApplication_range _ _ _ _) as [[i|]|]; [| |discriminate];
    by intros [= <-].
Qed.

Lemma Build_defaults_Name x : Name (Build_defaults x) = Name x.
Proof.
  destruct x as [? ? ? ? ? ? ? ? ? ? ? ? ? fe mem ?].
  unfold Build_defaults. cbn. by destruct fe, mem.
Qed.

Lemma Build_long_Name x : Name (Build_long x) = Name x.
Proof. unfold Build_long. by destruct (String.eqb _ _). Qed.

Lemma same_head_refl c : same_head c c.
Proof. by repeat split. Qed.

Lemma same_head_trans c1 c2 c3 :
  same_head c1 c2 -> same_head c2 c3 -> same_head c1 c3.
Proof. intros (?&?&?) (?&?&?). repeat split; congruence. Qed.

Lemma fold_AddCommand_head cs : forall c,
  same_head c (fold_left cobra.AddCommand cs c).
Proof.
  induction cs as [|x cs IH]; intros c; simpl; [apply same_head_refl|].
  eapply same_head_trans; [|apply IH]. by repeat split.
Qed.

Lemma Build_flags_inv x rootCmd w x' rootCmd' w' :
  cobra.pflags rootCmd !! machineFriendlyFlagKey = None ->
  Build_flags x rootCmd w = Returns ((x', rootCmd'), w') ->
  x' = set_MachineFriendly x (Some (List.length (bools w)))
  /\ w' = set_bools w (bools w')
  /\ configured x (bools w ++ [false]) (bools w')
  /\ same_head rootCmd rootCmd'
  /\ cobra.commands rootCmd' = cobra.commands rootCmd.
Proof.
  intros Hfresh H. unfold Build_flags in H.
  inv_bind H as p w1 Hnew. unfold new_bool, alloc in Hnew. injection Hnew as <- <-.
  inv_bind H as fs w2 Hreg.
  cbn [DisableOutputFormatController set_MachineFriendly MachineFriendly] in Hreg.
  assert (w2 = set_bools w (bools w ++ [false])) as ->.
  { destruct (negb (DisableOutputFormatController x)).
    - unfold cobra.PersistentFlags in Hreg.
      rewrite (Register_absent _ _ false) in Hreg; [|done|].
      + injection Hreg as _ <-. destruct w; unfold set_bools; simpl. f_equal.
        apply list_insert_id. by rewrite lookup_app_r, Nat.sub_diag.
      + simpl. by rewrite lookup_app_r, Nat.sub_diag.
    - by apply ret_Returns in Hreg as [_ ->]. }
  inv_bind H as fs' w3 Hcfg.
  apply ret_Returns in H as [[= -> ->] ->].
  cbn [PersistentFlags set_MachineFriendly] in Hcfg. unfold configured.
  destruct (PersistentFlags x) as [configure|].
  - unfold call_configurator in Hcfg. cbn [bools set_bools] in Hcfg.
    destruct (configure fs (bools w ++ [false])) as [[fs0 h]|] eqn:E;
      [|discriminate].
    injection Hcfg as -> <-. destruct w. repeat split; eauto.
  - apply ret_Returns in Hcfg as [-> ->]. destruct w. by repeat split.
Qed.

Lemma Build_attach_inv x rootCmd :
  Name (fst (Build_attach x rootCmd)) = Name x
  /\ MachineFriendly (fst (Build_attach x rootCmd)) = MachineFriendly x
  /\ commands (fst (Build_attach x rootCmd)) = []
  /\ same_head rootCmd (snd (Build_attach x rootCmd)).
Proof.
  unfold Build_attach. destruct (commands x) eqn:E; simpl.
  - rewrite E. by repeat split.
  - repeat split; try done; apply (fold_AddCommand_head (_ :: _)).
Qed.

Lemma Build_example_inv rootCmd c w w' :
  Build_example rootCmd w = Returns (c, w') ->
  w' = w /\ same_head rootCmd c.
Proof.
  unfold Build_example. destruct (cobra.HasAvailableSubCommands rootCmd).
  - intros H. inv_bind H as c0 w1 Hc0. apply index0_Returns in Hc0 as ->.
    apply ret_Returns in H as [-> ->]. by repeat split.
  - intros [-> ->]%ret_Returns. by repeat split.
Qed.

Lemma Build_template_inv x rootCmd c w w' :
  Build_template x rootCmd w = Returns (c, w') ->
  w' = w /\ same_head rootCmd c.
Proof.
  unfold Build_template. destruct (HelpTemplate x) as [stringer|].
  - intros H. inv_bind H as t w1 Ht. apply lift_Returns in Ht as [_ ->].
    destruct (negb _); apply ret_Returns in H as [-> ->]; by repeat split.
  - intros [-> ->]%ret_Returns. by repeat split.
Qed.

Lemma Build_publish_inv app x rootCmd w r w' :
  Build_publish app x rootCmd w = Returns (r, w') ->
  r = List.length (roots w)
  /\ is_Some (apps w !! app)
  /\ registerApplication app
       (set_apps (set_roots w (roots w ++ [rootCmd]))
          (<[app := set_CobraCommand
                      (set_currentCommand x (Some (cobra.at_root r))) (Some r)]>
             (apps w)))
     = Returns (tt, w').
Proof.
  unfold Build_publish. intros H.
  inv_bind H as r0 w1 Hnew. unfold new_root, alloc in Hnew. injection Hnew as <- <-.
  inv_bind H as u w2 Hst. unfold store_app in Hst. cbn [apps set_roots] in Hst.
  destruct (apps w !! app) eqn:E; [|discriminate]. injection Hst as <-.
  inv_bind H as u' w3 Hregd. destruct u'.
  apply ret_Returns in H as [-> ->]. subst w2.
  split; [done|]. split; [by eexists|done].
Qed.

Lemma Build_prepared_callbacks x :
  PersistentFlags (Build_long (Build_defaults x)) = PersistentFlags x
  /\ HelpTemplate (Build_long (Build_defaults x)) = HelpTemplate x.
Proof.
  unfold Build_long, Build_defaults.
  destruct x as [? ? ? l ? ? ? ? ? ? ? ? ? fe mem ?]; cbn.
  destruct fe, mem; cbn; destruct (String.eqb l ""); done.
Qed.

Lemma Build_fresh_inv app x w r w' :
  Build_fresh app x w = Returns (r, w') ->
  exists x' top,
    r = List.length (roots w)
    /\ configured x (bools w ++ [false]) (bools w')
    /\ roots w' = roots w ++ [top]
    /\ apps w' = <[app := x']> (apps w)
    /\ is_Some (apps w !! app)
    /\ stdout w' = stdout w
    /\ writers w' = writers w
    /\ MachineFriendly x' = Some (List.length (bools w))
    /\ CobraCommand x' = Some r
    /\ currentCommand x' = Some (cobra.at_root r)
    /\ Name x' = Name x
    /\ commands x' = []
    /\ cobra.Use top = (if bracket_after_first_word (Name x) then Name x
                        else Name x +:+ default_usage)
    /\ cobra.flags top = ∅
    /\ cobra.outWriter top = None
    /\ registerApplication app
         (mkWorld (bools w') (apps w') (roots w') (stdout w) (writers w)
            (applications w)) = Returns (tt, w').
Proof.
  unfold Build_fresh. intros H.
  rewrite useText_spec, Build_defaults_Name in H.
  inv_bind H as use w1 Huse. apply ret_Returns in Huse as [-> ->].
  inv_bind H as xr w1 Hflags. destruct xr as [x1 rc1].
  apply Build_flags_inv in Hflags as (-> & Hw1 & Hconf & Hhead1 & _); [|done].
  cbn [fst snd] in H.
  inv_bind H as rc2 w2 Hex. apply Build_example_inv in Hex as [-> Hhead2].
  inv_bind H as rc3 w3 Htm. apply Build_template_inv in Htm as [-> Hhead3].
  apply Build_publish_inv in H as (-> & Happ & Hreg).
  pose proof (registerApplication_frame _ _ _ Hreg) as Hw'.
  set (h1 := bools w1) in *. clearbody h1. subst w1.
  cbn [roots apps set_bools] in *.
  match type of Hreg with
  | registerApplication _ (set_apps _ (<[_ := ?y]> _)) = _ =>
      exists y, rc3
  end.
  destruct (Build_attach_inv
              (set_MachineFriendly (Build_long (Build_defaults x))
                 (Some (List.length (bools w))))
              (cobra.with_hooks rc1 (Some (cobra.BindAndSetup app))
                 (Some (cobra.RunShutdown app))))
    as (HN & HM & HC & Hhead).
  assert (same_head
            (rootLiteral (Build_long (Build_defaults x))
               (if bracket_after_first_word (Name x) then Name x
                else Name x +:+ default_usage)) rc3) as (HU & HF & HO).
  { eapply same_head_trans; [|exact Hhead3].
    eapply same_head_trans; [|exact Hhead2].
    eapply same_head_trans; [|exact Hhead].
    eapply same_head_trans; [exact Hhead1|]. by repeat split. }
  assert (configured x (bools w ++ [false]) h1) as Hconf'.
  { unfold configured in *.
    by rewrite <- (proj1 (Build_prepared_callbacks x)). }
  rewrite Hw'. cbn.
  repeat split; try done.
  - by rewrite HN; cbn; rewrite Build_long_Name, Build_defaults_Name.
  - rewrite Hw' in Hreg. exact Hreg.
Qed.


Example flagged_world_cell : bools flagged_world = [true].
Proof. reflexivity. Qed.

(** ** The registry loops *)

Lemma registerApplication_range_spec store app y entries : forall i0,
  store !! app = Some y ->
  Forall (fun a => is_Some (store !! a)) entries ->
  registerApplication_range store app entries i0
  = Returns ((fun k => i0 + k) <$>
               first_slot (Name y)
                 ((fun a => match store !! a with
                            | Some x => Name x
                            | None => ""
                            end) <$> entries)).
Proof.
  intros i0 Hy Hok. revert i0.
  induction Hok as [|a entries [x Hx] Hok IH]; intros i0; simpl; [done|].
  rewrite Hx, Hy. destruct (String.eqb (Name x) (Name y)).
  - simpl. by rewrite Nat.add_0_r.
  - rewrite IH. f_equal. destruct (first_slot _ _); simpl; [|done].
    f_equal. lia.
Qed.

Lemma first_slot_Some name names i :
  first_slot name names = Some i <->
  names !! i = Some name /\ forall j, j < i -> names !! j <> Some name.
Proof.
  revert i. induction names as [|n names IH]; intros i; simpl.
  - split; [done|]. by intros [? _].
  - destruct (String.eqb n name) eqn:E.
    + apply String.eqb_eq in E as ->. split.
      * intros [= <-]. split; [done|]. intros j Hj. lia.
      * intros [Hi Hfirst]. destruct i as [|i]; [done|].
        exfalso. apply (Hfirst 0); [lia|done].
    + apply String.eqb_neq in E. split.
      * destruct (first_slot name names) as [k|]; [|done].
        intros [= <-]. destruct (proj1 (IH k) eq_refl) as [Hk Hfirst].
        split; [done|].
        intros [|j] Hj; simpl; [congruence|]. apply Hfirst. lia.
      * intros [Hi Hfirst]. destruct i as [|i]; simpl in Hi; [congruence|].
        assert (first_slot name names = Some i) as ->; [|done].
        apply IH. split; [done|]. intros j Hj. apply (Hfirst (S j)). lia.
Qed.

Lemma first_slot_None name names :
  first_slot name names = None <-> forall i, names !! i <> Some name.
Proof.
  induction names as [|n names IH]; simpl.
  - split; [|done]. by intros _ i.
  - destruct (String.eqb n name) eqn:E.
    + apply String.eqb_eq in E as ->. split; [done|].
      intros H. by destruct (H 0).
    + apply String.eqb_neq in E. destruct (first_slot name names) as [k|].
      * split; [done|]. intros H. exfalso.
        assert (Some k = None) as [=]. apply IH. intros i. apply (H (S i)).
      * split; [|done]. intros _ [|i]; simpl; [congruence|]. by apply IH.
Qed.

(** ** C5: the registry replaces in place or appends, and never removes *)

(** Claim C5.  Registering an application whose name is already in the
    registry puts it in the slot of that name (the registry keeps its
    size and every other slot keeps its entry); registering a name that
    is not yet there appends it; the registry never loses a slot, and no
    other store is touched.  The registry stays well formed, so the
    statement applies along every sequence of registrations. *)
Theorem registerApplication_slots w app y :
  registry_ok w ->
  apps w !! app = Some y ->
  exists w',
    registerApplication app w = Returns (tt, w')
    /\ w' = set_applications w (applications w')
    /\ registry_ok w'
    /\ (forall i,
          registered_names w !! i = Some (Name y) ->
          (forall j, j < i -> registered_names w !! j <> Some (Name y)) ->
          applications w' = <[i := app]> (applications w)
          /\ List.length (applications w') = List.length (applications w)
          /\ forall j, j <> i -> applications w' !! j = applications w !! j)
    /\ ((forall i, registered_names w !! i <> Some (Name y)) ->
          applications w' = applications w ++ [app])
    /\ List.length (applications w) <= List.length (applications w')
    /\ (forall j a, applications w !! j = Some a ->
          applications w' !! j = Some a
          \/ (applications w' !! j = Some app /\ name_at w a = Name y)).
Proof.
  intros Hok Hy. unfold registerApplication.
  rewrite (registerApplication_range_spec _ _ y) by done.
  change (first_slot (Name y) _) with (first_slot (Name y) (registered_names w)).
  destruct (first_slot (Name y) (registered_names w)) as [k|] eqn:Ek; simpl.
  - eexists. split; [done|]. split; [done|].
    apply first_slot_Some in Ek as [Hk Hfirst].
    assert (k < List.length (applications w)) as Hlt.
    { apply lookup_lt_Some in Hk. unfold registered_names in Hk.
      by rewrite length_fmap in Hk. }
    split; [|split; [|split; [|split]]]; simpl.
    + unfold registry_ok in *. simpl.
      apply Forall_insert; [done|by eexists].
    + intros i Hi Hfirst'.
      assert (i = k) as ->.
      { destruct (Nat.lt_trichotomy i k) as [Hlt'|[->|Hgt]]; [|done|].
        - by destruct (Hfirst i Hlt').
        - by destruct (Hfirst' k Hgt). }
      split; [done|]. split; [by rewrite length_insert|].
      intros j Hj. by apply list_lookup_insert_ne.
    + intros Hnone. by destruct (Hnone k).
    + by rewrite length_insert.
    + intros j a Hj. destruct (decide (j = k)) as [->|Hne].
      * right. split; [by apply list_lookup_insert_eq|].
        unfold registered_names in Hk. rewrite list_lookup_fmap, Hj in Hk.
        by injection Hk.
      * left. by rewrite list_lookup_insert_ne.
  - eexists. split; [done|]. split; [done|].
    split; [|split; [|split; [|split]]]; simpl.
    + unfold registry_ok in *. simpl. apply Forall_app. split; [done|].
      apply Forall_singleton. by eexists.
    + intros i Hi _. apply first_slot_None with (i := i) in Ek. done.
    + done.
    + rewrite length_app. lia.
    + intros j a Hj. left. by apply lookup_app_l_Some.
Qed.

Lemma registerApplication_slots_witness :
  registerApplication 2 registry_world
  = Returns (tt, set_applications registry_world [2; 1]).
Proof.
  destruct (registerApplication_slots registry_world 2 (blank "alpha"))
    as (w' & Hrun & Hw' & _ & Hsame & _).
  - repeat constructor; by eexists.
  - reflexivity.
  - destruct (Hsame 0) as (Hslots & _).
    + reflexivity.
    + intros j Hj. lia.
    + rewrite Hrun, Hw', Hslots. reflexivity.
Defined.

(** ** Build *)

Lemma append_eq_self s t : s +:+ t = s -> t = "".
Proof. induction s as [|a s IH]; simpl; [done|]. intros [= H]. auto. Qed.

Lemma registerApplication_returns w app y :
  registry_ok w -> apps w !! app = Some y ->
  exists w', registerApplication app w = Returns (tt, w').
Proof.
  intros Hok Hy. unfold registerApplication.
  rewrite (registerApplication_range_spec _ _ y) by done.
  destruct (first_slot _ _); simpl; by eexists.
Qed.

Lemma bind_step {A B} (m : M A) (k : A -> M B) w a w1 :
  m w = Returns (a, w1) -> bind m k w = k a w1.
Proof. unfold bind. by intros ->. Qed.

Lemma Build_flags_returns x rootCmd w :
  cobra.pflags rootCmd !! machineFriendlyFlagKey = None ->
  (forall configure fs h, PersistentFlags x = Some configure ->
     exists fs' h', configure fs h = Returns (fs', h')) ->
  exists fs h,
    Build_flags x rootCmd w
    = Returns ((set_MachineFriendly x (Some (List.length (bools w))),
                cobra.with_pflags rootCmd fs),
               set_bools w h).
Proof.
  intros Hfresh Hcfg. unfold Build_flags.
  rewrite (bind_step _ _ _ (List.length (bools w))
             (set_bools w (bools w ++ [false]))) by done.
  cbn [DisableOutputFormatController set_MachineFriendly MachineFriendly
         PersistentFlags].
  assert (exists fs0,
             (if negb (DisableOutputFormatController x)
              then RegisterMachineFriendlyFlagTo (cobra.PersistentFlags rootCmd)
                     (Some (List.length (bools w)))
              else ret (cobra.PersistentFlags rootCmd))
               (set_bools w (bools w ++ [false]))
             = Returns (fs0, set_bools w (bools w ++ [false]))) as [fs0 Hreg].
  { destruct (negb _); [|by eexists].
    unfold cobra.PersistentFlags.
    rewrite (Register_absent _ _ false); [| done |].
    - eexists. f_equal. f_equal. destruct w; unfold set_bools; cbn. f_equal.
      apply list_insert_id. by rewrite lookup_app_r, Nat.sub_diag.
    - cbn. by rewrite lookup_app_r, Nat.sub_diag. }
  rewrite (bind_step _ _ _ _ _ Hreg).
  destruct (PersistentFlags x) as [configure|] eqn:E.
  - destruct (Hcfg configure fs0 (bools w ++ [false]) eq_refl) as (fs' & h' & Hfs').
    exists fs', h'. unfold bind, call_configurator. cbn [bools set_bools].
    rewrite Hfs'. by destruct w.
  - by exists fs0, (bools w ++ [false]).
Qed.

Lemma Build_example_returns rootCmd w :
  exists c, Build_example rootCmd w = Returns (c, w).
Proof.
  unfold Build_example, cobra.HasAvailableSubCommands, cobra.Commands.
  destruct (cobra.commands rootCmd) as [|c0 cs]; simpl; [by eexists|].
  destruct (_ || _); by eexists.
Qed.

Lemma Build_template_returns x rootCmd w :
  (forall stringer, HelpTemplate x = Some stringer ->
     exists text, stringer = Returns text) ->
  exists c, Build_template x rootCmd w = Returns (c, w).
Proof.
  intros Htmpl. unfold Build_template.
  destruct (HelpTemplate x) as [stringer|]; [|by eexists].
  destruct (Htmpl stringer eq_refl) as [text ->].
  unfold bind, lift. destruct (negb _); by eexists.
Qed.

Lemma Build_publish_returns app x0 x rootCmd w :
  registry_ok w ->
  apps w !! app = Some x0 ->
  exists r w', Build_publish app x rootCmd w = Returns (r, w').
Proof.
  intros Hok Happ. unfold Build_publish.
  rewrite (bind_step _ _ _ (List.length (roots w))
             (set_roots w (roots w ++ [rootCmd]))) by done.
  set (x' := set_CobraCommand _ _).
  rewrite (bind_step _ _ _ tt
             (set_apps (set_roots w (roots w ++ [rootCmd]))
                (<[app := x']> (apps w)))).
  2: { unfold store_app. cbn. by rewrite Happ. }
  destruct (registerApplication_returns
              (set_apps (set_roots w (roots w ++ [rootCmd]))
                 (<[app := x']> (apps w))) app x') as [w' Hw'].
  - unfold registry_ok in *. cbn.
    eapply Forall_impl; [exact Hok|]. intros a [z Hz].
    destruct (decide (a = app)) as [->|Hne].
    + rewrite list_lookup_insert_eq; [by eexists|]. by eapply lookup_lt_Some.
    + rewrite list_lookup_insert_ne by done. by eexists.
  - cbn. apply list_lookup_insert_eq. by eapply lookup_lt_Some.
  - rewrite (bind_step _ _ _ _ _ Hw'). by eexists _, _.
Qed.

(** A building call returns whenever the caller's callbacks do. *)
Lemma Build_fresh_returns w app x0 x :
  registry_ok w ->
  apps w !! app = Some x0 ->
  callbacks_return x ->
  exists r w', Build_fresh app x w = Returns (r, w').
Proof.
  intros Hok Happ [Hcfg Htmpl]. unfold Build_fresh.
  rewrite useText_spec.
  rewrite (bind_step _ _ _ _ w eq_refl).
  set (x1 := Build_long (Build_defaults x)).
  set (use := if bracket_after_first_word _ then _ else _).
  destruct (Build_prepared_callbacks x) as [HP HT]. fold x1 in HP, HT.
  destruct (Build_flags_returns x1 (rootLiteral x1 use) w) as (fs & h & Hflags);
    [done| by rewrite HP |].
  rewrite (bind_step _ _ _ _ _ Hflags). cbn [fst snd].
  set (xr := Build_attach _ _).
  assert (HelpTemplate xr.1 = HelpTemplate x) as HT'.
  { subst xr. unfold Build_attach. destruct (_ <? _)%nat; cbn; done. }
  destruct (Build_example_returns xr.2 (set_bools w h)) as [c2 Hc2].
  rewrite (bind_step _ _ _ _ _ Hc2).
  destruct (Build_template_returns xr.1 c2 (set_bools w h))
    as [c3 Hc3]; [by rewrite HT'|].
  rewrite (bind_step _ _ _ _ _ Hc3).
  apply (Build_publish_returns _ x0); [|done].
  by destruct w.
Qed.

(** After a building call the application designates the new root. *)
Lemma Build_fresh_app app x w r w' :
  Build_fresh app x w = Returns (r, w') ->
  exists x', apps w' !! app = Some x' /\ CobraCommand x' = Some r.
Proof.
  intros H. apply Build_fresh_inv in H
    as (x' & top & _ & _ & _ & Happs & [x0 Hx0] & _ & _ & _ & HC & _).
  exists x'. split; [|done]. rewrite Happs.
  apply list_lookup_insert_eq. by eapply lookup_lt_Some.
Qed.

(** [Build], the only caller of [registerApplication], never shortens
    the registry. *)
Lemma Build_keeps_registry w app r w' :
  Build app w = Returns (r, w') ->
  List.length (applications w) <= List.length (applications w').
Proof.
  intros H. unfold Build in H. inv_bind H as x w1 Hload.
  unfold load_app, deref in Hload.
  destruct (apps w !! app); [|discriminate]. injection Hload as -> ->.
  destruct (CobraCommand x).
  - by apply ret_Returns in H as [_ ->].
  - apply Build_fresh_inv in H as (x' & top & H).
    do 15 destruct H as [_ H]. unfold registerApplication in H. cbn in H.
    destruct (registerApplication_range _ _ _ _) as [[i|]|]; [| |discriminate];
      injection H as <-; cbn.
    + by rewrite length_insert.
    + rewrite length_app. lia.
Qed.

(** ** C4: Build is idempotent *)

(** Claim C4.  When [Build] has returned a root for an application, a
    second call returns the same root reference and leaves every store
    as the first call left it: nothing is initialized again, the root's
    persistent flags, the pending commands and the registry are the
    same. *)
Theorem Build_idempotent w app r w' :
  Build app w = Returns (r, w') ->
  Build app w' = Returns (r, w')
  /\ exists x', apps w' !! app = Some x' /\ CobraCommand x' = Some r.
Proof.
  intros H. unfold Build in H. inv_bind H as x w1 Hload.
  unfold load_app, deref in Hload.
  destruct (apps w !! app) as [x0|] eqn:Happ; [|discriminate].
  injection Hload as -> ->.
  assert (exists x', apps w' !! app = Some x' /\ CobraCommand x' = Some r)
    as (x' & Hx' & Hr).
  { destruct (CobraCommand x) as [r0|] eqn:Hbuilt.
    - apply ret_Returns in H as [-> ->]. by exists x.
    - by apply Build_fresh_app in H. }
  split; [|by exists x'].
  unfold Build. rewrite (bind_step _ _ _ x' w').
  - by rewrite Hr.
  - unfold load_app, deref. by rewrite Hx'.
Qed.

Lemma Build_idempotent_witness : Build 0 built_world = Returns (0, built_world).
Proof.
  apply (Build_idempotent (world_of [blank "app"]) 0 0 built_world).
  vm_compute. reflexivity.
Defined.

(** ** C9: the usage line of the root *)

(** Claim C9, as amended.  A building call (one on an application that
    has no root yet) returns whenever the caller's callbacks return, and
    the usage line of the root it creates is the name followed by
    " [command] [flags]" exactly when no opening bracket occurs after the
    first word of the name; a name with an opening bracket after its
    first word is used as it is.  Closing brackets play no role, and
    neither do brackets inside the first word. *)
Theorem Build_usage_text w app x :
  apps w !! app = Some x ->
  CobraCommand x = None ->
  (registry_ok w -> callbacks_return x ->
     exists r w', Build app w = Returns (r, w'))
  /\ forall r w',
       Build app w = Returns (r, w') ->
       exists top,
         roots w' !! r = Some top
         /\ (cobra.Use top = Name x +:+ " [command] [flags]"
             <-> bracket_after_first_word (Name x) = false)
         /\ (bracket_after_first_word (Name x) = true
             -> cobra.Use top = Name x).
Proof.
  intros Happ Hunbuilt.
  assert (Build app w = Build_fresh app x w) as ->.
  { unfold Build. rewrite (bind_step _ _ _ x w).
    - by rewrite Hunbuilt.
    - unfold load_app, deref. by rewrite Happ. }
  split.
  - intros Hok Hcb. by apply (Build_fresh_returns _ _ x).
  - intros r w' H. apply Build_fresh_inv in H
      as (x' & top & -> & _ & Hroots & _ & _ & _ & _ & _ & _ & _ & _ & _
            & HU & _).
    exists top. split.
    + rewrite Hroots. by rewrite lookup_app_r, Nat.sub_diag.
    + rewrite HU. destruct (bracket_after_first_word (Name x)).
      * split; [|done]. split; [|done].
        intros Heq. symmetry in Heq. by apply append_eq_self in Heq.
      * done.
Qed.

Lemma Build_usage_text_witness :
  exists top, roots built_world !! 0 = Some top
              /\ cobra.Use top = "app [command] [flags]".
Proof.
  destruct (Build_usage_text (world_of [blank "app"]) 0 (blank "app")
              eq_refl eq_refl) as [_ H].
  destruct (H 0 built_world) as (top & Htop & Hiff & _).
  - vm_compute. reflexivity.
  - exists top. split; [exact Htop|]. apply Hiff. reflexivity.
Defined.

(** The claim as it stands fails in both directions.  The name
    "app[flags]" contains bracketed text, and yet the usage line gets the
    default part appended: the bracket lies inside the first word.  The
    name "app [" contains no bracketed text (the bracket is never
    closed), and yet it is used as it is. *)
Lemma Build_usage_ignores_bracketed_text :
  contains_bracketed_text "app[flags]" = true
  /\ match Build 0 (world_of [blank "app[flags]"]) with
     | Returns (r, w) =>
         cobra.Use <$> roots w !! r = Some "app[flags] [command] [flags]"
     | Panics _ => False
     end
  /\ contains_bracketed_text "app [" = false
  /\ match Build 0 (world_of [blank "app ["]) with
     | Returns (r, w) => cobra.Use <$> roots w !! r = Some "app ["
     | Panics _ => False
     end.
Proof. repeat split; vm_compute; reflexivity. Qed.

(** A name that carries its own bracketed usage text is kept. *)
Example usage_kept (w : World) :
  useText (blank "app [flags] <file>") w = Returns ("app [flags] <file>", w).
Proof. reflexivity. Qed.

(** An opening bracket inside the first word is part of the name. *)
Example usage_bracket_in_name (w : World) :
  useText (blank "a[b]") w = Returns ("a[b] [command] [flags]", w).
Proof. reflexivity. Qed.

(** ** C10: the mode cell *)

Lemma configured_persist x h h' :
  cells_persist x -> configured x h h' -> List.length h <= List.length h'.
Proof.
  unfold cells_persist, configured. intros Hp Hc.
  destruct (PersistentFlags x) as [configure|]; [|by subst].
  destruct Hc as (fs & fs' & Hc). by eapply Hp.
Qed.

Lemma configured_keeps x h h' q (b : bool) :
  configurator_keeps_cells x -> configured x h h' ->
  h !! q = Some b -> h' !! q = Some b.
Proof.
  unfold configurator_keeps_cells, configured. intros Hk Hc Hq.
  destruct (PersistentFlags x) as [configure|]; [|by subst].
  destruct Hc as (fs & fs' & Hc). by eapply Hk.
Qed.




(** ** C2: registering the mode flag twice *)

Lemma GetMachineFriendlyFlagFrom_cell (set : pflag.FlagSet) flag q b w :
  set !! machineFriendlyFlagKey = Some flag ->
  pflag.value flag = pflag.BoolCell q ->
  bools w !! q = Some b ->
  GetMachineFriendlyFlagFrom set w = Returns (b, w).
Proof.
  intros Hset Hval Hq.
  unfold GetMachineFriendlyFlagFrom, pflag.GetBool, pflag.Lookup.
  rewrite Hset, Hval. simpl. rewrite Hq. by destruct b.
Qed.

(** The guard reads the value of the flag: a flag that is defined and
    reads [true] is left alone ... *)
Lemma Register_skips_true_flag (set : pflag.FlagSet) flag q ptr w :
  set !! machineFriendlyFlagKey = Some flag ->
  pflag.value flag = pflag.BoolCell q ->
  bools w !! q = Some true ->
  RegisterMachineFriendlyFlagTo set ptr w = Returns (set, w).
Proof.
  intros Hset Hval Hq. unfold RegisterMachineFriendlyFlagTo.
  by rewrite (bind_step _ _ _ _ _ (GetMachineFriendlyFlagFrom_cell _ _ _ _ _ Hset Hval Hq)).
Qed.

(** ... while a flag that is defined and reads [false] is defined again,
    which pflag answers with a panic. *)
Lemma Register_redefines_false_flag (set : pflag.FlagSet) flag q p b w :
  set !! machineFriendlyFlagKey = Some flag ->
  pflag.value flag = pflag.BoolCell q ->
  bools w !! q = Some false ->
  bools w !! p = Some b ->
  RegisterMachineFriendlyFlagTo set (Some p) w
  = Panics (FlagRedefined machineFriendlyFlagKey).
Proof.
  intros Hset Hval Hq Hp. unfold RegisterMachineFriendlyFlagTo.
  rewrite (bind_step _ _ _ _ _ (GetMachineFriendlyFlagFrom_cell _ _ _ _ _ Hset Hval Hq)).
  simpl. unfold bind, ret, pflag.BoolVar, pflag.AddFlag. rewrite Hp. simpl.
  by rewrite Hset.
Qed.

(** Claim C2 fails on the code.  The first registration on a fresh flag
    set defines the flag; the second, on the set that now has the flag
    with its default value [false], passes the guard and calls [BoolVar]
    again: the flag is defined a second time and pflag panics. *)
Theorem Register_twice_redefines :
  RegisterMachineFriendlyFlagTo ∅ (Some 0) cell_world
  = Returns (registered_once, cell_world)
  /\ RegisterMachineFriendlyFlagTo registered_once (Some 0) cell_world
     = Panics (FlagRedefined "machine-friendly").
Proof. split; vm_compute; reflexivity. Qed.

(** ** C8: Print *)

Lemma write_to_spec w out o b :
  writer_at w out = Some o ->
  write_to out b w
  = Returns (snd (io.Write o b), with_writer w out (fst (io.Write o b))).
Proof.
  unfold writer_at, write_to, with_writer. destruct out as [|l].
  - intros [= <-]. by destruct (io.Write (stdout w) b).
  - intros ->. by destruct (io.Write o b).
Qed.

Lemma Write_spec w app out o b :
  target w app = Some out ->
  writer_at w out = Some o ->
  Write app b w
  = Returns (snd (io.Write o b), with_writer w out (fst (io.Write o b))).
Proof.
  unfold target, Write. intros Ht Ho.
  destruct (apps w !! app) as [x|] eqn:Happ; [|discriminate].
  rewrite (bind_step _ _ _ x w); [|by unfold load_app, deref; rewrite Happ].
  destruct (CobraCommand x) as [r|].
  - destruct (roots w !! r) as [top|] eqn:Hr; [|discriminate].
    injection Ht as <-.
    rewrite (bind_step _ _ _ top w); [|by unfold load_root, deref; rewrite Hr].
    by apply write_to_spec.
  - injection Ht as <-. by apply write_to_spec.
Qed.

Lemma plain_Sprintf_verbatim s :
  gostrings.contains_byte "%"%char s = false -> plain_Sprintf s [] = s.
Proof.
  induction s as [|c s IH]; [done|].
  intros H. cbn [gostrings.contains_byte] in H.
  apply orb_false_iff in H as [Hc Hs].
  assert (plain_Sprintf (String c s) [] = String c (plain_Sprintf s [])) as ->.
  { destruct c as [[] [] [] [] [] [] [] []]; try done. }
  by rewrite IH.
Qed.

Lemma Print_spec Arg Sprintf w app out o format (args : list Arg) :
  target w app = Some out ->
  writer_at w out = Some o ->
  Print Arg Sprintf app format args w
  = Returns (snd (io.Write o (Sprintf (printed_format format) args)),
             with_writer w out
               (fst (io.Write o (Sprintf (printed_format format) args)))).
Proof.
  intros Ht Ho.
  assert (Print Arg Sprintf app format args w
          = Write app (Sprintf (printed_format format) args) w) as ->.
  { unfold Print, Fprintf, printed_format.
    by destruct (gostrings.HasSuffix format gostrings.newline). }
  by apply Write_spec.
Qed.

Section Printing.

Variable Arg : Type.
Variable Sprintf : string -> list Arg -> string.

(** [fmt] copies a format without verbs when there are no arguments. *)
Hypothesis Sprintf_verbatim :
  forall s, gostrings.contains_byte "%"%char s = false -> Sprintf s [] = s.

(** Claim C8.  [Print] formats with the format itself when that ends in a
    newline and with the format followed by carriage return and newline
    otherwise, writes the text once to the application's writer, and
    returns the error of that write; so [Print("hello")] writes "hello"
    followed by CR LF and [Print] of "hello" with a newline writes just
    that. *)
Theorem Print_newline w app out o format args :
  target w app = Some out ->
  writer_at w out = Some o ->
  let text := Sprintf (printed_format format) args in
  Print Arg Sprintf app format args w
  = Returns (snd (io.Write o text), with_writer w out (fst (io.Write o text)))
  /\ (gostrings.HasSuffix format gostrings.newline = false ->
      printed_format format = format +:+ gostrings.crlf)
  /\ (gostrings.HasSuffix format gostrings.newline = true ->
      printed_format format = format)
  /\ Print Arg Sprintf app "hello" [] w
     = Returns (snd (io.Write o ("hello" +:+ gostrings.crlf)),
                with_writer w out (fst (io.Write o ("hello" +:+ gostrings.crlf))))
  /\ Print Arg Sprintf app ("hello" +:+ gostrings.newline) [] w
     = Returns (snd (io.Write o ("hello" +:+ gostrings.newline)),
                with_writer w out
                  (fst (io.Write o ("hello" +:+ gostrings.newline)))).
Proof.
  intros Ht Ho text.
  split; [|split; [|split; [|split]]].
  - by apply Print_spec.
  - unfold printed_format. by intros ->.
  - unfold printed_format. by intros ->.
  - rewrite (Print_spec _ _ _ _ _ _ _ _ Ht Ho).
    change (printed_format "hello") with ("hello" +:+ gostrings.crlf).
    by rewrite Sprintf_verbatim.
  - rewrite (Print_spec _ _ _ _ _ _ _ _ Ht Ho).
    change (printed_format ("hello" +:+ gostrings.newline))
      with ("hello" +:+ gostrings.newline).
    by rewrite Sprintf_verbatim.
Qed.

End Printing.

Lemma Print_newline_witness :
  Print string plain_Sprintf 0 "%s!" ["hello"] unbuilt_world
  = Returns (None,
             set_stdout unbuilt_world
               {| io.written := "hello!" +:+ gostrings.crlf; io.broken := None |}).
Proof.
  destruct (Print_newline string plain_Sprintf plain_Sprintf_verbatim
              unbuilt_world 0 io.Stdout (stdout unbuilt_world) "%s!" ["hello"]
              eq_refl eq_refl) as [H _].
  rewrite H. reflexivity.
Defined.

(** A writer that fails: nothing is written and its error is returned. *)
Example Print_returns_write_error :
  let w := set_stdout unbuilt_world
             {| io.written := ""; io.broken := Some "closed pipe" |} in
  Print string plain_Sprintf 0 "hello" [] w = Returns (Some "closed pipe", w).
Proof. reflexivity. Qed.

(** ** C7: PrintInfo *)

Lemma PrintInfo_unfold Arg Sprintf w app x p (mf : bool) format (args : list Arg) :
  apps w !! app = Some x ->
  MachineFriendly x = Some p ->
  bools w !! p = Some mf ->
  PrintInfo Arg Sprintf app format args w
  = (if mf then ret None
     else silent <~ GetSilentFlag (currentCommand x) ;;
          (if silent then ret None
           else Print Arg Sprintf app format args)) w.
Proof.
  intros Happ Hp Hmf. unfold PrintInfo.
  rewrite (bind_step _ _ _ x w); [|by unfold load_app, deref; rewrite Happ].
  rewrite (bind_step _ _ _ mf w); [done|].
  unfold deref. by rewrite Hp, Hmf.
Qed.

Section Info.

Variable Arg : Type.
Variable Sprintf : string -> list Arg -> string.

(** Claim C7.  With the mode cell allocated, [PrintInfo] writes nothing
    and returns nil when the cell holds [true], whether or not there is a
    current command or a silent flag; it also writes nothing and returns
    nil when the silent flag of the current command is set, whatever the
    cell holds; with the cell [false] and the flag unset it is [Print]. *)
Theorem PrintInfo_suppression w app x p format args :
  apps w !! app = Some x ->
  MachineFriendly x = Some p ->
  (bools w !! p = Some true ->
     PrintInfo Arg Sprintf app format args w = Returns (None, w))
  /\ (forall mf : bool,
        bools w !! p = Some mf ->
        GetSilentFlag (currentCommand x) w = Returns (true, w) ->
        PrintInfo Arg Sprintf app format args w = Returns (None, w))
  /\ (bools w !! p = Some false ->
      GetSilentFlag (currentCommand x) w = Returns (false, w) ->
      PrintInfo Arg Sprintf app format args w
      = Print Arg Sprintf app format args w).
Proof.
  intros Happ Hp.
  split; [|split].
  - intros Hmf. by rewrite (PrintInfo_unfold _ _ _ _ _ _ _ _ _ Happ Hp Hmf).
  - intros mf Hmf Hsilent.
    rewrite (PrintInfo_unfold _ _ _ _ _ _ _ _ _ Happ Hp Hmf).
    destruct mf; [done|]. by rewrite (bind_step _ _ _ _ _ Hsilent).
  - intros Hmf Hsilent.
    rewrite (PrintInfo_unfold _ _ _ _ _ _ _ _ _ Happ Hp Hmf).
    by rewrite (bind_step _ _ _ _ _ Hsilent).
Qed.

End Info.

Lemma PrintInfo_suppression_witness :
  PrintInfo string plain_Sprintf 0 "done" [] flagged_world
  = Returns (None, flagged_world).
Proof.
  destruct (PrintInfo_suppression string plain_Sprintf flagged_world 0
              (mkApplication "app" "" "" "" None false false (Some 0) None None
                 None [] (Some (cobra.at_root 0)) (Some []) (Some []) (Some 0))
              0 "done" [] eq_refl eq_refl) as [H _].
  apply H. reflexivity.
Defined.

(** The silent flag mutes a human-friendly run; without it the message is
    printed. *)
Example PrintInfo_silent :
  PrintInfo string plain_Sprintf 0 "done" [] silent_world
  = Returns (None, silent_world).
Proof. vm_compute. reflexivity. Qed.

Example PrintInfo_prints :
  PrintInfo string plain_Sprintf 0 "done" [] built_world
  = Returns (None,
             set_stdout built_world
               {| io.written := "done" +:+ gostrings.crlf; io.broken := None |}).
Proof. vm_compute. reflexivity. Qed.

(** ** C6: PrintObject *)

Section Objects.

Variable Object : Type.
Variable Filter : Type.
Variable tableprinter_Print : io.Ref -> Object -> list Filter -> M unit.
Variable search : string -> Object -> Object + string.
Variable marshal : Object -> string + string.
Variable marshalIndent : Object -> string + string.

(** The reader of the mode flag answers what the flag holds. *)
Lemma GetMachineFriendlyFlagFrom_holds (set : pflag.FlagSet) (b : bool) w :
  mode_flag_holds w set b ->
  GetMachineFriendlyFlagFrom set w = Returns (b, w).
Proof.
  intros (flag & Hset & Hval).
  unfold GetMachineFriendlyFlagFrom, pflag.GetBool, pflag.Lookup.
  rewrite Hset. destruct (pflag.value flag) as [c|type text]; simpl.
  - rewrite Hval. by destruct b.
  - destruct Hval as [-> Hparse]. simpl. by rewrite Hparse.
Qed.

(** Claim C6.  For a command of a stored tree, writing to the output of
    its root:
    - in table mode, that is when the machine-friendly flag is absent
      from the command's flag set or holds false, [PrintObject] hands
      the value and the filters to the table renderer and returns nil,
      whatever the getters of the no-pretty and query-path flags and the
      serializer are (they are not called);
    - in machine-friendly mode, that is when the flag holds true, the
      no-pretty flag and then the query-path flag are read, the value is
      filtered by the query path unless that is empty, serialized
      indented unless no-pretty is set, and written; a failure of the
      filter, the serializer or the write is the error returned, and
      the table renderer is not called, whatever it is. *)
Theorem PrintObject_modes w p top node v filters :
  roots w !! cobra.root p = Some top ->
  cobra.descend top (cobra.path p) = Some node ->
  let out := cobra.OutOrStdout top in
  (table_mode w (cobra.Flags node) ->
     forall GetJSONNoPrettyFlag GetJSONQueryFlag WriteJSON' w1,
       tableprinter_Print out v filters w = Returns (tt, w1) ->
       PrintObject Object Filter GetJSONNoPrettyFlag GetJSONQueryFlag
         WriteJSON' tableprinter_Print (Some p) v filters w
       = Returns (None, w1))
  /\ (machine_friendly_mode w (cobra.Flags node) ->
      forall GetJSONNoPrettyFlag GetJSONQueryFlag tableprinter_Print'
             noPretty query w1 w2,
        GetJSONNoPrettyFlag (Some p) w = Returns (noPretty, w1) ->
        GetJSONQueryFlag (Some p) w1 = Returns (query, w2) ->
        PrintObject Object Filter GetJSONNoPrettyFlag GetJSONQueryFlag
          (WriteJSON Object search marshal marshalIndent)
          tableprinter_Print' (Some p) v filters w
        = match (if String.eqb query "" then inl v else search query v) with
          | inr e => Returns (Some e, w2)
          | inl v' =>
              match (if noPretty then marshal v' else marshalIndent v') with
              | inr e => Returns (Some e, w2)
              | inl text => write_to out text w2
              end
          end).
Proof.
  intros Htop Hnode out.
  assert (forall G1 G2 WJ TP mf,
             GetMachineFriendlyFlagFrom (cobra.Flags node) w = Returns (mf, w) ->
             PrintObject Object Filter G1 G2 WJ TP (Some p) v filters w
             = (if mf
                then noPretty <~ G1 (Some p) ;;
                     jmesQueryPathFlagValue <~ G2 (Some p) ;;
                     WJ out v (negb noPretty) jmesQueryPathFlagValue
                else TP out v filters ;;; ret None) w) as Hrun.
  { intros G1 G2 WJ TP mf Hmf. unfold PrintObject.
    rewrite (bind_step _ _ _ p w) by done.
    rewrite (bind_step _ _ _ top w); [|by unfold load_root, deref; rewrite Htop].
    rewrite (bind_step _ _ _ mf w); [done|].
    unfold GetMachineFriendlyFlag, load_cmd.
    rewrite (bind_step _ _ _ node w); [done|].
    rewrite (bind_step _ _ _ top w); [|by unfold load_root, deref; rewrite Htop].
    by rewrite Hnode. }
  split.
  - intros Hmode G1 G2 WJ w1 Htable.
    assert (GetMachineFriendlyFlagFrom (cobra.Flags node) w = Returns (false, w))
      as Hmf.
    { destruct Hmode as [Habsent|Hfalse].
      - by apply GetMachineFriendlyFlagFrom_absent.
      - by apply GetMachineFriendlyFlagFrom_holds. }
    rewrite (Hrun _ _ _ _ false Hmf).
    by rewrite (bind_step _ _ _ _ _ Htable).
  - intros Hmode G1 G2 TP noPretty query w1 w2 Hnp Hq.
    rewrite (Hrun _ _ _ _ true (GetMachineFriendlyFlagFrom_holds _ _ _ Hmode)).
    rewrite (bind_step _ _ _ _ _ Hnp), (bind_step _ _ _ _ _ Hq).
    unfold WriteJSON.
    destruct (if String.eqb query "" then inl v else search query v)
      as [v'|e]; [|done].
    destruct noPretty; simpl; by destruct (_ v').
Qed.

End Objects.

(** On the root of the built application, after the engine has parsed
    [--machine-friendly]: the flag is bound to the mode cell, which holds
    true, and the value is serialized, indented; with the cell back at
    false the same command prints the table. *)
Lemma PrintObject_modes_witness :
  PrintObject string unit (answers false) (answers "")
    (WriteJSON string no_search compact indented) table_writes
    (Some (cobra.at_root 0)) "NAME" [] parsed_world
  = Returns (None,
             set_stdout parsed_world
               {| io.written := "{ NAME }"; io.broken := None |})
  /\ PrintObject string unit never_asked never_asked no_serializer
       table_writes (Some (cobra.at_root 0)) "NAME  STATE" []
       (set_bools parsed_world [false])
     = Returns (None,
                set_stdout (set_bools parsed_world [false])
                  {| io.written := "NAME  STATE"; io.broken := None |}).
Proof.
  destruct (roots parsed_world !! 0) as [top|] eqn:Htop; [|discriminate].
  split.
  - destruct (PrintObject_modes string unit table_writes
                no_search compact indented
                parsed_world (cobra.at_root 0) top top "NAME" []
                Htop eq_refl) as [_ Hjson].
    injection Htop as <-.
    apply (Hjson
             ltac:(by eexists; split; [reflexivity|])
             (answers false) (answers "") table_writes false ""
             parsed_world parsed_world eq_refl eq_refl).
  - destruct (PrintObject_modes string unit table_writes
                no_search compact indented
                (set_bools parsed_world [false]) (cobra.at_root 0) top top
                "NAME  STATE" [] Htop eq_refl) as [Htable _].
    injection Htop as <-.
    apply Htable.
    + right. eexists. split; [reflexivity|]. reflexivity.
    + reflexivity.
Defined.

(** In machine-friendly mode the text is indented unless no-pretty is
    set, and a failing serializer is reported. *)
Example PrintObject_machine_friendly :
  let out := io.Stdout in
  WriteJSON string (fun _ v => inl v) (fun v => inl ("{" +:+ v +:+ "}"))
    (fun v => inl ("{ " +:+ v +:+ " }")) out "a" true "" empty_world
  = Returns (None, set_stdout empty_world
                     {| io.written := "{ a }"; io.broken := None |})
  /\ WriteJSON string (fun _ v => inl v) (fun v => inl ("{" +:+ v +:+ "}"))
       (fun v => inl ("{ " +:+ v +:+ " }")) out "a" false "" empty_world
     = Returns (None, set_stdout empty_world
                        {| io.written := "{a}"; io.broken := None |})
  /\ WriteJSON string (fun _ v => inl v) (fun _ => inr "unsupported type")
       (fun _ => inr "unsupported type") out "a" true "" empty_world
     = Returns (Some "unsupported type", empty_world).
Proof. repeat split. Qed.

(** ** C1: GetCommand follows first children only *)

Lemma getCommand_unfold from name :
  getCommand from name
  = match cobra.Commands from with
    | c :: _ =>
        if String.eqb (cobra.Name c) name then Some [0]
        else cons 0 <$> getCommand c name
    | [] => None
    end.
Proof. by destruct from. Qed.

Lemma first_children_unfold c :
  first_children c
  = match cobra.Commands c with
    | c1 :: _ => c1 :: first_children c1
    | [] => []
    end.
Proof. by destruct c. Qed.

(** [getCommand] answers the first command on the first-child chain that
    carries the name, by its path, which consists of zeros. *)
Lemma getCommand_chain name : forall chain from,
  first_children from = chain ->
  getCommand from name
  = (fun k => replicate (S k) 0) <$> first_slot name (cobra.Name <$> chain).
Proof.
  induction chain as [|c1 chain IH]; intros from Hchain;
    rewrite getCommand_unfold; rewrite first_children_unfold in Hchain;
    destruct (cobra.Commands from) as [|c rest]; try done.
  injection Hchain as -> Hchain. simpl.
  destruct (String.eqb (cobra.Name c1) name); [done|].
  rewrite (IH c1 Hchain). by destruct (first_slot _ _).
Qed.

Lemma first_slot_absent name names :
  Forall (fun n => n <> name) names -> first_slot name names = None.
Proof.
  intros H. apply first_slot_None. intros i Hi.
  eapply Forall_lookup_1 in H; [|exact Hi]. done.
Qed.

(** Claim C1, as amended.  For a registered application with its root,
    [GetCommand] looks at the first child of each node only: it answers
    the first command on the first-child chain below the root whose name
    is the one asked for, and no other command of the tree is ever
    examined.  Hence, when the target is the second child of the root's
    first child, the root's first child has another name and no command
    on the first-child chain below it has the target's name, the answer
    is not-found. *)
Theorem GetCommand_first_child_chain w appName a x r top name :
  GetByName appName w = Returns (Some a, w) ->
  apps w !! a = Some x ->
  CobraCommand x = Some r ->
  roots w !! r = Some top ->
  GetCommand appName name w
  = Returns ((fun k => {| cobra.root := r; cobra.path := replicate (S k) 0 |})
               <$> first_slot name (cobra.Name <$> first_children top), w)
  /\ forall a1 rest x1 t rest',
       cobra.Commands top = a1 :: rest ->
       cobra.Commands a1 = x1 :: t :: rest' ->
       cobra.Name t = name ->
       cobra.Name a1 <> name ->
       Forall (fun c => cobra.Name c <> name) (first_children a1) ->
       GetCommand appName name w = Returns (None, w).
Proof.
  intros Hreg Ha Hr Htop.
  assert (GetCommand appName name w
          = Returns ((fun k => {| cobra.root := r;
                                  cobra.path := replicate (S k) 0 |})
                       <$> first_slot name (cobra.Name <$> first_children top),
                     w)) as Hrun.
  { unfold GetCommand. rewrite (bind_step _ _ _ _ _ Hreg).
    rewrite (bind_step _ _ _ x w); [|by unfold load_app, deref; rewrite Ha].
    rewrite Hr.
    rewrite (bind_step _ _ _ top w); [|by unfold load_root, deref; rewrite Htop].
    rewrite (getCommand_chain name _ top eq_refl).
    by destruct (first_slot _ _). }
  split; [exact Hrun|].
  intros a1 rest x1 t rest' Hkids Hgrand Ht Ha1 Hchain.
  rewrite Hrun, (first_children_unfold top), Hkids.
  rewrite first_slot_absent; [done|].
  rewrite fmap_cons. apply Forall_cons. split; [done|].
  by apply Forall_fmap.
Qed.

Lemma GetCommand_first_child_chain_witness :
  GetCommand "app" "list" flat_tree_world = Returns (None, flat_tree_world).
Proof.
  destruct (roots flat_tree_world !! 0) as [top|] eqn:Htop; [|discriminate].
  destruct (GetCommand_first_child_chain flat_tree_world "app" 0
              (mkApplication "app" "" "" "" None false false (Some 0) None None
                 None [] (Some (cobra.at_root 0)) (Some []) (Some []) (Some 0))
              0 top "list" eq_refl eq_refl eq_refl Htop) as [_ H].
  injection Htop as <-.
  apply (H flat_connector [] (command "config" []) (command "list" []) []);
    try reflexivity.
  - discriminate.
  - repeat constructor. discriminate.
Defined.

(** The claim as it stands fails: the target "list" is the second child
    of the root's first child "connector", which has another name, and
    yet [GetCommand] answers a command, the "list" below "config". *)
Lemma GetCommand_finds_namesake_on_chain :
  cobra.Commands <$> roots tree_world !! 0 = Some [connector]
  /\ cobra.Commands connector = [config; connector_list]
  /\ cobra.Name connector_list = "list"
  /\ cobra.Name connector <> "list"
  /\ GetCommand "app" "list" tree_world
     = Returns (Some {| cobra.root := 0; cobra.path := [0; 0; 0] |}, tree_world)
  /\ (top <~ load_root (Some 0) ;; ret (cobra.descend top [0; 0; 0])) tree_world
     = Returns (Some config_list, tree_world).
Proof. repeat split; try (vm_compute; reflexivity). discriminate. Qed.

(** A later sibling is not examined either: "list" as the second child
    of the root itself is not found. *)
Example GetCommand_skips_second_child :
  getCommand (command "app" [command "config" []; command "list" []]) "list"
  = None.
Proof. reflexivity. Qed.

(** ** C3: which operations can panic *)

Lemma GetByName_range_returns store name entries :
  Forall (fun a => is_Some (store !! a)) entries ->
  exists o, GetByName_range store name entries = Returns o.
Proof.
  induction 1 as [|a entries [x Hx] Hok [o IH]]; simpl; [by eexists|].
  rewrite Hx. destruct (String.eqb (Name x) name); by eexists.
Qed.

Lemma GetSilentFlag_no_flags w r top :
  roots w !! r = Some top ->
  cobra.flags top = ∅ ->
  GetSilentFlag (Some (cobra.at_root r)) w = Returns (false, w).
Proof.
  intros Hr Hflags. unfold GetSilentFlag, load_cmd.
  rewrite (bind_step _ _ _ top w); [|].
  - unfold cobra.Flags, pflag.GetBool, pflag.Lookup. by rewrite Hflags.
  - rewrite (bind_step _ _ _ top w); [done|].
    unfold load_root, deref. simpl. by rewrite Hr.
Qed.

Lemma descend_prefix top p1 : forall p2 node,
  cobra.descend top (p1 ++ p2) = Some node ->
  is_Some (cobra.descend top p1).
Proof.
  revert top. induction p1 as [|i p1 IH]; intros top p2 node; simpl;
    [by eexists|].
  destruct (cobra.commands top !! i); [|done]. apply IH.
Qed.

Lemma GetByName_returns w name :
  registry_ok w -> exists o, GetByName name w = Returns (o, w).
Proof.
  intros Hok.
  destruct (GetByName_range_returns (apps w) name (applications w) Hok)
    as [o Ho].
  exists o. unfold GetByName, lift. by rewrite Ho.
Qed.

Lemma Get_from_returns w r top :
  registry_ok w ->
  roots w !! r = Some top ->
  forall up, is_Some (cobra.descend top (rev up)) ->
  exists o, Get_from r up w = Returns (o, w).
Proof.
  intros Hok Hr. induction up as [|i up IH]; intros [node Hnode].
  - cbn [Get_from].
    rewrite (bind_step _ _ _ node w).
    2: { unfold load_cmd. cbn [cobra.root cobra.path].
         rewrite (bind_step _ _ _ top w);
           [|by unfold load_root, deref; rewrite Hr].
         by rewrite Hnode. }
    destruct (GetByName_returns w (cobra.Name node) Hok) as [o Ho].
    rewrite (bind_step _ _ _ _ _ Ho). destruct o; by eexists.
  - cbn [Get_from].
    rewrite (bind_step _ _ _ node w).
    2: { unfold load_cmd. cbn [cobra.root cobra.path].
         rewrite (bind_step _ _ _ top w);
           [|by unfold load_root, deref; rewrite Hr].
         by rewrite Hnode. }
    destruct (GetByName_returns w (cobra.Name node) Hok) as [o Ho].
    rewrite (bind_step _ _ _ _ _ Ho). destruct o; [by eexists|].
    apply IH. simpl in Hnode. by apply descend_prefix in Hnode.
Qed.

Lemma GetByName_range_elem store name entries a :
  GetByName_range store name entries = Returns (Some a) -> a ∈ entries.
Proof.
  induction entries as [|a0 entries IH]; simpl; [discriminate|].
  destruct (store !! a0) as [x|]; [|discriminate].
  destruct (String.eqb (Name x) name).
  - intros [= <-]. by left.
  - intros H. right. by apply IH.
Qed.

Lemma registry_built_ok w : registry_built w -> registry_ok w.
Proof.
  unfold registry_built, registry_ok. intros H.
  eapply Forall_impl; [exact H|].
  intros a (x & r & Hx & _). by eexists.
Qed.

Lemma GetBool_returns h (fs : pflag.FlagSet) name :
  (forall flag c, fs !! name = Some flag ->
                  pflag.value flag = pflag.BoolCell c -> is_Some (h !! c)) ->
  exists b e, pflag.GetBool h fs name = Returns (b, e).
Proof.
  intros Hcells. unfold pflag.GetBool, pflag.Lookup.
  destruct (fs !! name) as [flag|] eqn:Hflag; [|by eexists _, _].
  destruct (negb _); [by eexists _, _|].
  destruct (pflag.value flag) as [c|type text] eqn:Hval; simpl.
  - destruct (Hcells flag c eq_refl Hval) as [b0 ->].
    destruct (strconv.ParseBool _); by eexists _, _.
  - destruct (strconv.ParseBool _); by eexists _, _.
Qed.

Lemma load_cmd_live w p top node :
  roots w !! cobra.root p = Some top ->
  cobra.descend top (cobra.path p) = Some node ->
  load_cmd (Some p) w = Returns (node, w).
Proof.
  intros Htop Hnode. unfold load_cmd.
  rewrite (bind_step _ _ _ top w); [|by unfold load_root, deref; rewrite Htop].
  by rewrite Hnode.
Qed.

Lemma GetSilentFlag_returns w p :
  live_command w p -> exists b, GetSilentFlag (Some p) w = Returns (b, w).
Proof.
  intros (top & node & Htop & Hnode & Hflags & _). unfold GetSilentFlag.
  rewrite (bind_step _ _ _ _ _ (load_cmd_live _ _ _ _ Htop Hnode)).
  destruct (GetBool_returns (bools w) (cobra.Flags node) silentFlagKey)
    as (b & e & ->); [by intros flag c; apply Hflags|].
  by eexists.
Qed.

Lemma GetMachineFriendlyFlag_returns w p :
  live_command w p ->
  exists b, GetMachineFriendlyFlag (Some p) w = Returns (b, w).
Proof.
  intros (top & node & Htop & Hnode & Hflags & _).
  unfold GetMachineFriendlyFlag.
  rewrite (bind_step _ _ _ _ _ (load_cmd_live _ _ _ _ Htop Hnode)).
  unfold GetMachineFriendlyFlagFrom.
  destruct (GetBool_returns (bools w) (cobra.Flags node) machineFriendlyFlagKey)
    as (b & e & ->); [by intros flag c; apply Hflags|].
  by eexists.
Qed.

Lemma write_to_returns w out b :
  is_Some (writer_at w out) -> exists e w', write_to out b w = Returns (e, w').
Proof.
  intros [o Ho]. rewrite (write_to_spec _ _ _ _ Ho). by eexists _, _.
Qed.

Section PublicOperations.

Variable Arg : Type.
Variable Sprintf : string -> list Arg -> string.
Variable Object : Type.
Variable Filter : Type.
Variable GetJSONNoPrettyFlag : option cobra.Ptr -> M bool.
Variable GetJSONQueryFlag : option cobra.Ptr -> M string.
Variable tableprinter_Print : io.Ref -> Object -> list Filter -> M unit.
Variable search : string -> Object -> Object + string.
Variable marshal : Object -> string + string.
Variable marshalIndent : Object -> string + string.
Variable cobra_Find :
  cobra.Command -> list string -> option (list nat * list string).
Variable os_Args : list string.
Variable cobra_ParseFlags : loc -> list string -> M error.
Variable cobra_Execute : loc -> M error.
Variable ExecuteWithSpinner : loc -> M error.
Variable ackError : option FriendlyErrorTable -> error -> error.

Hypothesis no_pretty_reads : reads_flag GetJSONNoPrettyFlag.
Hypothesis query_reads : reads_flag GetJSONQueryFlag.
Hypothesis table_renders : renders tableprinter_Print.
Hypothesis engine_parses : parses cobra_ParseFlags.
Hypothesis engine_executes : executes cobra_Execute.
Hypothesis spinner_executes : executes ExecuteWithSpinner.

Lemma PrintObject_returns w p v filters :
  live_command w p ->
  exists e w',
    PrintObject Object Filter GetJSONNoPrettyFlag GetJSONQueryFlag
      (WriteJSON Object search marshal marshalIndent)
      tableprinter_Print (Some p) v filters w
    = Returns (e, w').
Proof.
  intros Hlive. pose proof Hlive as (top & node & Htop & Hnode & _ & Hout).
  unfold PrintObject.
  rewrite (bind_step _ _ _ p w) by done.
  rewrite (bind_step _ _ _ top w); [|by unfold load_root, deref; rewrite Htop].
  destruct (GetMachineFriendlyFlag_returns w p Hlive) as [mf Hmf].
  rewrite (bind_step _ _ _ _ _ Hmf). destruct mf.
  - destruct (no_pretty_reads p w Hlive) as [noPretty Hnp].
    destruct (query_reads p w Hlive) as [query Hq].
    rewrite (bind_step _ _ _ _ _ Hnp), (bind_step _ _ _ _ _ Hq).
    unfold WriteJSON.
    destruct (if String.eqb query "" then _ else _) as [v'|e];
      [|by eexists _, _].
    destruct (if negb noPretty then _ else _) as [text|e];
      [|by eexists _, _].
    by apply write_to_returns.
  - destruct (table_renders (cobra.OutOrStdout top) v filters w Hout)
      as [w' Htable].
    rewrite (bind_step _ _ _ _ _ Htable). by eexists _, _.
Qed.

Lemma Print_returns w app x r format args :
  apps w !! app = Some x ->
  CobraCommand x = Some r ->
  live_command w (cobra.at_root r) ->
  exists e w', Print Arg Sprintf app format args w = Returns (e, w').
Proof.
  intros Happ Hr (top & node & Htop & _ & _ & [o Ho]). simpl in Htop.
  rewrite (Print_spec _ _ w app (cobra.OutOrStdout top) o); [by eexists _, _| |done].
  unfold target. by rewrite Happ, Hr, Htop.
Qed.

Lemma Run_returns w app output args r w1 x top :
  Build app w = Returns (r, w1) ->
  apps w1 !! app = Some x ->
  roots w1 !! r = Some top ->
  (ShowSpinner x = true ->
     exists c, MachineFriendly x = Some c /\ is_Some (bools w1 !! c)) ->
  exists e w',
    Run os_Args cobra_ParseFlags cobra_Execute ExecuteWithSpinner ackError
      app output args w
    = Returns (e, w').
Proof.
  intros HB Hx Htop Hmode. unfold Run.
  rewrite (bind_step _ _ _ _ _ HB).
  rewrite (bind_step _ _ _ top w1) by (by unfold load_root, deref; rewrite Htop).
  set (out := match output with None => io.Stdout | Some o => o end).
  set (w2 := set_roots w1 (<[r := cobra.SetOutput top (Some out)]> (roots w1))).
  rewrite (bind_step _ _ _ tt w2) by (by unfold store_root; rewrite Htop).
  rewrite (bind_step _ _ _ (cobra.SetOutput top (Some out)) w2).
  2: { unfold load_root, deref. subst w2. cbn.
       rewrite list_lookup_insert_eq; [done|]. by eapply lookup_lt_Some. }
  set (args' := if (_ && _)%bool then _ else _).
  assert (exists w3,
             (if negb (cobra.DisableFlagParsing (cobra.SetOutput top (Some out)))
              then cobra_ParseFlags r args' ;;; ret tt
              else ret tt) w2 = Returns (tt, w3)
             /\ apps w3 = apps w1
             /\ List.length (bools w1) <= List.length (bools w3))
    as (w3 & Hparse & Happs & Hcells).
  { destruct (negb _).
    - destruct (engine_parses r args' w2) as (e & w3 & Hp & Ha & Hb).
      exists w3. by rewrite (bind_step _ _ _ _ _ Hp).
    - by exists w2. }
  rewrite (bind_step _ _ _ _ _ Hparse).
  assert (apps w3 !! app = Some x) as Hx3 by (by rewrite Happs).
  rewrite (bind_step _ _ _ x w3) by (by unfold load_app, deref; rewrite Hx3).
  set (w4 := set_apps w3 (<[app := set_commands x []]> (apps w3))).
  rewrite (bind_step _ _ _ tt w4) by (by unfold store_app; rewrite Hx3).
  rewrite (bind_step _ _ _ (set_commands x []) w4).
  2: { unfold load_app, deref. subst w4. cbn.
       rewrite list_lookup_insert_eq; [done|]. by eapply lookup_lt_Some. }
  cbn [ShowSpinner set_commands MachineFriendly FriendlyErrors].
  assert (exists spin w5,
             (if ShowSpinner x
              then mf <~ deref bools (MachineFriendly x) ;; ret (negb mf)
              else ret false) w4 = Returns (spin, w5))
    as (spin & w5 & Hspin).
  { destruct (ShowSpinner x); [|by eexists _, _].
    destruct (Hmode eq_refl) as (c & Hc & Hcell).
    assert (is_Some (bools w4 !! c)) as [mf Hmf].
    { apply lookup_lt_is_Some. apply lookup_lt_is_Some in Hcell.
      subst w4. cbn. lia. }
    exists (negb mf), w4.
    rewrite (bind_step _ _ _ mf w4); [done|].
    unfold deref. by rewrite Hc, Hmf. }
  rewrite (bind_step _ _ _ _ _ Hspin).
  destruct spin.
  - destruct (spinner_executes r w5) as (e & w6 & He).
    rewrite (bind_step _ _ _ _ _ He). by eexists _, _.
  - destruct (engine_executes r w5) as (e & w6 & He).
    rewrite (bind_step _ _ _ _ _ He). by eexists _, _.
Qed.

Lemma Build_establishes_built w app x r w' :
  registry_built w ->
  apps w !! app = Some x ->
  CobraCommand x = None ->
  cells_persist x ->
  Build app w = Returns (r, w') ->
  built w' app /\ registry_built w'.
Proof.
  intros Hreg Happ Hunbuilt Hpersist H.
  assert (Build app w = Build_fresh app x w) as Heq.
  { unfold Build. rewrite (bind_step _ _ _ x w).
    - by rewrite Hunbuilt.
    - unfold load_app, deref. by rewrite Happ. }
  rewrite Heq in H. apply Build_fresh_inv in H
    as (x' & top & -> & Hconf & Hroots & Happs & _ & _ & _ & HM & HC & Hcur
          & _ & _ & _ & Hflags & Hout & Hregister).
  assert (apps w' !! app = Some x') as Happ'.
  { rewrite Happs. apply list_lookup_insert_eq. by eapply lookup_lt_Some. }
  assert (roots w' !! List.length (roots w) = Some top) as Htop.
  { rewrite Hroots. by rewrite lookup_app_r, Nat.sub_diag. }
  assert (live_command w' (cobra.at_root (List.length (roots w)))) as Hlive.
  { exists top, top. split; [done|]. split; [done|]. split.
    - intros name flag c Hf. unfold cobra.Flags in Hf. by rewrite Hflags in Hf.
    - unfold cobra.OutOrStdout. rewrite Hout. by eexists. }
  split.
  - exists x', (List.length (roots w)), (List.length (bools w)),
      (cobra.at_root (List.length (roots w))).
    repeat split; try done.
    apply lookup_lt_is_Some.
    pose proof (configured_persist _ _ _ Hpersist Hconf) as Hlen.
    rewrite length_app in Hlen. simpl in Hlen. lia.
  - assert (forall a, (exists y r, apps w !! a = Some y
                                   /\ CobraCommand y = Some r
                                   /\ is_Some (roots w !! r)) ->
                      exists y r, apps w' !! a = Some y
                                  /\ CobraCommand y = Some r
                                  /\ is_Some (roots w' !! r)) as Hkeep.
    { intros a (y & r & Hy & Hr & Hroot).
      destruct (decide (a = app)) as [->|Hne].
      - exists x', (List.length (roots w)). by rewrite Htop.
      - exists y, r. rewrite Happs, list_lookup_insert_ne by done.
        split; [done|]. split; [done|].
        rewrite Hroots. apply lookup_lt_is_Some. rewrite length_app.
        apply lookup_lt_is_Some in Hroot. lia. }
    unfold registry_built in *.
    unfold registerApplication in Hregister. cbn in Hregister.
    destruct (registerApplication_range _ _ _ _) as [[i|]|];
      [| |discriminate]; injection Hregister as Hw'.
    + rewrite <- Hw' at 1. cbn.
      apply Forall_insert.
      * eapply Forall_impl; [exact Hreg|]. exact Hkeep.
      * exists x', (List.length (roots w)). by rewrite Htop.
    + rewrite <- Hw' at 1. cbn.
      apply Forall_app. split.
      * eapply Forall_impl; [exact Hreg|]. exact Hkeep.
      * constructor; [|constructor].
        exists x', (List.length (roots w)). by rewrite Htop.
Qed.


End PublicOperations.

(** The sample collaborators behave as assumed, and the sample world in
    which the engine has parsed [--machine-friendly] is one in which the
    application is built and registered. *)
Lemma answers_reads {A} (a : A) : reads_flag (answers a).
Proof. intros p w _. by exists a. Qed.

Lemma table_writes_renders : renders table_writes.
Proof.
  intros out v filters w Hout. unfold table_writes.
  destruct (write_to_returns w out v Hout) as (e & w' & Hw).
  rewrite (bind_step _ _ _ _ _ Hw). by eexists.
Qed.

Lemma parse_nothing_parses : parses parse_nothing.
Proof. intros r args w. by exists None, w. Qed.

Lemma execute_nothing_executes : executes execute_nothing.
Proof. intros r w. by exists None, w. Qed.

Lemma parsed_world_registry : registry_built parsed_world.
Proof.
  constructor; [|constructor].
  destruct (apps parsed_world !! 0) as [x|] eqn:Hx; [|discriminate].
  exists x, 0. split; [done|]. injection Hx as <-. split; [done|].
  by eexists.
Qed.

Lemma parsed_world_built : built parsed_world 0.
Proof.
  assert (live_command parsed_world (cobra.at_root 0)) as Hlive.
  { destruct (roots parsed_world !! 0) as [top|] eqn:Htop; [|discriminate].
    exists top, top. split; [done|]. split; [done|].
    injection Htop as <-. split; [|by eexists].
    intros name flag c Hflag Hval.
    change (cobra.Flags _)
      with (<[machineFriendlyFlagKey := machineFriendlyFlag 0]>
              (∅ : pflag.FlagSet)) in Hflag.
    apply lookup_insert_Some in Hflag as [[_ <-]|[_ Hempty]];
      [|by rewrite lookup_empty in Hempty].
    injection Hval as <-. by eexists. }
  destruct (apps parsed_world !! 0) as [x|] eqn:Hx; [|discriminate].
  exists x, 0, 0, (cobra.at_root 0). split; [done|].
  injection Hx as <-. repeat split; try done; by eexists.
Qed.



(** ** Build on an application with pending commands *)

(** The pending commands become the children of the root in name order,
    the pending list is cleared, and the root takes the example text of
    its first child. *)
Example Build_attaches_pending :
  let zeta := cobra.with_Example (command "zeta" []) "app zeta --all" in
  let alpha := cobra.with_Example (command "alpha" []) "app alpha" in
  match Build 0 (world_of [set_commands (blank "app") [zeta; alpha]]) with
  | Returns (r, w) =>
      fmap cobra.Name <$> (cobra.Commands <$> roots w !! r)
        = Some ["alpha"; "zeta"]
      /\ cobra.Example <$> roots w !! r = Some "app alpha"
      /\ commands <$> apps w !! 0 = Some []
      /\ applications w = [0]
  | Panics _ => False
  end.
Proof. vm_compute. repeat split. Qed.

(** * Further properties of the package *)

(** ** The registry: lookup after registration *)

Lemma first_slot_lt name names i :
  first_slot name names = Some i -> i < List.length names.
Proof.
  intros [H _]%first_slot_Some. by apply lookup_lt_Some in H.
Qed.

Lemma first_slot_app name names more :
  first_slot name (names ++ more)
  = match first_slot name names with
    | Some i => Some i
    | None => (fun k => List.length names + k) <$> first_slot name more
    end.
Proof.
  induction names as [|n names IH]; simpl.
  - by destruct (first_slot name more).
  - destruct (String.eqb n name); [done|]. rewrite IH.
    destruct (first_slot name names); [done|].
    by destruct (first_slot name more).
Qed.

Lemma GetByName_range_spec store name entries :
  Forall (fun a => is_Some (store !! a)) entries ->
  GetByName_range store name entries
  = Returns (i ← first_slot name
                   ((fun a => match store !! a with
                              | Some x => Name x
                              | None => ""
                              end) <$> entries);
             entries !! i).
Proof.
  induction 1 as [|a entries [x Hx] Hok IH]; simpl; [done|].
  rewrite Hx. destruct (String.eqb (Name x) name); [done|].
  rewrite IH. by destruct (first_slot _ _).
Qed.

Lemma GetByName_spec w name :
  registry_ok w ->
  GetByName name w
  = Returns (i ← first_slot name (registered_names w); applications w !! i, w).
Proof.
  intros Hok. unfold GetByName, lift.
  by rewrite (GetByName_range_spec _ _ _ Hok).
Qed.

(** What a registration does to the registry, in terms of names. *)
Lemma registerApplication_effect w app y :
  registry_ok w ->
  apps w !! app = Some y ->
  exists w',
    registerApplication app w = Returns (tt, w')
    /\ w' = set_applications w (applications w')
    /\ registry_ok w'
    /\ match first_slot (Name y) (registered_names w) with
       | Some i => applications w' = <[i := app]> (applications w)
                   /\ registered_names w' = registered_names w
       | None => applications w' = applications w ++ [app]
                 /\ registered_names w' = registered_names w ++ [Name y]
       end.
Proof.
  intros Hok Hy. unfold registerApplication.
  rewrite (registerApplication_range_spec _ _ y) by done.
  change (first_slot (Name y) _) with (first_slot (Name y) (registered_names w)).
  destruct (first_slot (Name y) (registered_names w)) as [k|] eqn:Ek; simpl;
    eexists; (split; [done|]); (split; [done|]).
  - pose proof (first_slot_lt _ _ _ Ek) as Hlt.
    apply first_slot_Some in Ek as [Hk _].
    unfold registered_names in Hlt. rewrite length_fmap in Hlt.
    split; [|split; [done|]].
    + unfold registry_ok in *. simpl. apply Forall_insert; [done|by eexists].
    + unfold registered_names, name_at in *. simpl.
      rewrite list_fmap_insert. apply list_insert_id. by rewrite Hy.
  - split; [|split; [done|]].
    + unfold registry_ok in *. simpl. apply Forall_app. split; [done|].
      apply Forall_singleton. by eexists.
    + unfold registered_names, name_at. simpl. rewrite fmap_app. simpl.
      by rewrite Hy.
Qed.

Lemma register_then_lookup w app y :
  registry_ok w ->
  apps w !! app = Some y ->
  exists w',
    registerApplication app w = Returns (tt, w')
    /\ GetByName (Name y) w' = Returns (Some app, w')
    /\ forall name o,
         name <> Name y ->
         GetByName name w = Returns (o, w) ->
         GetByName name w' = Returns (o, w').
Proof.
  intros Hok Hy.
  destruct (registerApplication_effect w app y Hok Hy)
    as (w' & Hrun & Hw' & Hok' & Heff).
  exists w'. split; [done|].
  rewrite (GetByName_spec w' _ Hok').
  destruct (first_slot (Name y) (registered_names w)) as [k|] eqn:Ek.
  - destruct Heff as [Happs Hnames]. rewrite Hnames, Happs.
    pose proof (first_slot_lt _ _ _ Ek) as Hlt.
    unfold registered_names in Hlt. rewrite length_fmap in Hlt.
    split.
    + rewrite Ek. simpl. by rewrite list_lookup_insert_eq.
    + intros name o Hne. rewrite (GetByName_spec w _ Hok), (GetByName_spec w' _ Hok').
      rewrite Hnames, Happs. intros [= <-]. f_equal. f_equal.
      destruct (first_slot name (registered_names w)) as [j|] eqn:Ej; [|done].
      simpl. apply list_lookup_insert_ne. intros ->.
      apply first_slot_Some in Ek as [Hk _].
      apply first_slot_Some in Ej as [Hj _]. congruence.
  - destruct Heff as [Happs Hnames]. rewrite Hnames, Happs.
    split.
    + rewrite first_slot_app, Ek. simpl. rewrite String.eqb_refl. simpl.
      unfold registered_names. rewrite length_fmap, Nat.add_0_r.
      by rewrite lookup_app_r, Nat.sub_diag.
    + intros name o Hne. rewrite (GetByName_spec w _ Hok), (GetByName_spec w' _ Hok').
      rewrite Hnames, Happs. intros [= <-]. f_equal. f_equal.
      rewrite first_slot_app.
      destruct (first_slot name (registered_names w)) as [j|] eqn:Ej.
      * simpl. apply lookup_app_l.
        apply first_slot_lt in Ej. unfold registered_names in Ej.
        by rewrite length_fmap in Ej.
      * simpl. destruct (String.eqb (Name y) name) eqn:E; [|done].
        apply String.eqb_eq in E. congruence.
Qed.

(** Lookup after registration: the application just registered is the one
    its name looks up, and registering it does not change what any other
    name looks up. *)
Theorem GetByName_after_registerApplication w app y :
  registry_ok w ->
  apps w !! app = Some y ->
  exists w',
    registerApplication app w = Returns (tt, w')
    /\ GetByName (Name y) w' = Returns (Some app, w')
    /\ forall name o,
         name <> Name y ->
         GetByName name w = Returns (o, w) ->
         GetByName name w' = Returns (o, w').
Proof. apply register_then_lookup. Qed.

Lemma GetByName_after_registerApplication_witness :
  GetByName "alpha" (set_applications registry_world [2; 1])
  = Returns (Some 2, set_applications registry_world [2; 1])
  /\ GetByName "beta" (set_applications registry_world [2; 1])
     = Returns (Some 1, set_applications registry_world [2; 1]).
Proof.
  destruct (GetByName_after_registerApplication registry_world 2 (blank "alpha"))
    as (w' & Hrun & Hfound & Hother).
  - repeat constructor; by eexists.
  - reflexivity.
  - assert (w' = set_applications registry_world [2; 1]) as ->.
    { vm_compute in Hrun. by injection Hrun. }
    split; [exact Hfound|].
    apply Hother; [discriminate|reflexivity].
Defined.

(** The names in the registry stay pairwise distinct, none is ever lost,
    and the name just registered is among them. *)
Theorem registerApplication_keeps_names_distinct w app y :
  registry_ok w ->
  apps w !! app = Some y ->
  NoDup (registered_names w) ->
  exists w',
    registerApplication app w = Returns (tt, w')
    /\ NoDup (registered_names w')
    /\ (forall n, n ∈ registered_names w -> n ∈ registered_names w')
    /\ Name y ∈ registered_names w'.
Proof.
  intros Hok Hy Hnd.
  destruct (registerApplication_effect w app y Hok Hy)
    as (w' & Hrun & _ & _ & Heff).
  exists w'. split; [done|].
  destruct (first_slot (Name y) (registered_names w)) as [k|] eqn:Ek;
    destruct Heff as [_ ->].
  - split; [done|]. split; [done|].
    apply first_slot_Some in Ek as [Hk _]. by eapply list_elem_of_lookup_2.
  - split; [|split].
    + apply NoDup_app. split; [done|]. split; [|apply NoDup_singleton].
      intros n Hn ->%list_elem_of_singleton.
      apply list_elem_of_lookup in Hn as [i Hi].
      by eapply first_slot_None in Ek.
    + intros n Hn. apply elem_of_app. by left.
    + apply elem_of_app. right. by apply list_elem_of_singleton.
Qed.

Lemma registerApplication_keeps_names_distinct_witness :
  NoDup (registered_names (set_applications registry_world [2; 1])).
Proof.
  destruct (registerApplication_keeps_names_distinct registry_world 2
              (blank "alpha")) as (w' & Hrun & Hnd & _).
  - repeat constructor; by eexists.
  - reflexivity.
  - change (registered_names registry_world) with ["alpha"; "beta"].
    apply NoDup_cons. split; [|apply NoDup_singleton].
    rewrite list_elem_of_singleton. discriminate.
  - assert (w' = set_applications registry_world [2; 1]) as ->.
    { vm_compute in Hrun. by injection Hrun. }
    exact Hnd.
Defined.

(** [GetByName] never panics on a well-formed registry and changes
    nothing; it answers not-found exactly for the names that are not
    registered, and otherwise a registered application of that name. *)
Theorem GetByName_found_iff_registered w name :
  registry_ok w ->
  exists o,
    GetByName name w = Returns (o, w)
    /\ (o = None <-> name ∉ registered_names w)
    /\ (forall a, o = Some a ->
          a ∈ applications w /\ Name <$> apps w !! a = Some name).
Proof.
  intros Hok. rewrite (GetByName_spec w name Hok). eexists. split; [done|].
  destruct (first_slot name (registered_names w)) as [i|] eqn:Ei; simpl.
  - pose proof (first_slot_lt _ _ _ Ei) as Hlt.
    unfold registered_names in Hlt. rewrite length_fmap in Hlt.
    apply first_slot_Some in Ei as [Hi _].
    destruct (lookup_lt_is_Some_2 _ _ Hlt) as [a Ha]. rewrite Ha.
    split.
    + split; [done|]. intros Hnot. exfalso. apply Hnot.
      by eapply list_elem_of_lookup_2.
    + intros a' [= <-]. split; [by eapply list_elem_of_lookup_2|].
      unfold registered_names in Hi. rewrite list_lookup_fmap, Ha in Hi.
      simpl in Hi. injection Hi as Hi. unfold name_at in Hi.
      eapply Forall_lookup_1 in Hok as [x Hx]; [|exact Ha].
      rewrite Hx in Hi |- *. simpl. by rewrite Hi.
  - split; [|done]. split; [|done]. intros _ Hin.
    apply list_elem_of_lookup in Hin as [i Hi].
    by eapply first_slot_None in Ei.
Qed.

Lemma GetByName_found_iff_registered_witness :
  GetByName "gamma" registry_world = Returns (None, registry_world).
Proof.
  destruct (GetByName_found_iff_registered registry_world "gamma")
    as (o & Hrun & Hnone & _).
  - repeat constructor; by eexists.
  - rewrite Hrun. f_equal. f_equal. apply Hnone.
    change (registered_names registry_world) with ["alpha"; "beta"].
    rewrite !elem_of_cons, elem_of_nil. intros [H|[H|[]]]; discriminate H.
Defined.

(** ** The machine-friendly flag *)

(** Reading the flag never fails and changes nothing: the answer is
    [true] only for a flag that is defined, of type bool, and whose text
    reads as true; a missing flag, a flag of another type and a text that
    does not parse all read as [false]. *)
Theorem GetMachineFriendlyFlagFrom_reads (set : pflag.FlagSet) w :
  (forall flag q, set !! machineFriendlyFlagKey = Some flag ->
     pflag.value flag = pflag.BoolCell q -> is_Some (bools w !! q)) ->
  exists b,
    GetMachineFriendlyFlagFrom set w = Returns (b, w)
    /\ (b = true <->
        exists flag text,
          set !! machineFriendlyFlagKey = Some flag
          /\ pflag.Type_ (pflag.value flag) = "bool"
          /\ pflag.String_ (bools w) (pflag.value flag) = Returns text
          /\ strconv.ParseBool text = Some true).
Proof.
  intros Hcells.
  unfold GetMachineFriendlyFlagFrom, pflag.GetBool, pflag.Lookup.
  destruct (set !! machineFriendlyFlagKey) as [flag|] eqn:Hflag.
  2: { exists false. split; [done|]. split; [done|]. by intros (? & ? & ? & _). }
  destruct (String.eqb (pflag.Type_ (pflag.value flag)) "bool") eqn:Hty; simpl.
  2: { exists false. split; [done|]. split; [done|].
       intros (f & t & [= <-] & Hb & _). apply String.eqb_neq in Hty. done. }
  apply String.eqb_eq in Hty.
  assert (exists text, pflag.String_ (bools w) (pflag.value flag) = Returns text)
    as [text Htext].
  { destruct (pflag.value flag) as [q|ty s] eqn:Hv; simpl; [|by eexists].
    destruct (Hcells flag q eq_refl Hv) as [b ->]. by eexists. }
  rewrite Htext.
  destruct (strconv.ParseBool text) as [b|] eqn:Hparse.
  - exists b. split; [done|]. split.
    + intros ->. by exists flag, text.
    + intros (f & t & [= <-] & _ & Ht & Hp). rewrite Htext in Ht.
      injection Ht as <-. congruence.
  - exists false. split; [done|]. split; [done|].
    intros (f & t & [= <-] & _ & Ht & Hp). rewrite Htext in Ht.
    injection Ht as <-. congruence.
Qed.

Lemma GetMachineFriendlyFlagFrom_reads_witness :
  GetMachineFriendlyFlagFrom (<[machineFriendlyFlagKey := silent_flag]> ∅)
    cell_world
  = Returns (true, cell_world).
Proof.
  destruct (GetMachineFriendlyFlagFrom_reads
              (<[machineFriendlyFlagKey := silent_flag]> ∅) cell_world)
    as (b & Hrun & Htrue).
  - intros flag q Hflag Hq. vm_compute in Hflag. injection Hflag as <-.
    discriminate Hq.
  - rewrite Hrun. f_equal. f_equal. apply Htrue.
    exists silent_flag, "true". repeat split.
Defined.

(** A flag bound to a cell reads what the cell holds. *)
Lemma GetMachineFriendlyFlagFrom_bound (set : pflag.FlagSet) p (b : bool) w :
  set !! machineFriendlyFlagKey = Some (machineFriendlyFlag p) ->
  bools w !! p = Some b ->
  GetMachineFriendlyFlagFrom set w = Returns (b, w).
Proof.
  intros Hset Hp.
  by apply (GetMachineFriendlyFlagFrom_cell _ (machineFriendlyFlag p) p).
Qed.

(** Registration on a flag set that has no such flag: the flag is added,
    bound to the given cell or, for a nil pointer, to a fresh one; every
    other flag and every other cell is left alone; the bound cell is reset
    to [false] whatever it held; and from then on the flag reads whatever
    the cell holds. *)
Theorem Register_binds_cell (set : pflag.FlagSet) ptr w :
  set !! machineFriendlyFlagKey = None ->
  (forall q, ptr = Some q -> is_Some (bools w !! q)) ->
  let p := match ptr with Some q => q | None => List.length (bools w) end in
  exists w',
    RegisterMachineFriendlyFlagTo set ptr w
    = Returns (<[machineFriendlyFlagKey := machineFriendlyFlag p]> set, w')
    /\ bools w' !! p = Some false
    /\ (forall q, q <> p -> bools w' !! q = bools w !! q)
    /\ (forall name, name <> machineFriendlyFlagKey ->
          (<[machineFriendlyFlagKey := machineFriendlyFlag p]> set) !! name
          = set !! name)
    /\ (forall w'' (b : bool),
          bools w'' !! p = Some b ->
          GetMachineFriendlyFlagFrom
            (<[machineFriendlyFlagKey := machineFriendlyFlag p]> set) w''
          = Returns (b, w'')).
Proof.
  intros Hset Hptr p.
  assert (forall name, name <> machineFriendlyFlagKey ->
            (<[machineFriendlyFlagKey := machineFriendlyFlag p]> set) !! name
            = set !! name) as Hframe.
  { intros name Hne. by rewrite lookup_insert_ne. }
  assert (forall w'' (b : bool),
            bools w'' !! p = Some b ->
            GetMachineFriendlyFlagFrom
              (<[machineFriendlyFlagKey := machineFriendlyFlag p]> set) w''
            = Returns (b, w'')) as Hreads.
  { intros w'' b Hb. apply (GetMachineFriendlyFlagFrom_bound _ p); [|done].
    by rewrite lookup_insert_eq. }
  destruct ptr as [q|]; subst p.
  - destruct (Hptr q eq_refl) as [b Hb].
    exists (set_bools w (<[q := false]> (bools w))).
    split; [by apply (Register_absent _ _ b)|].
    split; [|split; [|done]]; simpl.
    + apply list_lookup_insert_eq. by eapply lookup_lt_Some.
    + intros q' Hne. by apply list_lookup_insert_ne.
  - exists (set_bools w (bools w ++ [false])).
    split; [|split; [|split; [|done]]]; simpl.
    + unfold RegisterMachineFriendlyFlagTo.
      rewrite (bind_step _ _ _ false w)
        by (by apply GetMachineFriendlyFlagFrom_absent).
      simpl.
      rewrite (bind_step _ _ _ (Some (List.length (bools w)))
                 (set_bools w (bools w ++ [false]))) by done.
      unfold pflag.BoolVar, pflag.AddFlag. simpl.
      rewrite lookup_app_r, Nat.sub_diag by done. simpl. rewrite Hset.
      f_equal. f_equal. destruct w; unfold set_bools; simpl. f_equal.
      apply list_insert_id. by rewrite lookup_app_r, Nat.sub_diag.
    + by rewrite lookup_app_r, Nat.sub_diag.
    + intros q Hne. destruct (decide (q < List.length (bools w))) as [Hlt|Hge].
      * by rewrite lookup_app_l.
      * rewrite !lookup_ge_None_2; [done|lia|].
        rewrite length_app. simpl. lia.
Qed.

Lemma Register_binds_cell_witness :
  RegisterMachineFriendlyFlagTo ∅ (Some 0) (set_bools empty_world [true])
  = Returns (registered_once, cell_world).
Proof.
  destruct (Register_binds_cell ∅ (Some 0) (set_bools empty_world [true]))
    as (w' & Hrun & _).
  - reflexivity.
  - intros q [= <-]. by eexists.
  - assert (w' = cell_world) as ->.
    { pose proof Hrun as H. vm_compute in H. by injection H. }
    exact Hrun.
Defined.

(** ** The root a building call creates *)

Lemma Build_attach_exact x rootCmd :
  Build_attach x rootCmd
  = (set_commands x [], fold_left cobra.AddCommand (commands x) rootCmd).
Proof.
  unfold Build_attach. destruct x as [? ? ? ? ? ? ? ? ? ? ? cs ? ? ? ?]; cbn.
  by destruct cs.
Qed.

Lemma Build_example_exact rootCmd c w w' :
  Build_example rootCmd w = Returns (c, w') ->
  c = (if cobra.HasAvailableSubCommands rootCmd
       then match cobra.Commands rootCmd with
            | c0 :: _ => cobra.with_Example rootCmd (cobra.Example c0)
            | [] => rootCmd
            end
       else rootCmd).
Proof.
  unfold Build_example. destruct (cobra.HasAvailableSubCommands rootCmd).
  - destruct (cobra.Commands rootCmd) as [|c0 cs]; [done|].
    simpl. by intros [= <- _].
  - by intros [-> _]%ret_Returns.
Qed.

Lemma Build_template_exact x rootCmd c w w' :
  Build_template x rootCmd w = Returns (c, w') ->
  c = match HelpTemplate x with
      | Some (Returns helpTmpl) =>
          if negb (String.eqb helpTmpl "")
          then cobra.SetVersionTemplate rootCmd helpTmpl else rootCmd
      | _ => rootCmd
      end.
Proof.
  unfold Build_template. destruct (HelpTemplate x) as [[t|e]|]; simpl.
  - unfold bind, lift. destruct (negb _); by intros [= <- _].
  - done.
  - by intros [-> _]%ret_Returns.
Qed.

Lemma set_bools_twice w h h' : set_bools (set_bools w h) h' = set_bools w h'.
Proof. by destruct w. Qed.

Lemma Build_flags_exact x rootCmd w x' rootCmd' w' :
  cobra.pflags rootCmd = ∅ ->
  Build_flags x rootCmd w = Returns ((x', rootCmd'), w') ->
  exists fs,
    rootCmd' = cobra.with_pflags rootCmd fs
    /\ match PersistentFlags x with
       | Some configure =>
           configure (registered_flags x (List.length (bools w)))
             (bools w ++ [false]) = Returns (fs, bools w')
       | None => fs = registered_flags x (List.length (bools w))
       end.
Proof.
  intros Hempty H. unfold Build_flags in H.
  inv_bind H as p w1 Hnew. unfold new_bool, alloc in Hnew. injection Hnew as <- <-.
  inv_bind H as fs0 w2 Hreg.
  cbn [DisableOutputFormatController set_MachineFriendly MachineFriendly] in Hreg.
  assert (fs0 = registered_flags x (List.length (bools w))
          /\ w2 = set_bools w (bools w ++ [false])) as [-> ->].
  { unfold registered_flags, cobra.PersistentFlags in *.
    destruct (DisableOutputFormatController x); simpl in Hreg.
    - apply ret_Returns in Hreg as [-> ->]. by rewrite Hempty.
    - rewrite Hempty in Hreg.
      rewrite (Register_absent _ _ false) in Hreg; [|done|].
      + injection Hreg as <- <-. split; [done|]. cbn [bools set_bools].
        rewrite list_insert_id by (by rewrite lookup_app_r, Nat.sub_diag).
        apply set_bools_twice.
      + simpl. by rewrite lookup_app_r, Nat.sub_diag. }
  inv_bind H as fs w3 Hcfg.
  apply ret_Returns in H as [[= -> ->] ->]. exists fs. split; [done|].
  cbn [PersistentFlags set_MachineFriendly] in Hcfg.
  destruct (PersistentFlags x) as [configure|].
  - unfold call_configurator in Hcfg. cbn [bools set_bools] in Hcfg.
    destruct (configure _ _) as [[fs1 h]|]; [|discriminate].
    by injection Hcfg as -> <-.
  - by apply ret_Returns in Hcfg as [-> _].
Qed.

Lemma Build_prepared_fields x :
  let x1 := Build_long (Build_defaults x) in
  DisableOutputFormatController x1 = DisableOutputFormatController x
  /\ commands x1 = commands x
  /\ ShowSpinner x1 = ShowSpinner x.
Proof.
  unfold Build_long, Build_defaults.
  destruct x as [? ? ? l ? ? ? ? ? ? ? ? ? fe mem ?]; cbn.
  destruct fe, mem; cbn; destruct (String.eqb l ""); done.
Qed.

(** The root of a building call, and the flags the configurator left. *)
Lemma Build_fresh_root app x w r w' :
  Build_fresh app x w = Returns (r, w') ->
  exists fs,
    roots w' !! r = Some (built_root app x fs)
    /\ match PersistentFlags x with
       | Some configure =>
           configure (registered_flags x (List.length (bools w)))
             (bools w ++ [false]) = Returns (fs, bools w')
       | None => fs = registered_flags x (List.length (bools w))
       end.
Proof.
  intros H. pose proof H as Hinv.
  apply Build_fresh_inv in Hinv as (x' & top & -> & _ & Hroots & _).
  unfold Build_fresh in H.
  rewrite useText_spec, Build_defaults_Name in H.
  inv_bind H as use w1 Huse. apply ret_Returns in Huse as [-> ->].
  inv_bind H as xr w1 Hflags. destruct xr as [x1 rc1].
  pose proof Hflags as Hw1.
  apply Build_flags_inv in Hw1 as (-> & Hw1 & _); [|done].
  apply Build_flags_exact in Hflags as (fs & -> & Hfs); [|done].
  cbn [fst snd] in H. rewrite Build_attach_exact in H. cbn [fst snd] in H.
  inv_bind H as rc2 w2 Hex. pose proof Hex as Hex'.
  apply Build_example_inv in Hex' as [-> _].
  apply Build_example_exact in Hex as ->.
  inv_bind H as rc3 w3 Htm. pose proof Htm as Htm'.
  apply Build_template_inv in Htm' as [-> _].
  apply Build_template_exact in Htm.
  apply Build_publish_inv in H as (_ & _ & Hreg).
  apply registerApplication_frame in Hreg.
  destruct (Build_prepared_callbacks x) as [HP HT].
  destruct (Build_prepared_fields x) as (HD & HC & _).
  exists fs. split.
  - rewrite Hroots, lookup_app_r, Nat.sub_diag by done. simpl. f_equal.
    rewrite Hreg in Hroots. cbn in Hroots.
    assert (roots w1 = roots w) as Hr1 by (by rewrite Hw1).
    rewrite Hr1 in Hroots.
    apply app_inv_head in Hroots. injection Hroots as <-.
    rewrite Htm. unfold built_root. cbn [HelpTemplate set_commands commands
      set_MachineFriendly]. by rewrite HT, HC.
  - rewrite HP in Hfs. unfold registered_flags in *. rewrite HD in Hfs.
    replace (bools w') with (bools w1); [done|].
    rewrite Hreg. by cbn.
Qed.

(** ** Build and the registry *)

Lemma GetByName_unregistered w name :
  registry_ok w ->
  name ∉ registered_names w ->
  GetByName name w = Returns (None, w).
Proof.
  intros Hok Hnot. rewrite (GetByName_spec w name Hok).
  destruct (first_slot name (registered_names w)) as [i|] eqn:Ei; [|done].
  apply first_slot_Some in Ei as [Hi _]. exfalso. apply Hnot.
  by eapply list_elem_of_lookup_2.
Qed.

Lemma Build_fresh_registry app x w r w' :
  registry_ok w ->
  apps w !! app = Some x ->
  Build_fresh app x w = Returns (r, w') ->
  registry_ok w'
  /\ GetByName (Name x) w' = Returns (Some app, w')
  /\ (forall name o,
        name <> Name x ->
        GetByName name w = Returns (o, w) ->
        GetByName name w' = Returns (o, w'))
  /\ (registered_names w' = registered_names w
      \/ registered_names w' = registered_names w ++ [Name x]).
Proof.
  intros Hok Hx0 H.
  apply Build_fresh_inv in H
    as (x' & top & _ & _ & _ & Happs & _ & _ & _ & _ & _ & _ & HN & _ & _
          & _ & _ & Hreg).
  set (w0 := mkWorld (bools w') (apps w') (roots w') (stdout w) (writers w)
               (applications w)) in *.
  assert (apps w0 !! app = Some x') as Hx'.
  { subst w0. cbn. rewrite Happs. apply list_lookup_insert_eq.
    by eapply lookup_lt_Some. }
  assert (forall a, name_at w0 a = name_at w a) as Hname.
  { intros a. unfold name_at. subst w0. cbn. rewrite Happs.
    destruct (decide (a = app)) as [->|Hne].
    - rewrite list_lookup_insert_eq by (by eapply lookup_lt_Some).
      by rewrite Hx0, HN.
    - by rewrite list_lookup_insert_ne. }
  assert (registered_names w0 = registered_names w) as Hnames.
  { unfold registered_names. subst w0. cbn. apply list_fmap_ext.
    intros i a _. apply Hname. }
  assert (registry_ok w0) as Hok0.
  { unfold registry_ok in *. subst w0. cbn. rewrite Happs.
    eapply Forall_impl; [exact Hok|]. intros a [z Hz].
    destruct (decide (a = app)) as [->|Hne].
    - rewrite list_lookup_insert_eq; [by eexists|]. by eapply lookup_lt_Some.
    - rewrite list_lookup_insert_ne by done. by eexists. }
  destruct (registerApplication_effect w0 app x' Hok0 Hx')
    as (w1 & Hrun & _ & Hok1 & Heff).
  destruct (register_then_lookup w0 app x' Hok0 Hx')
    as (w2 & Hrun2 & Hfound & Hother).
  rewrite Hreg in Hrun, Hrun2. injection Hrun as <-. injection Hrun2 as <-.
  rewrite HN in Hfound, Hother, Heff. rewrite Hnames in Heff.
  split; [done|]. split; [done|]. split.
  - intros name o Hne Hw. apply Hother; [done|].
    rewrite (GetByName_spec w0 _ Hok0), Hnames.
    rewrite (GetByName_spec w _ Hok) in Hw. injection Hw as <-.
    by subst w0.
  - destruct (first_slot (Name x) (registered_names w)); destruct Heff as [_ ->];
      [by left|by right].
Qed.

(** A building call registers the application: afterwards its name looks
    it up, what other names look up is unchanged, and the registry is
    well formed. *)
Theorem Build_registers w app x r w' :
  registry_ok w ->
  apps w !! app = Some x ->
  CobraCommand x = None ->
  Build app w = Returns (r, w') ->
  registry_ok w'
  /\ GetByName (Name x) w' = Returns (Some app, w')
  /\ forall name o,
       name <> Name x ->
       GetByName name w = Returns (o, w) ->
       GetByName name w' = Returns (o, w').
Proof.
  intros Hok Happ Hunbuilt H.
  assert (Build app w = Build_fresh app x w) as Heq.
  { unfold Build. rewrite (bind_step _ _ _ x w).
    - by rewrite Hunbuilt.
    - unfold load_app, deref. by rewrite Happ. }
  rewrite Heq in H.
  destruct (Build_fresh_registry _ _ _ _ _ Hok Happ H) as (? & ? & ? & _). done.
Qed.

Lemma Build_registers_witness :
  GetByName "app" built_world = Returns (Some 0, built_world).
Proof.
  destruct (Build_registers (world_of [blank "app"]) 0 (blank "app") 0 built_world)
    as (_ & H & _).
  - constructor.
  - reflexivity.
  - reflexivity.
  - vm_compute. reflexivity.
  - exact H.
Defined.

(** ** Get: from a command to its application *)

Lemma Get_from_walks w r top a :
  registry_ok w ->
  roots w !! r = Some top ->
  forall found : option loc,
  GetByName (cobra.Name top) w = Returns (found, w) ->
  (found = None -> a = None) ->
  (forall f, found = Some f -> a = Some f) ->
  forall up,
    is_Some (cobra.descend top (rev up)) ->
    (forall s c, s <> [] -> s `suffix_of` up ->
       cobra.descend top (rev s) = Some c ->
       cobra.Name c ∉ registered_names w) ->
    Get_from r up w = Returns (a, w).
Proof.
  intros Hok Hr found Hroot Hnone Hsome.
  induction up as [|i up IH]; intros [node Hnode] Hbelow.
  - cbn [Get_from]. simpl in Hnode. injection Hnode as <-.
    rewrite (bind_step _ _ _ top w).
    2: { unfold load_cmd. cbn [cobra.root cobra.path].
         by rewrite (bind_step _ _ _ top w)
           by (by unfold load_root, deref; rewrite Hr). }
    rewrite (bind_step _ _ _ _ _ Hroot).
    destruct found as [f|]; [by rewrite (Hsome f)|by rewrite Hnone].
  - cbn [Get_from].
    rewrite (bind_step _ _ _ node w).
    2: { unfold load_cmd. cbn [cobra.root cobra.path].
         rewrite (bind_step _ _ _ top w)
           by (by unfold load_root, deref; rewrite Hr).
         by rewrite Hnode. }
    rewrite (bind_step _ _ _ None w).
    2: { apply GetByName_unregistered; [done|].
         by apply (Hbelow (i :: up) node). }
    apply IH.
    + simpl in Hnode. by apply descend_prefix in Hnode.
    + intros s c Hs Hsuf. apply Hbelow; [done|]. by apply suffix_cons_r.
Qed.

(** However deep a command lies, [Get] answers what the name of its root
    looks up (an application or not-found) when no command on the way up
    carries a registered name. *)
Theorem Get_resolves_at_root w p top node found :
  registry_ok w ->
  roots w !! cobra.root p = Some top ->
  cobra.descend top (cobra.path p) = Some node ->
  GetByName (cobra.Name top) w = Returns (found, w) ->
  (forall q c, q <> [] -> q `prefix_of` cobra.path p ->
     cobra.descend top q = Some c ->
     cobra.Name c ∉ registered_names w) ->
  Get (Some p) w = Returns (found, w).
Proof.
  intros Hok Hr Hnode Hroot Hbelow. unfold Get.
  apply (Get_from_walks w _ top found Hok Hr found Hroot); try done.
  - rewrite rev_involutive. by eexists.
  - intros s c Hs [k Hk] Hc. apply (Hbelow (rev s) c); [|  |done].
    + intros Hrev. apply Hs. apply (f_equal (@rev nat)) in Hrev.
      by rewrite rev_involutive in Hrev.
    + exists (rev k). apply (f_equal (@rev nat)) in Hk.
      by rewrite rev_involutive, rev_app_distr in Hk.
Qed.

Lemma Get_resolves_at_root_witness :
  Get (Some deepest) tree_world = Returns (Some 0, tree_world).
Proof.
  destruct (roots tree_world !! 0) as [top|] eqn:Htop; [|discriminate].
  apply (Get_resolves_at_root tree_world deepest top config_list (Some 0)).
  - repeat constructor. by eexists.
  - exact Htop.
  - injection Htop as <-. reflexivity.
  - injection Htop as <-. reflexivity.
  - injection Htop as <-. intros q c Hq [k Hk] Hc.
    change (registered_names tree_world) with ["app"].
    rewrite list_elem_of_singleton. intros Hname.
    simpl in Hk.
    destruct q as [|i1 q]; [done|]. injection Hk as <- Hk.
    destruct q as [|i2 q].
    { vm_compute in Hc. injection Hc as <-. discriminate Hname. }
    injection Hk as <- Hk. destruct q as [|i3 q].
    { vm_compute in Hc. injection Hc as <-. discriminate Hname. }
    injection Hk as <- Hk. destruct q as [|i4 q]; [|discriminate Hk].
    vm_compute in Hc. injection Hc as <-. discriminate Hname.
Defined.

(** ** Build, then Get on the root *)

Lemma cobra_Name_first_word c : cobra.Name c = first_word (cobra.Use c).
Proof. unfold cobra.Name. by destruct (Split_head (cobra.Use c)) as [rest ->]. Qed.

Lemma first_word_app_space s t :
  first_word (s +:+ String " " t) = first_word s.
Proof.
  induction s as [|a s IH]; simpl; [done|].
  destruct (Ascii.eqb a " "%char); [done|]. by rewrite IH.
Qed.

Lemma first_word_no_space s :
  gostrings.contains_byte " "%char s = false <-> first_word s = s.
Proof.
  induction s as [|a s IH]; simpl; [done|].
  destruct (Ascii.eqb a " "%char); simpl; [done|].
  rewrite IH. split; [by intros ->|by intros [= ->]].
Qed.

Lemma Build_fresh_root_name app x w r w' :
  Build_fresh app x w = Returns (r, w') ->
  exists top, roots w' !! r = Some top
              /\ cobra.Name top = first_word (Name x).
Proof.
  intros H. apply Build_fresh_inv in H
    as (x' & top & -> & _ & Hroots & _ & _ & _ & _ & _ & _ & _ & _ & _ & HU & _).
  exists top. split; [by rewrite Hroots, lookup_app_r, Nat.sub_diag|].
  rewrite cobra_Name_first_word, HU.
  destruct (bracket_after_first_word (Name x)); [done|].
  apply first_word_app_space.
Qed.

(** The command name of the root is the first word of the application's
    name, and that is what [Get] looks up: the application is found from
    its own root when its name is a single word, and is not found when
    the name carries usage text and its first word is not registered. *)
Theorem Build_then_Get_root w app x r w' :
  registry_ok w ->
  apps w !! app = Some x ->
  CobraCommand x = None ->
  Build app w = Returns (r, w') ->
  (gostrings.contains_byte " "%char (Name x) = false ->
     Get (Some (cobra.at_root r)) w' = Returns (Some app, w'))
  /\ (gostrings.contains_byte " "%char (Name x) = true ->
      first_word (Name x) ∉ registered_names w ->
      Get (Some (cobra.at_root r)) w' = Returns (None, w')).
Proof.
  intros Hok Happ Hunbuilt H.
  assert (Build app w = Build_fresh app x w) as Heq.
  { unfold Build. rewrite (bind_step _ _ _ x w).
    - by rewrite Hunbuilt.
    - unfold load_app, deref. by rewrite Happ. }
  rewrite Heq in H.
  destruct (Build_fresh_registry _ _ _ _ _ Hok Happ H)
    as (Hok' & Hfound & _ & Hnames).
  destruct (Build_fresh_root_name _ _ _ _ _ H) as (top & Htop & Hname).
  assert (forall o, GetByName (first_word (Name x)) w' = Returns (o, w') ->
            Get (Some (cobra.at_root r)) w' = Returns (o, w')) as Hget.
  { intros o Ho. unfold Get. cbn [cobra.at_root cobra.root cobra.path rev Get_from].
    rewrite (bind_step _ _ _ top w').
    2: { unfold load_cmd. cbn [cobra.root cobra.path].
         by rewrite (bind_step _ _ _ top w')
           by (by unfold load_root, deref; rewrite Htop). }
    rewrite Hname, (bind_step _ _ _ _ _ Ho). by destruct o. }
  split.
  - intros Hword%first_word_no_space. apply Hget. by rewrite Hword.
  - intros Hspace Hnot. apply Hget. apply GetByName_unregistered; [done|].
    assert (first_word (Name x) <> Name x) as Hne.
    { intros Heq'%first_word_no_space. congruence. }
    destruct Hnames as [->| ->]; [done|].
    rewrite elem_of_app, list_elem_of_singleton. by intros [?|?].
Qed.

Lemma Build_then_Get_root_witness :
  Get (Some (cobra.at_root 0)) built_world = Returns (Some 0, built_world)
  /\ Get (Some (cobra.at_root 0)) usage_named_world
     = Returns (None, usage_named_world).
Proof.
  split.
  - pose proof (Build_then_Get_root (world_of [blank "app"]) 0 (blank "app") 0
                  built_world ltac:(constructor) eq_refl eq_refl eq_refl)
      as [H _].
    by apply H.
  - pose proof (Build_then_Get_root (world_of [blank "app [flags]"]) 0
                  (blank "app [flags]") 0 usage_named_world
                  ltac:(constructor) eq_refl eq_refl eq_refl) as [_ H].
    apply H; [reflexivity|]. apply not_elem_of_nil.
Defined.

(** ** Pending commands and AddCommand *)

Lemma insert_by_name_perm x cs : cobra.insert_by_name x cs ≡ₚ x :: cs.
Proof.
  induction cs as [|c cs IH]; simpl; [done|].
  destruct (String.ltb _ _); [done|]. rewrite IH. apply Permutation_swap.
Qed.

Lemma fold_AddCommand_commands cs : forall c,
  cobra.commands (fold_left cobra.AddCommand cs c) ≡ₚ cobra.commands c ++ cs.
Proof.
  induction cs as [|x cs IH]; intros c; simpl; [by rewrite app_nil_r|].
  rewrite IH. cbn [cobra.AddCommand cobra.with_commands cobra.commands].
  rewrite insert_by_name_perm. simpl. apply Permutation_middle.
Qed.

Lemma built_root_commands app x fs :
  cobra.Commands (built_root app x fs) ≡ₚ commands x.
Proof.
  unfold built_root, cobra.Commands.
  set (c0 := cobra.with_hooks _ _ _).
  set (c1 := fold_left cobra.AddCommand (commands x) c0).
  assert (cobra.commands c1 ≡ₚ commands x) as Hc1.
  { subst c1. by rewrite fold_AddCommand_commands. }
  set (c2 := if cobra.HasAvailableSubCommands c1 then _ else _).
  assert (cobra.commands c2 = cobra.commands c1) as Hc2.
  { subst c2. destruct (cobra.HasAvailableSubCommands c1); [|done].
    unfold cobra.Commands. clearbody c1.
    destruct c1 as [? ? ? ? ? ? ? ? ? ? ? ? ? ? ? ? ? ? ? cs]. cbn.
    by destruct cs. }
  destruct (HelpTemplate x) as [[t|e]|]; [destruct (negb _)|..];
    simpl; by rewrite ?Hc2.
Qed.

Lemma Build_children w app x r w' :
  apps w !! app = Some x ->
  CobraCommand x = None ->
  Build app w = Returns (r, w') ->
  exists top x',
    roots w' !! r = Some top
    /\ cobra.Commands top ≡ₚ commands x
    /\ apps w' !! app = Some x'
    /\ commands x' = [].
Proof.
  intros Happ Hunbuilt H.
  assert (Build app w = Build_fresh app x w) as Heq.
  { unfold Build. rewrite (bind_step _ _ _ x w).
    - by rewrite Hunbuilt.
    - unfold load_app, deref. by rewrite Happ. }
  rewrite Heq in H.
  destruct (Build_fresh_root _ _ _ _ _ H) as (fs & Htop & _).
  apply Build_fresh_inv in H
    as (x' & top & _ & _ & _ & Happs & _ & _ & _ & _ & _ & _ & _ & HC & _).
  exists (built_root app x fs), x'. split; [done|].
  split; [apply built_root_commands|]. split; [|done].
  rewrite Happs. apply list_lookup_insert_eq. by eapply lookup_lt_Some.
Qed.

(** A building call attaches every pending command to the root, each
    exactly once, and clears the pending list. *)
Theorem Build_attaches_all w app x r w' :
  apps w !! app = Some x ->
  CobraCommand x = None ->
  Build app w = Returns (r, w') ->
  exists top x',
    roots w' !! r = Some top
    /\ cobra.Commands top ≡ₚ commands x
    /\ apps w' !! app = Some x'
    /\ commands x' = [].
Proof. apply Build_children. Qed.

Lemma Build_attaches_all_witness :
  exists r w' top,
    Build 0 pending_world = Returns (r, w')
    /\ roots w' !! r = Some top
    /\ cobra.Commands top ≡ₚ [command "zeta" []; command "alpha" []].
Proof.
  destruct (Build 0 pending_world) as [[r w']|] eqn:HB; [|discriminate].
  destruct (Build_attaches_all pending_world 0
              (set_commands (blank "app") [command "zeta" []; command "alpha" []])
              r w' eq_refl eq_refl HB) as (top & x' & Htop & Hperm & _).
  by exists r, w', top.
Defined.

(** [AddCommand] in its two phases.  Before the application is built the
    command is queued, and a later building call makes it a child of the
    root together with the commands queued before it.  After the
    application is built the command becomes a child of the root at once;
    the application object, with its empty pending list, is not touched. *)
Theorem AddCommand_two_phases w app x cmd :
  apps w !! app = Some x ->
  CobraCommand x = None ->
  (exists w1,
     AddCommand app cmd w = Returns (tt, w1)
     /\ forall r w2,
          Build app w1 = Returns (r, w2) ->
          exists top, roots w2 !! r = Some top
                      /\ cobra.Commands top ≡ₚ commands x ++ [cmd])
  /\ forall r w1,
       Build app w = Returns (r, w1) ->
       exists top w2 top2,
         roots w1 !! r = Some top
         /\ AddCommand app cmd w1 = Returns (tt, w2)
         /\ apps w2 = apps w1
         /\ roots w2 !! r = Some top2
         /\ cobra.Commands top2 ≡ₚ cobra.Commands top ++ [cmd].
Proof.
  intros Happ Hunbuilt. split.
  - eexists. split.
    + unfold AddCommand.
      rewrite (bind_step _ _ _ x w) by (by unfold load_app, deref; rewrite Happ).
      rewrite Hunbuilt. unfold store_app. by rewrite Happ.
    + intros r w2 HB.
      pose proof (lookup_lt_Some _ _ _ Happ) as Hlt.
      destruct (Build_children
                  (set_apps w (<[app:=set_commands x (commands x ++ [cmd])]>
                                 (apps w)))
                  app (set_commands x (commands x ++ [cmd])) r w2)
        as (top & x' & Htop & Hperm & _); [| |exact HB|].
      * cbn. by apply list_lookup_insert_eq.
      * by cbn.
      * exists top. split; [done|]. by rewrite Hperm.
  - intros r w1 HB.
    assert (Build app w = Build_fresh app x w) as Heq.
    { unfold Build. rewrite (bind_step _ _ _ x w).
      - by rewrite Hunbuilt.
      - unfold load_app, deref. by rewrite Happ. }
    rewrite Heq in HB.
    destruct (Build_fresh_app _ _ _ _ _ HB) as (x' & Hx' & Hr).
    apply Build_fresh_inv in HB as (x'' & top & -> & _ & Hroots & _).
    assert (roots w1 !! List.length (roots w) = Some top) as Htop.
    { by rewrite Hroots, lookup_app_r, Nat.sub_diag. }
    exists top. eexists. exists (cobra.AddCommand top cmd).
    split; [done|]. split; [|split; [|split]].
    + unfold AddCommand.
      rewrite (bind_step _ _ _ x' w1) by (by unfold load_app, deref; rewrite Hx').
      rewrite Hr.
      rewrite (bind_step _ _ _ top w1) by (by unfold load_root, deref; rewrite Htop).
      unfold store_root. by rewrite Htop.
    + done.
    + cbn. apply list_lookup_insert_eq. by eapply lookup_lt_Some.
    + unfold cobra.Commands. cbn. rewrite insert_by_name_perm.
      by rewrite Permutation_cons_append.
Qed.

Lemma AddCommand_two_phases_witness :
  exists w2,
    AddCommand 0 (command "list" []) built_world = Returns (tt, w2)
    /\ apps w2 = apps built_world.
Proof.
  destruct (AddCommand_two_phases unbuilt_world 0 (blank "app")
              (command "list" []) eq_refl eq_refl) as [_ H].
  destruct (H 0 built_world eq_refl) as (top & w2 & top2 & _ & Hrun & Happs & _).
  by exists w2.
Defined.

(** ** Build binds the flag to the MachineFriendly field *)

Lemma built_root_pflags app x fs : cobra.pflags (built_root app x fs) = fs.
Proof.
  unfold built_root.
  set (c0 := cobra.with_hooks _ _ _).
  assert (forall cs c, cobra.pflags (fold_left cobra.AddCommand cs c)
                       = cobra.pflags c) as Hfold.
  { induction cs as [|y cs IH]; intros c; simpl; [done|]. by rewrite IH. }
  set (c1 := fold_left cobra.AddCommand (commands x) c0).
  assert (cobra.pflags c1 = fs) as Hc1 by (subst c1; by rewrite Hfold).
  set (c2 := if cobra.HasAvailableSubCommands c1 then _ else _).
  assert (cobra.pflags c2 = fs) as Hc2.
  { subst c2. destruct (cobra.HasAvailableSubCommands c1); [|done].
    by destruct (cobra.Commands c1). }
  destruct (HelpTemplate x) as [[t|e]|]; [destruct (negb _)|..]; done.
Qed.

(** After a building call whose configurator leaves the mode flag alone:
    unless the output format controller is disabled, reading the flag on
    the root's persistent flag set gives, in every later state of the
    cells, what [MachineFriendly] points to; when the controller is
    disabled the root has no such flag and the flag reads [false]. *)
Theorem Build_binds_flag_to_field w app x r w' :
  apps w !! app = Some x ->
  CobraCommand x = None ->
  configurator_keeps_flag x ->
  Build app w = Returns (r, w') ->
  exists top x' p,
    roots w' !! r = Some top
    /\ apps w' !! app = Some x'
    /\ MachineFriendly x' = Some p
    /\ (DisableOutputFormatController x = false ->
        forall w'' (b : bool),
          bools w'' !! p = Some b ->
          GetMachineFriendlyFlagFrom (cobra.PersistentFlags top) w''
          = Returns (b, w''))
    /\ (DisableOutputFormatController x = true ->
        cobra.PersistentFlags top !! machineFriendlyFlagKey = None
        /\ forall w'',
             GetMachineFriendlyFlagFrom (cobra.PersistentFlags top) w''
             = Returns (false, w'')).
Proof.
  intros Happ Hunbuilt Hkeeps H.
  assert (Build app w = Build_fresh app x w) as Heq.
  { unfold Build. rewrite (bind_step _ _ _ x w).
    - by rewrite Hunbuilt.
    - unfold load_app, deref. by rewrite Happ. }
  rewrite Heq in H.
  destruct (Build_fresh_root _ _ _ _ _ H) as (fs & Htop & Hfs).
  apply Build_fresh_inv in H
    as (x' & top & _ & _ & _ & Happs & _ & _ & _ & HM & _).
  exists (built_root app x fs), x', (List.length (bools w)).
  split; [done|]. split.
  { rewrite Happs. apply list_lookup_insert_eq. by eapply lookup_lt_Some. }
  split; [done|].
  assert (fs !! machineFriendlyFlagKey
          = registered_flags x (List.length (bools w)) !! machineFriendlyFlagKey)
    as Hflag.
  { destruct (PersistentFlags x) as [configure|] eqn:E; [|by subst].
    by eapply Hkeeps. }
  unfold cobra.PersistentFlags. rewrite built_root_pflags.
  unfold registered_flags in Hflag. split.
  - intros Hon w'' b Hb. rewrite Hon in Hflag.
    apply (GetMachineFriendlyFlagFrom_bound _ (List.length (bools w))); [|done].
    by rewrite Hflag, lookup_insert_eq.
  - intros Hoff. rewrite Hoff in Hflag. rewrite lookup_empty in Hflag.
    split; [done|]. intros w''.
    by apply GetMachineFriendlyFlagFrom_absent.
Qed.

Lemma Build_binds_flag_to_field_witness :
  (top <~ load_root (Some 0) ;;
   GetMachineFriendlyFlagFrom (cobra.PersistentFlags top)) flagged_world
  = Returns (true, flagged_world).
Proof.
  pose proof (Build_binds_flag_to_field (world_of [blank "app"]) 0 (blank "app")
                0 built_world eq_refl eq_refl) as H.
  destruct H as (top & x' & p & Htop & Hx' & Hp & Hon & _).
  - intros configure fs h fs' h' Hcfg. discriminate Hcfg.
  - reflexivity.
  - assert (p = 0) as ->.
    { vm_compute in Hx'. injection Hx' as <-. by injection Hp. }
    rewrite (bind_step _ _ _ top flagged_world).
    + by apply Hon.
    + unfold load_root, deref.
      change (roots flagged_world) with (roots built_world). by rewrite Htop.
Defined.

(** ** The hooks Build installs *)

Lemma built_root_hooks app x fs :
  cobra.PersistentPreRunE (built_root app x fs) = Some (cobra.BindAndSetup app)
  /\ cobra.PersistentPostRunE (built_root app x fs) = Some (cobra.RunShutdown app).
Proof.
  unfold built_root.
  set (c0 := cobra.with_hooks _ _ _).
  assert (forall cs c,
             cobra.PersistentPreRunE (fold_left cobra.AddCommand cs c)
             = cobra.PersistentPreRunE c
             /\ cobra.PersistentPostRunE (fold_left cobra.AddCommand cs c)
                = cobra.PersistentPostRunE c) as Hfold.
  { induction cs as [|y cs IH]; intros c; simpl; [done|].
    destruct (IH (cobra.AddCommand c y)) as [-> ->]. done. }
  set (c1 := fold_left cobra.AddCommand (commands x) c0).
  destruct (Hfold (commands x) c0) as [Hpre Hpost]. fold c1 in Hpre, Hpost.
  set (c2 := if cobra.HasAvailableSubCommands c1 then _ else _).
  assert (cobra.PersistentPreRunE c2 = cobra.PersistentPreRunE c1
          /\ cobra.PersistentPostRunE c2 = cobra.PersistentPostRunE c1)
    as [Hpre2 Hpost2].
  { subst c2. destruct (cobra.HasAvailableSubCommands c1); [|done].
    by destruct (cobra.Commands c1). }
  destruct (HelpTemplate x) as [[t|e]|]; [destruct (negb _)|..]; simpl;
    by rewrite ?Hpre2, ?Hpost2, ?Hpre, ?Hpost.
Qed.

Section Hooks.

Variable Object : Type.
Variable Filter : Type.
Variable GetJSONNoPrettyFlag : option cobra.Ptr -> M bool.
Variable GetJSONQueryFlag : option cobra.Ptr -> M string.
Variable WriteJSON' : io.Ref -> Object -> bool -> string -> M error.
Variable tableprinter_Print : io.Ref -> Object -> list Filter -> M unit.

(** The root of a building call carries the two hooks of its
    application.  The pre-run hook makes the command it is given the
    current command whether [Setup] succeeds or not, changes nothing else
    and answers what [Setup] answers (nil without a [Setup]); from then on
    [Application.PrintObject] is [PrintObject] on that command.  The
    post-run hook changes nothing and answers what [Shutdown] answers. *)
Theorem hooks_bind_current_command w app x r w' cmd args :
  apps w !! app = Some x ->
  CobraCommand x = None ->
  Build app w = Returns (r, w') ->
  exists top x',
    roots w' !! r = Some top
    /\ cobra.PersistentPreRunE top = Some (cobra.BindAndSetup app)
    /\ cobra.PersistentPostRunE top = Some (cobra.RunShutdown app)
    /\ apps w' !! app = Some x'
    /\ let w1 := set_apps w' (<[app := set_currentCommand x' (Some cmd)]> (apps w')) in
       PersistentPreRunE app cmd args w'
       = Returns (match Setup x with Some setup => setup cmd args | None => None end,
                  w1)
       /\ (forall v,
             Application_PrintObject Object Filter GetJSONNoPrettyFlag
               GetJSONQueryFlag WriteJSON' tableprinter_Print app v w1
             = PrintObject Object Filter GetJSONNoPrettyFlag GetJSONQueryFlag
                 WriteJSON' tableprinter_Print (Some cmd) v [] w1)
       /\ PersistentPostRunE app cmd args w'
          = Returns (match Shutdown x with
                     | Some shutdown => shutdown cmd args
                     | None => None
                     end, w').
Proof.
  intros Happ Hunbuilt H.
  assert (Build app w = Build_fresh app x w) as Heq.
  { unfold Build. rewrite (bind_step _ _ _ x w).
    - by rewrite Hunbuilt.
    - unfold load_app, deref. by rewrite Happ. }
  rewrite Heq in H.
  destruct (Build_fresh_root _ _ _ _ _ H) as (fs & Htop & _).
  destruct (built_root_hooks app x fs) as [Hpre Hpost].
  assert (exists x', apps w' !! app = Some x'
                     /\ Setup x' = Setup x /\ Shutdown x' = Shutdown x)
    as (x' & Hx' & HS & HSh).
  { pose proof H as Hinv. apply Build_fresh_inv in Hinv
      as (x' & top & _ & _ & _ & Happs & _).
    unfold Build_fresh in H. rewrite useText_spec in H.
    inv_bind H as use w1 Huse. apply ret_Returns in Huse as [-> ->].
    inv_bind H as xr w1 Hflags. destruct xr as [x1 rc1].
    apply Build_flags_inv in Hflags as (-> & _); [|done].
    cbn [fst snd] in H. rewrite Build_attach_exact in H. cbn [fst snd] in H.
    inv_bind H as rc2 w2 Hex. inv_bind H as rc3 w3 Htm.
    apply Build_publish_inv in H as (_ & [x0 Hx0] & Hreg).
    apply registerApplication_frame in Hreg.
    eexists. split.
    - rewrite Hreg. cbn. apply list_lookup_insert_eq. by eapply lookup_lt_Some.
    - cbn. unfold Build_long, Build_defaults.
      destruct x as [? ? ? l ? ? ? ? ? ? ? ? ? fe mem ?]; cbn.
      destruct fe, mem; cbn; destruct (String.eqb l ""); done. }
  exists (built_root app x fs), x'. repeat (split; [done|]).
  cbv zeta. split; [|split].
  - unfold PersistentPreRunE.
    rewrite (bind_step _ _ _ x' w') by (by unfold load_app, deref; rewrite Hx').
    rewrite (bind_step _ _ _ tt
               (set_apps w' (<[app := set_currentCommand x' (Some cmd)]> (apps w')))).
    2: { unfold store_app. by rewrite Hx'. }
    rewrite HS. by destruct (Setup x).
  - intros v. unfold Application_PrintObject.
    rewrite (bind_step _ _ _ (set_currentCommand x' (Some cmd))
               (set_apps w' (<[app := set_currentCommand x' (Some cmd)]>
                               (apps w')))); [done|].
    unfold load_app, deref. cbn.
    rewrite list_lookup_insert_eq; [done|]. by eapply lookup_lt_Some.
  - unfold PersistentPostRunE.
    rewrite (bind_step _ _ _ x' w') by (by unfold load_app, deref; rewrite Hx').
    rewrite HSh. by destruct (Shutdown x).
Qed.

End Hooks.

Lemma hooks_bind_current_command_witness :
  PersistentPreRunE 0 deepest [] tree_world
  = Returns (None,
             set_apps tree_world
               [mkApplication "app" "" "" "" None false false (Some 0) None None
                  None [] (Some deepest) (Some []) (Some []) (Some 0)]).
Proof.
  destruct (hooks_bind_current_command string unit never_asked never_asked
              no_serializer table_writes
              (world_of [set_commands (blank "app") [connector]]) 0
              (set_commands (blank "app") [connector]) 0 tree_world deepest []
              eq_refl eq_refl eq_refl)
    as (top & x' & _ & _ & _ & Hx' & Hpre & _).
  rewrite Hpre. vm_compute in Hx'. injection Hx' as <-. reflexivity.
Defined.

(** ** Methods that go through the registry *)

Section ByNameMethods.

Variable cobra_Find :
  cobra.Command -> list string -> option (list nat * list string).

(** [Application.GetCommand] and [Application.FindCommand] look the
    application up by its name instead of using the receiver: on an
    application whose name is not registered (one that has not been
    built) they answer not-found, without a panic and whatever root the
    receiver has. *)
Theorem methods_by_name_need_registration w app x commandName args :
  registry_ok w ->
  apps w !! app = Some x ->
  Name x ∉ registered_names w ->
  Application_GetCommand app commandName w = Returns (None, w)
  /\ Application_FindCommand cobra_Find app args w = Returns (None, w).
Proof.
  intros Hok Happ Hnot.
  pose proof (GetByName_unregistered w (Name x) Hok Hnot) as Hnone.
  unfold Application_GetCommand, Application_FindCommand, GetCommand, FindCommand.
  rewrite !(bind_step _ _ _ x w) by (by unfold load_app, deref; rewrite Happ).
  by rewrite !(bind_step _ _ _ _ _ Hnone).
Qed.

End ByNameMethods.

Lemma methods_by_name_need_registration_witness :
  Application_GetCommand 0 "list" unbuilt_world = Returns (None, unbuilt_world).
Proof.
  destruct (methods_by_name_need_registration (fun _ _ => None) unbuilt_world 0
              (blank "app") "list" []) as [H _].
  - constructor.
  - reflexivity.
  - apply not_elem_of_nil.
  - exact H.
Defined.

(** ** Run *)

Section RunSteps.

Variable os_Args : list string.
Variable cobra_ParseFlags : loc -> list string -> M error.
Variable cobra_Execute : loc -> M error.
Variable ExecuteWithSpinner : loc -> M error.
Variable ackError : option FriendlyErrorTable -> error -> error.

Lemma Run_steps w app output args r w1 top e w3 x3 (mf : bool) :
  Build app w = Returns (r, w1) ->
  roots w1 !! r = Some top ->
  cobra.DisableFlagParsing top = false ->
  let out := match output with None => io.Stdout | Some o => o end in
  let w2 := set_roots w1 (<[r := cobra.SetOutput top (Some out)]> (roots w1)) in
  cobra_ParseFlags r (effective_args os_Args args) w2 = Returns (e, w3) ->
  apps w3 !! app = Some x3 ->
  (ShowSpinner x3 = true ->
     exists p, MachineFriendly x3 = Some p /\ bools w3 !! p = Some mf) ->
  let w4 := set_apps w3 (<[app := set_commands x3 []]> (apps w3)) in
  Run os_Args cobra_ParseFlags cobra_Execute ExecuteWithSpinner ackError
    app output args w
  = (err <~ (if ShowSpinner x3 && negb mf
             then ExecuteWithSpinner r else cobra_Execute r) ;;
     ret (ackError (FriendlyErrors x3) err)) w4.
Proof.
  intros HB Htop Hparsing out w2 Hparse Hx3 Hmode w4.
  unfold Run. fold out.
  rewrite (bind_step _ _ _ _ _ HB).
  rewrite (bind_step _ _ _ top w1) by (by unfold load_root, deref; rewrite Htop).
  rewrite (bind_step _ _ _ tt w2) by (by unfold store_root; rewrite Htop).
  assert ((if ((List.length args =? 0) && (0 <? List.length os_Args))%nat
           then tl os_Args else args) = effective_args os_Args args) as ->.
  { unfold effective_args. destruct args, os_Args; done. }
  rewrite (bind_step _ _ _ (cobra.SetOutput top (Some out)) w2).
  2: { unfold load_root, deref. subst w2. cbn.
       rewrite list_lookup_insert_eq; [done|]. by eapply lookup_lt_Some. }
  cbn [cobra.SetOutput cobra.DisableFlagParsing]. rewrite Hparsing. cbn [negb].
  rewrite (bind_step _ _ _ tt w3).
  2: { by rewrite (bind_step _ _ _ _ _ Hparse). }
  rewrite (bind_step _ _ _ x3 w3) by (by unfold load_app, deref; rewrite Hx3).
  rewrite (bind_step _ _ _ tt w4) by (by unfold store_app; rewrite Hx3).
  rewrite (bind_step _ _ _ (set_commands x3 []) w4).
  2: { unfold load_app, deref. subst w4. cbn.
       rewrite list_lookup_insert_eq; [done|]. by eapply lookup_lt_Some. }
  cbn [ShowSpinner set_commands MachineFriendly FriendlyErrors].
  destruct (ShowSpinner x3) eqn:Hspin.
  - destruct (Hmode eq_refl) as (p & Hp & Hcell).
    rewrite (bind_step _ _ _ (negb mf) w4).
    + cbn [andb]. by destruct (negb mf).
    + rewrite (bind_step _ _ _ mf w4); [done|].
      unfold deref. rewrite Hp. subst w4. cbn. by rewrite Hcell.
  - by rewrite (bind_step _ _ _ false w4).
Qed.

End RunSteps.

Lemma built_root_parses app x fs :
  cobra.DisableFlagParsing (built_root app x fs) = false.
Proof.
  unfold built_root.
  set (c0 := cobra.with_hooks _ _ _).
  assert (forall cs c,
             cobra.DisableFlagParsing (fold_left cobra.AddCommand cs c)
             = cobra.DisableFlagParsing c) as Hfold.
  { induction cs as [|y cs IH]; intros c; simpl; [done|]. by rewrite IH. }
  set (c1 := fold_left cobra.AddCommand (commands x) c0).
  assert (cobra.DisableFlagParsing c1 = false) as Hc1
      by (subst c1; by rewrite Hfold).
  set (c2 := if cobra.HasAvailableSubCommands c1 then _ else _).
  assert (cobra.DisableFlagParsing c2 = false) as Hc2.
  { subst c2. destruct (cobra.HasAvailableSubCommands c1); [|done].
    by destruct (cobra.Commands c1). }
  destruct (HelpTemplate x) as [[t|e]|]; [destruct (negb _)|..]; done.
Qed.

(** What a building call leaves of the application's own settings. *)
Lemma Build_fresh_settings app x w r w' :
  Build_fresh app x w = Returns (r, w') ->
  exists x', apps w' !! app = Some x'
             /\ ShowSpinner x' = ShowSpinner x
             /\ MachineFriendly x' = Some (List.length (bools w))
             /\ CobraCommand x' = Some r.
Proof.
  intros H. pose proof H as Hinv. apply Build_fresh_inv in Hinv
    as (x' & top & _ & _ & _ & Happs & [x00 Hx00] & _ & _ & HM & HC & _).
  assert (apps w' !! app = Some x') as Hx'.
  { rewrite Happs. apply list_lookup_insert_eq. by eapply lookup_lt_Some. }
  exists x'. split; [done|]. split; [|done].
  unfold Build_fresh in H. rewrite useText_spec in H.
  inv_bind H as use w1 Huse. apply ret_Returns in Huse as [-> ->].
  inv_bind H as xr w1 Hflags. destruct xr as [x1 rc1].
  apply Build_flags_inv in Hflags as (-> & _); [|done].
  cbn [fst snd] in H. rewrite Build_attach_exact in H. cbn [fst snd] in H.
  inv_bind H as rc2 w2 Hex. inv_bind H as rc3 w3 Htm.
  apply Build_publish_inv in H as (_ & [x0 Hx0] & Hreg).
  apply registerApplication_frame in Hreg.
  rewrite Hreg in Hx'. cbn in Hx'.
  rewrite list_lookup_insert_eq in Hx' by (by eapply lookup_lt_Some).
  injection Hx' as <-. cbn.
  unfold Build_long, Build_defaults.
  destruct x as [? ? ? l ? ? ? ? ? ? ? ? ? fe mem ?]; cbn.
  destruct fe, mem; cbn; destruct (String.eqb l ""); done.
Qed.

(** The engine sets the flag given on the command line; what that does
    to the cell the flag of the application is bound to. *)
Lemma parse_mode_flag_effect x given r args w top c :
  roots w !! r = Some top ->
  cobra.PersistentFlags top !! machineFriendlyFlagKey
  = registered_flags x c !! machineFriendlyFlagKey ->
  bools w !! c = Some false ->
  exists e w',
    parse_mode_flag given r args w = Returns (e, w')
    /\ apps w' = apps w
    /\ bools w' !! c = Some (mode_asked x given).
Proof.
  intros Htop Hflag Hcell. unfold parse_mode_flag.
  destruct given as [text|].
  2: { exists None, w. split; [done|]. split; [done|].
       unfold mode_asked. by destruct (DisableOutputFormatController x). }
  assert (exists e h,
             pflag.Set_ (bools w) (cobra.PersistentFlags top)
               machineFriendlyFlagKey text
             = Returns (cobra.PersistentFlags top, h, e)
             /\ h !! c = Some (mode_asked x (Some text)))
    as (e & h & HSet & Hh).
  { unfold pflag.Set_, mode_asked. rewrite Hflag. unfold registered_flags.
    destruct (DisableOutputFormatController x).
    - rewrite lookup_empty. by eexists _, _.
    - rewrite lookup_insert_eq. cbn [pflag.value machineFriendlyFlag].
      rewrite Hcell.
      destruct (strconv.ParseBool text) as [b|]; eexists _, _;
        (split; [reflexivity|]);
        apply list_lookup_insert_eq; by eapply lookup_lt_Some. }
  exists e,
    (set_roots (set_bools w h)
       (<[r := cobra.with_pflags top (cobra.PersistentFlags top)]> (roots w))).
  split; [|done].
  unfold set_persistent_flag.
  rewrite (bind_step _ _ _ top w) by (by unfold load_root, deref; rewrite Htop).
  rewrite (bind_step _ _ _ (cobra.PersistentFlags top, e) (set_bools w h))
    by (by rewrite HSet).
  rewrite (bind_step _ _ _ tt
             (set_roots (set_bools w h)
                (<[r := cobra.with_pflags top (cobra.PersistentFlags top)]>
                   (roots w)))); [done|].
  unfold store_root. cbn. by rewrite Htop.
Qed.

Section RunMode.

Variable os_Args : list string.
Variable cobra_Execute : loc -> M error.
Variable ExecuteWithSpinner : loc -> M error.
Variable ackError : option FriendlyErrorTable -> error -> error.


End RunMode.


(** ** ApplicationBuilder *)

Lemma Builder_Description_step w a y description :
  Builder.Description {| app := a |} description (set_apps w (apps w ++ [y]))
  = (if decide (a = List.length (apps w))
     then Returns ({| app := a |},
                   set_apps w (apps w ++ [set_Description y description]))
     else Builder.Description {| app := a |} description
            (set_apps w (apps w ++ [y]))).
Proof.
  destruct (decide _) as [->|]; [|done].
  unfold Builder.Description, load_app, store_app, deref, bind, ret; cbn.
  rewrite lookup_app_r, Nat.sub_diag by done. cbn.
  rewrite lookup_app_r, Nat.sub_diag by done. cbn.
  rewrite insert_app_r_alt, Nat.sub_diag by done. by destruct w.
Qed.

Lemma Builder_Version_step w a y version :
  Builder.Version {| app := a |} version (set_apps w (apps w ++ [y]))
  = (if decide (a = List.length (apps w))
     then Returns ({| app := a |},
                   set_apps w (apps w ++ [set_Version y version]))
     else Builder.Version {| app := a |} version
            (set_apps w (apps w ++ [y]))).
Proof.
  destruct (decide _) as [->|]; [|done].
  unfold Builder.Version, load_app, store_app, deref, bind, ret; cbn.
  rewrite lookup_app_r, Nat.sub_diag by done. cbn.
  rewrite lookup_app_r, Nat.sub_diag by done. cbn.
  rewrite insert_app_r_alt, Nat.sub_diag by done. by destruct w.
Qed.

(** A builder chain allocates one new application, sets exactly the
    fields named and leaves the registry and every other store alone: the
    application is neither built nor registered; the order of
    [Description] and [Version] does not matter and the last
    [Description] wins. *)
Theorem Builder_chain w name description version :
  let made :=
    set_apps w (apps w ++ [set_Version (set_Description (blank name) description)
                             version]) in
  let b := {| app := List.length (apps w) |} in
  (b <~ Builder.New name ;; b <~ Builder.Description b description ;;
   Builder.Version b version) w
  = Returns (b, made)
  /\ (b <~ Builder.New name ;; b <~ Builder.Version b version ;;
      Builder.Description b description) w
     = Returns (b, made)
  /\ (forall other,
        (b <~ Builder.New name ;; b <~ Builder.Description b other ;;
         b <~ Builder.Description b description ;;
         Builder.Version b version) w
        = Returns (b, made))
  /\ applications made = applications w
  /\ (CobraCommand <$> apps made !! Builder.Get b) = Some None
  /\ (Name <$> apps made !! Builder.Get b) = Some name.
Proof.
  intros made b.
  assert (Builder.New name w = Returns (b, set_apps w (apps w ++ [blank name])))
    as Hnew by done.
  assert (forall y d, Builder.Description b d (set_apps w (apps w ++ [y]))
                      = Returns (b, set_apps w (apps w ++ [set_Description y d])))
    as HD.
  { intros y d. subst b. rewrite Builder_Description_step. by rewrite decide_True. }
  assert (forall y v, Builder.Version b v (set_apps w (apps w ++ [y]))
                      = Returns (b, set_apps w (apps w ++ [set_Version y v])))
    as HV.
  { intros y v. subst b. rewrite Builder_Version_step. by rewrite decide_True. }
  split; [|split; [|split; [|split; [|split]]]].
  - rewrite (bind_step _ _ _ _ _ Hnew), (bind_step _ _ _ _ _ (HD _ _)).
    by rewrite HV.
  - rewrite (bind_step _ _ _ _ _ Hnew), (bind_step _ _ _ _ _ (HV _ _)).
    by rewrite HD.
  - intros other.
    rewrite (bind_step _ _ _ _ _ Hnew), (bind_step _ _ _ _ _ (HD _ _)).
    rewrite (bind_step _ _ _ _ _ (HD _ _)). by rewrite HV.
  - done.
  - subst made b. cbn. by rewrite lookup_app_r, Nat.sub_diag.
  - subst made b. cbn. by rewrite lookup_app_r, Nat.sub_diag.
Qed.

(** [GetFlags] on an application that has not been built dereferences the
    nil root and panics; right after a building call it answers the local
    flag set of the root, which is empty: the machine-friendly flag is on
    the persistent set. *)
Theorem Builder_GetFlags w b x :
  apps w !! app b = Some x ->
  CobraCommand x = None ->
  Builder.GetFlags b w = Panics NilDereference
  /\ forall r w',
       Build (app b) w = Returns (r, w') ->
       Builder.GetFlags b w' = Returns (∅, w').
Proof.
  intros Happ Hunbuilt. split.
  - unfold Builder.GetFlags.
    rewrite (bind_step _ _ _ x w) by (by unfold load_app, deref; rewrite Happ).
    by rewrite Hunbuilt.
  - intros r w' H.
    assert (Build (app b) w = Build_fresh (app b) x w) as Heq.
    { unfold Build. rewrite (bind_step _ _ _ x w).
      - by rewrite Hunbuilt.
      - unfold load_app, deref. by rewrite Happ. }
    rewrite Heq in H.
    destruct (Build_fresh_app _ _ _ _ _ H) as (x' & Hx' & Hr).
    apply Build_fresh_inv in H
      as (x'' & top & -> & _ & Hroots & _ & _ & _ & _ & _ & _ & _ & _ & _ & _
            & Hflags & _).
    unfold Builder.GetFlags.
    rewrite (bind_step _ _ _ x' w') by (by unfold load_app, deref; rewrite Hx').
    rewrite Hr.
    rewrite (bind_step _ _ _ top w').
    + unfold cobra.Flags. by rewrite Hflags.
    + unfold load_root, deref. by rewrite Hroots, lookup_app_r, Nat.sub_diag.
Qed.

Lemma Builder_GetFlags_witness :
  Builder.GetFlags {| app := 0 |} unbuilt_world = Panics NilDereference
  /\ Builder.GetFlags {| app := 0 |} built_world = Returns (∅, built_world).
Proof.
  destruct (Builder_GetFlags unbuilt_world {| app := 0 |} (blank "app")
              eq_refl eq_refl) as [Hbefore Hafter].
  split; [exact Hbefore|]. by apply (Hafter 0).
Defined.

(** ** HelpTemplate *)

Lemma digits_not_all s : forall acc,
  all_digits s = false -> strconv10.digits s acc = None.
Proof.
  induction s as [|c s IH]; intros acc; simpl; [done|].
  destruct (strconv10.digit c); [apply IH|done].
Qed.

Lemma ParseInt_not_decimal s :
  is_decimal s = false -> fst (strconv10.ParseInt s) = 0%Z.
Proof.
  destruct s as [|c rest]; [done|].
  unfold is_decimal, strconv10.ParseInt.
  destruct (Ascii.eqb c "+"%char) eqn:Hplus; cbv beta iota zeta.
  - cbn [orb]. destruct rest as [|c' rest']; [done|]. intros H.
    assert (all_digits (String c' rest') = false) as Hbad by exact H.
    by rewrite (digits_not_all _ 0%Z Hbad).
  - destruct (Ascii.eqb c "-"%char) eqn:Hminus; cbv beta iota zeta; cbn [orb].
    + destruct rest as [|c' rest']; [done|]. intros H.
      assert (all_digits (String c' rest') = false) as Hbad by exact H.
      by rewrite (digits_not_all _ 0%Z Hbad).
    + intros H.
      assert (all_digits (String c rest) = false) as Hbad by exact H.
      by rewrite (digits_not_all _ 0%Z Hbad).
Qed.

Section HelpText.

Variable time_UnixDate : Z -> string.
Variable runtime_Version : string.

(** [HelpTemplate.String]: without an inner template the call panics; a
    non-empty inner template is the answer whatever the build fields are;
    otherwise the default text is built, in which showing the Go runtime
    version adds exactly one last line, and a build time that is not a
    decimal integer is shown as the time 0. *)
Theorem HelpTemplate_String_cases h :
  (Help.Template h = None ->
     Help.String_ time_UnixDate runtime_Version h = Panics NilDereference)
  /\ (forall custom,
        Help.Template h = Some (Returns custom) -> custom <> "" ->
        Help.String_ time_UnixDate runtime_Version h = Returns custom)
  /\ (Help.Template h = Some (Returns "") ->
      (exists base,
         Help.String_ time_UnixDate runtime_Version
           (with_ShowGoRuntimeVersion h false) = Returns base
         /\ Help.String_ time_UnixDate runtime_Version
              (with_ShowGoRuntimeVersion h true)
            = Returns (base +:+ (Repeat " " 10 +:+ " go       "
                                  +:+ runtime_Version +:+ gostrings.newline)))
      /\ (is_decimal (Help.BuildTime h) = false ->
          Help.String_ time_UnixDate runtime_Version h
          = Help.String_ time_UnixDate runtime_Version (with_BuildTime h "0"))).
Proof.
  split; [|split].
  - unfold Help.String_. by intros ->.
  - intros custom Hc Hne. unfold Help.String_. rewrite Hc.
    apply String.eqb_neq in Hne. by rewrite Hne.
  - intros Hc. split.
    + unfold Help.String_, with_ShowGoRuntimeVersion. cbn. rewrite Hc. cbn.
      destruct (strconv10.ParseInt (Help.BuildTime h)) as [n err].
      by eexists.
    + intros Hbad. unfold Help.String_, with_BuildTime. cbn. rewrite Hc. cbn.
      pose proof (ParseInt_not_decimal _ Hbad) as Hzero.
      destruct (strconv10.ParseInt (Help.BuildTime h)) as [n err].
      simpl in Hzero. by subst n.
Qed.

End HelpText.

Lemma HelpTemplate_String_cases_witness :
  Help.String_ seconds_text "go1.10" undated
  = Help.String_ seconds_text "go1.10" (with_BuildTime undated "0").
Proof.
  destruct (HelpTemplate_String_cases seconds_text "go1.10" undated)
    as (_ & _ & H).
  destruct (H eq_refl) as [_ Hbad]. by apply Hbad.
Defined.

(** A build time beyond the int64 range is taken as the end of the range,
    and one with a sign is accepted. *)
Example ParseInt_edges :
  strconv10.ParseInt "9223372036854775808"
  = (9223372036854775807%Z,
     Some "strconv.ParseInt: parsing 9223372036854775808: value out of range")
  /\ fst (strconv10.ParseInt "-9223372036854775808") = (- 9223372036854775808)%Z
  /\ strconv10.ParseInt "+42" = (42%Z, None)
  /\ fst (strconv10.ParseInt "4_2") = 0%Z.
Proof. repeat split; vm_compute; reflexivity. Qed.

(** ** RegisterMachineFriendlyFlag on a command *)

Lemma replace_at_descend top : forall p node node',
  cobra.descend top p = Some node ->
  exists top', replace_at top p node' = Some top'
               /\ cobra.descend top' p = Some node'.
Proof.
  revert top.
  assert (forall p top node node',
             cobra.descend top p = Some node ->
             exists top', replace_at top p node' = Some top'
                          /\ cobra.descend top' p = Some node') as H.
  { induction p as [|i p IH]; intros top node node'; simpl.
    - intros _. by eexists.
    - destruct (cobra.commands top !! i) as [child|] eqn:Hi; [|done].
      intros Hd. destruct (IH child node node' Hd) as (child' & -> & Hd').
      eexists. split; [done|]. cbn.
      rewrite list_lookup_insert_eq by (by eapply lookup_lt_Some). done. }
  intros top p node node'. apply H.
Qed.

(** Registering the flag on a command that has none: the command's flag
    set gets the flag bound to the cell, the cell is reset to [false],
    and afterwards [GetMachineFriendlyFlag] on that command reads
    whatever the cell holds. *)
Theorem RegisterMachineFriendlyFlag_binds w c top node p (b : bool) :
  roots w !! cobra.root c = Some top ->
  cobra.descend top (cobra.path c) = Some node ->
  cobra.Flags node !! machineFriendlyFlagKey = None ->
  bools w !! p = Some b ->
  exists w',
    RegisterMachineFriendlyFlag (Some c) (Some p) w = Returns (tt, w')
    /\ bools w' = <[p := false]> (bools w)
    /\ GetMachineFriendlyFlag (Some c) w' = Returns (false, w')
    /\ forall b' : bool,
         GetMachineFriendlyFlag (Some c) (set_bools w' (<[p := b']> (bools w')))
         = Returns (b', set_bools w' (<[p := b']> (bools w'))).
Proof.
  intros Hr Hnode Hflag Hp.
  set (set' := <[machineFriendlyFlagKey := machineFriendlyFlag p]> (cobra.Flags node)).
  destruct (replace_at_descend top (cobra.path c) node
              (cobra.with_flags node set') Hnode) as (top' & Hrep & Hd').
  set (w1 := set_bools w (<[p := false]> (bools w))).
  set (w' := set_roots w1 (<[cobra.root c := top']> (roots w1))).
  assert (forall w0 (b0 : bool),
             roots w0 = roots w' -> bools w0 !! p = Some b0 ->
             GetMachineFriendlyFlag (Some c) w0 = Returns (b0, w0)) as Hread.
  { intros w0 b0 Hroots Hb0. unfold GetMachineFriendlyFlag, load_cmd.
    rewrite (bind_step _ _ _ (cobra.with_flags node set') w0).
    - apply (GetMachineFriendlyFlagFrom_bound _ p); [|done].
      cbn. subst set'. by rewrite lookup_insert_eq.
    - rewrite (bind_step _ _ _ top' w0).
      + by rewrite Hd'.
      + unfold load_root, deref. rewrite Hroots. subst w' w1. cbn.
        rewrite list_lookup_insert_eq; [done|]. by eapply lookup_lt_Some. }
  exists w'. split; [|split; [done|split]].
  - unfold RegisterMachineFriendlyFlag.
    rewrite (bind_step _ _ _ node w).
    2: { unfold load_cmd.
         rewrite (bind_step _ _ _ top w) by (by unfold load_root, deref; rewrite Hr).
         by rewrite Hnode. }
    rewrite (bind_step _ _ _ set' w1) by (by apply (Register_absent _ _ b)).
    unfold store_cmd.
    rewrite (bind_step _ _ _ top w1) by (by unfold load_root, deref; cbn; rewrite Hr).
    rewrite Hrep. unfold store_root. cbn. by rewrite Hr.
  - apply Hread; [done|]. subst w' w1. cbn.
    apply list_lookup_insert_eq. by eapply lookup_lt_Some.
  - intros b'. apply Hread; [done|]. cbn.
    apply list_lookup_insert_eq. rewrite length_insert. by eapply lookup_lt_Some.
Qed.

Lemma RegisterMachineFriendlyFlag_binds_witness :
  exists w',
    RegisterMachineFriendlyFlag (Some deepest) (Some 0) tree_world
    = Returns (tt, w')
    /\ GetMachineFriendlyFlag (Some deepest) w' = Returns (false, w').
Proof.
  destruct (roots tree_world !! 0) as [top|] eqn:Htop; [|discriminate].
  destruct (RegisterMachineFriendlyFlag_binds tree_world deepest top config_list
              0 false Htop) as (w' & Hrun & _ & Hread & _).
  - injection Htop as <-. reflexivity.
  - reflexivity.
  - reflexivity.
  - by exists w'.
Defined.

(** ** A command added after Build is visible through the registry *)

(** The registry entry and the application share the root: a command
    added to a built application that had no command yet is found by
    [GetCommand] under the application's name at once. *)
Theorem AddCommand_visible_through_registry w app x r w1 cmd :
  registry_ok w ->
  apps w !! app = Some x ->
  CobraCommand x = None ->
  commands x = [] ->
  Build app w = Returns (r, w1) ->
  exists w2,
    AddCommand app cmd w1 = Returns (tt, w2)
    /\ GetCommand (Name x) (cobra.Name cmd) w2
       = Returns (Some {| cobra.root := r; cobra.path := [0] |}, w2).
Proof.
  intros Hok Happ Hunbuilt Hnone HB.
  assert (Build app w = Build_fresh app x w) as Heq.
  { unfold Build. rewrite (bind_step _ _ _ x w).
    - by rewrite Hunbuilt.
    - unfold load_app, deref. by rewrite Happ. }
  rewrite Heq in HB.
  destruct (Build_fresh_registry _ _ _ _ _ Hok Happ HB) as (Hok1 & Hfound & _).
  destruct (Build_fresh_app _ _ _ _ _ HB) as (x' & Hx' & Hr).
  destruct (Build_fresh_root _ _ _ _ _ HB) as (fs & Htop & _).
  pose proof (built_root_commands app x fs) as Hkids.
  rewrite Hnone in Hkids. apply Permutation_nil_r in Hkids.
  set (top := built_root app x fs) in *.
  set (w2 := set_roots w1 (<[r := cobra.AddCommand top cmd]> (roots w1))).
  exists w2. split.
  - unfold AddCommand.
    rewrite (bind_step _ _ _ x' w1) by (by unfold load_app, deref; rewrite Hx').
    rewrite Hr.
    rewrite (bind_step _ _ _ top w1) by (by unfold load_root, deref; rewrite Htop).
    unfold store_root. by rewrite Htop.
  - unfold GetCommand.
    rewrite (bind_step _ _ _ (Some app) w2).
    2: { rewrite (GetByName_spec w1 _ Hok1) in Hfound.
         injection Hfound as Hfound.
         rewrite (GetByName_spec w2 _ Hok1). by rewrite <- Hfound. }
    rewrite (bind_step _ _ _ x' w2) by (by unfold load_app, deref; cbn; rewrite Hx').
    rewrite Hr.
    rewrite (bind_step _ _ _ (cobra.AddCommand top cmd) w2).
    2: { unfold load_root, deref. subst w2. cbn.
         rewrite list_lookup_insert_eq; [done|]. by eapply lookup_lt_Some. }
    rewrite getCommand_unfold. unfold cobra.Commands in *. cbn.
    rewrite Hkids. cbn. by rewrite String.eqb_refl.
Qed.

Lemma AddCommand_visible_through_registry_witness :
  exists w2,
    AddCommand 0 (command "list" []) built_world = Returns (tt, w2)
    /\ GetCommand "app" "list" w2
       = Returns (Some {| cobra.root := 0; cobra.path := [0] |}, w2).
Proof.
  apply (AddCommand_visible_through_registry unbuilt_world 0 (blank "app") 0
           built_world (command "list" [])); try reflexivity.
  constructor.
Defined.

(** ** A help template that panics *)

(** [Build] calls the help template's [String]: when that panics, so does
    [Build].  A [HelpTemplate] without an inner template is such a help
    template. *)
Theorem Build_panics_with_template w app x p :
  apps w !! app = Some x ->
  CobraCommand x = None ->
  (forall configure fs h, PersistentFlags x = Some configure ->
     exists fs' h', configure fs h = Returns (fs', h')) ->
  HelpTemplate x = Some (Panics p) ->
  Build app w = Panics p.
Proof.
  intros Happ Hunbuilt Hcfg Htmpl.
  unfold Build. rewrite (bind_step _ _ _ x w)
    by (by unfold load_app, deref; rewrite Happ).
  rewrite Hunbuilt. unfold Build_fresh.
  rewrite useText_spec. rewrite (bind_step _ _ _ _ w eq_refl).
  set (x1 := Build_long (Build_defaults x)).
  set (use := if bracket_after_first_word _ then _ else _).
  destruct (Build_prepared_callbacks x) as [HP HT]. fold x1 in HP, HT.
  destruct (Build_flags_returns x1 (rootLiteral x1 use) w) as (fs & h & Hflags);
    [done| by rewrite HP |].
  rewrite (bind_step _ _ _ _ _ Hflags). cbn [fst snd].
  set (xr := Build_attach _ _).
  assert (HelpTemplate xr.1 = HelpTemplate x) as HT'.
  { subst xr. unfold Build_attach. destruct (_ <? _)%nat; cbn; done. }
  destruct (Build_example_returns xr.2 (set_bools w h)) as [c2 Hc2].
  rewrite (bind_step _ _ _ _ _ Hc2).
  unfold bind at 1. unfold Build_template. by rewrite HT', Htmpl.
Qed.

Lemma Build_panics_with_template_witness :
  Build 0 (world_of [helpless_app]) = Panics NilDereference.
Proof.
  apply (Build_panics_with_template (world_of [helpless_app]) 0 helpless_app);
    try reflexivity.
  intros configure fs h Hcfg. discriminate Hcfg.
Defined.
